(** * CoolingLoopControl V1.1: the control engine, embedded and verified

    The program is [src/CoolingLoopControl_V1.1.cpp]: a PID regulator class,
    a voltage-to-temperature step curve, a three-state operating machine
    driven from [main], and a CAN status-frame encoder.

    Numbers.  Every numeric variable of the program is a C++ [float].  It is
    modelled as an IEEE 754 binary32 value, with the arithmetic of the
    standard library's [SpecFloat] at precision 24 and maximal exponent 128:
    round to nearest, ties to even, every operation rounded once
    (FLT_EVAL_METHOD 0, no contraction into fused multiply-add).  Unsuffixed
    literals such as [4.771] are [double]: binary64, precision 53, maximal
    exponent 1024; a decimal literal denotes the nearest value of its type.
    A comparison of a [float] with a [double] literal converts the [float] to
    [double] first (exactly), as the usual arithmetic conversions say.

    Effects.  The program prints; printing is modelled as a list of events.
    [rand()] is the only input of the loop, it is taken from a list.  The
    variables of [main] form the record [Vars], threaded through one
    iteration of the [while] loop at a time. *)

From Stdlib Require Import ZArith QArith Qround Qabs Qpower List Bool Ascii String Lia.
From Stdlib Require Import Floats.SpecFloat.
Import ListNotations.
Open Scope Z_scope.

(** ** Binary floating point *)

Definition f32 : Type := spec_float.
Definition f64 : Type := spec_float.

Definition prec32 : Z := 24.
Definition emax32 : Z := 128.
Definition prec64 : Z := 53.
Definition emax64 : Z := 1024.

Definition f32_add : f32 -> f32 -> f32 := SFadd prec32 emax32.
Definition f32_sub : f32 -> f32 -> f32 := SFsub prec32 emax32.
Definition f32_mul : f32 -> f32 -> f32 := SFmul prec32 emax32.
Definition f32_div : f32 -> f32 -> f32 := SFdiv prec32 emax32.

(** The relational operators; each is false as soon as an operand is NaN. *)
Definition f_lt (x y : spec_float) : bool := SFltb x y.
Definition f_gt (x y : spec_float) : bool := SFltb y x.
Definition f_le (x y : spec_float) : bool := SFleb x y.
Definition f_ge (x y : spec_float) : bool := SFleb y x.

Definition is_nan (x : spec_float) : bool :=
  match x with S754_nan => true | _ => false end.

Definition is_finite (x : spec_float) : bool :=
  match x with S754_zero _ | S754_finite _ _ _ => true | _ => false end.

(** Conversion of an [int] to a floating type. *)
Definition f32_of_Z (z : Z) : f32 := binary_normalize prec32 emax32 z 0 false.
Definition f64_of_Z (z : Z) : f64 := binary_normalize prec64 emax64 z 0 false.

Definition pow10 (k : nat) : positive := Nat.iter k (Pos.mul 10) 1%positive.

(** The decimal numeral [n * 10^-k] rounded to the format [(prec, emax)]:
    the quotient of the two integers, rounded once. *)
Definition of_decimal (prec emax : Z) (n : Z) (k : nat) : spec_float :=
  match n with
  | Z0 => S754_zero false
  | Zpos p => SFdiv prec emax (S754_finite false p 0) (S754_finite false (pow10 k) 0)
  | Zneg p => SFdiv prec emax (S754_finite true p 0) (S754_finite false (pow10 k) 0)
  end.

(** [f32_dec 5 1] is the literal [0.5f], [f64_dec 4771 3] the literal [4.771]. *)
Definition f32_dec : Z -> nat -> f32 := of_decimal prec32 emax32.
Definition f64_dec : Z -> nat -> f64 := of_decimal prec64 emax64.

(** Conversions between the two formats: [float] to [double] is exact,
    [double] to [float] rounds. *)
Definition convert (prec emax : Z) (x : spec_float) : spec_float :=
  match x with
  | S754_finite s m e => binary_normalize prec emax (cond_Zopp s (Zpos m)) e s
  | _ => x
  end.

Definition f64_of_f32 : f32 -> f64 := convert prec64 emax64.
Definition f32_of_f64 : f64 -> f32 := convert prec32 emax32.

(** The real number a finite value stands for. *)
Definition F2Q (x : spec_float) : Q :=
  match x with
  | S754_finite s m e => inject_Z (cond_Zopp s (Zpos m)) * Qpower 2 e
  | _ => 0%Q
  end.

(** Truncation toward zero of a finite value; NaN and the infinities have
    no integer part. *)
Definition f_trunc (x : spec_float) : option Z :=
  match x with
  | S754_zero _ => Some 0
  | S754_finite s m e =>
      Some (cond_Zopp s (if 0 <=? e then Z.shiftl (Zpos m) e else Z.shiftr (Zpos m) (- e)))
  | _ => None
  end.

(** [static_cast<unsigned char>(x)]: the truncated value when it fits the
    destination type, undefined behaviour ([None]) otherwise. *)
Definition uchar_of_f32 (x : f32) : option Z :=
  match f_trunc x with
  | Some z => if (0 <=? z) && (z <=? 255) then Some z else None
  | None => None
  end.

(** ** PID controller class *)

Record PIDController : Type := mkPID {
  Kp : f32; Ki : f32; Kd : f32;
  prevError : f32; integral : f32
}.

(** The constructor: [prevError(0.0), integral(0.0)]. *)
Definition PIDController_new (p i d : f32) : PIDController :=
  mkPID p i d (f32_of_f64 (f64_dec 0 1)) (f32_of_f64 (f64_dec 0 1)).

(** [compute]: the returned value and the object after the call. *)
Definition compute (c : PIDController) (setpoint measuredValue : f32)
  : f32 * PIDController :=
  let error := f32_sub setpoint measuredValue in
  let integral' := f32_add (integral c) error in
  let derivative := f32_sub error (prevError c) in
  (f32_add (f32_add (f32_mul (Kp c) error) (f32_mul (Ki c) integral'))
           (f32_mul (Kd c) derivative),
   mkPID (Kp c) (Ki c) (Kd c) error integral').

(** ** State machine states *)

Inductive SystemState : Type := OFF | ON | SAFETY_SHUTDOWN.

(** ** interpolateTemperature *)

Definition ret (x : f64) : f32 := f32_of_f64 x.

Definition interpolateTemperature (voltage : f32) : f32 :=
  let v := f64_of_f32 voltage in
  if f_ge v (f64_dec 4771 3) then ret (SFopp (f64_dec 200 1)) else
  if f_ge v (f64_dec 4642 3) then ret (SFopp (f64_dec 100 1)) else
  if f_ge v (f64_dec 4438 3) then ret (f64_dec 0 1) else
  if f_ge v (f64_dec 4141 3) then ret (f64_dec 100 1) else
  if f_ge v (f64_dec 3751 3) then ret (f64_dec 200 1) else
  if f_ge v (f64_dec 3325 3) then ret (f64_dec 300 1) else
  if f_ge v (f64_dec 2838 3) then ret (f64_dec 400 1) else
  if f_ge v (f64_dec 2500 3) then ret (f64_dec 500 1) else
  if f_ge v (f64_dec 1915 3) then ret (f64_dec 600 1) else
  if f_ge v (f64_dec 1212 3) then ret (f64_dec 800 1) else
  if f_ge v (f64_dec 749 3) then ret (f64_dec 1000 1) else
  ret (f64_dec 1200 1).

(** ** CANcontrol *)

Definition CANID : Z := 0x18FF408F.
Definition DLC : nat := 8.

(** [a[i] = x] on an array held as a list. *)
Fixpoint store (a : list Z) (i : nat) (x : Z) : list Z :=
  match a, i with
  | [], _ => []
  | _ :: t, O => x :: t
  | h :: t, S j => h :: store t j x
  end.

(** The identifier and the eight data bytes the function prints; [None]
    when one of the two casts has undefined behaviour. *)
Definition CANcontrol (pumpSpeed fanSpeed : f32) : option (Z * list Z) :=
  let msg := repeat 0 DLC in
  match uchar_of_f32 (f32_mul (f32_div pumpSpeed (f32_of_Z 100)) (f32_of_Z 255)) with
  | None => None
  | Some b2 =>
      let msg := store msg 2 b2 in
      match uchar_of_f32 (f32_mul (f32_div fanSpeed (f32_of_Z 100)) (f32_of_Z 255)) with
      | None => None
      | Some b6 => Some (CANID, store msg 6 b6)
      end
  end.

(** ** What the program prints *)

Inductive message : Type :=
  | Initializing | SystemOn | RemainsOff
  | LowCoolant | Overtemperature | EnteringShutdown | InShutdownMode
  | ParseError.

Inductive event : Type :=
  | ControlPump (speed : f32)                 (* controlPump(speed) *)
  | ControlFan (speed : f32)                  (* controlFan(speed) *)
  | CanControl (pumpSpeed fanSpeed : f32)     (* CANcontrol(pumpSpeed, fanSpeed) *)
  | Status (temperature pumpSpeed fanSpeed : f32)
  | Report (m : message).

(** [safetyShutdown(state)]: the new value of [state] and the line printed. *)
Definition safetyShutdown (state : SystemState) : SystemState * list event :=
  (SAFETY_SHUTDOWN, [Report EnteringShutdown]).

(** ** The variables of [main] *)

Record Config : Type := mkConfig {
  tempSetpoint : f32;
  safetyThreshold : f32
}.

Record Vars : Type := mkVars {
  pumpPID : PIDController;
  fanPID : PIDController;
  ignitionSwitch : bool;
  sensorVoltage : f32;
  levelSwitch : bool;
  measuredTemperature : f32;
  pumpSpeed : f32;
  fanSpeed : f32;
  currentState : SystemState
}.

Definition zero_f32 : f32 := f32_of_f64 (f64_dec 0 1).

(** The variables as [main] initialises them before the loop. *)
Definition initial_vars : Vars :=
  mkVars (PIDController_new (f32_dec 5 1) (f32_dec 1 1) (f32_dec 5 2))
         (PIDController_new (f32_dec 4 1) (f32_dec 1 1) (f32_dec 3 2))
         false zero_f32 true zero_f32 zero_f32 zero_f32 OFF.

Definition set_currentState (v : Vars) (s : SystemState) : Vars :=
  mkVars (pumpPID v) (fanPID v) (ignitionSwitch v) (sensorVoltage v) (levelSwitch v)
         (measuredTemperature v) (pumpSpeed v) (fanSpeed v) s.

Definition set_ignitionSwitch (v : Vars) (b : bool) : Vars :=
  mkVars (pumpPID v) (fanPID v) b (sensorVoltage v) (levelSwitch v)
         (measuredTemperature v) (pumpSpeed v) (fanSpeed v) (currentState v).

Definition set_measurement (v : Vars) (voltage temperature : f32) : Vars :=
  mkVars (pumpPID v) (fanPID v) (ignitionSwitch v) voltage (levelSwitch v)
         temperature (pumpSpeed v) (fanSpeed v) (currentState v).

Definition set_regulation (v : Vars) (pp fp : PIDController) (ps fs : f32) : Vars :=
  mkVars pp fp (ignitionSwitch v) (sensorVoltage v) (levelSwitch v)
         (measuredTemperature v) ps fs (currentState v).

(** ** One iteration of the main control loop *)

(** [case SystemState::OFF]. *)
Definition case_OFF (v : Vars) : list event * Vars :=
  let v := set_ignitionSwitch v (negb (ignitionSwitch v)) in
  if ignitionSwitch v
  then ([Report SystemOn], set_currentState v ON)
  else ([Report RemainsOff], v).

(** [case SystemState::ON], from the coolant-level check to the [break]s,
    once [measuredTemperature] has been assigned. *)
Definition regulate (cfg : Config) (v : Vars) : list event * Vars :=
  if negb (levelSwitch v) then
    let '(st, ev) := safetyShutdown (currentState v) in
    ([Report LowCoolant; ControlPump (f32_of_Z 0); ControlFan (f32_of_Z 0)] ++ ev,
     set_currentState v st)
  else
    let '(pumpSpeed, pumpPID) :=
      compute (pumpPID v) (tempSetpoint cfg) (measuredTemperature v) in
    let '(fanSpeed, fanPID) :=
      compute (fanPID v) (tempSetpoint cfg) (measuredTemperature v) in
    let pumpSpeed := if f_lt pumpSpeed (f32_dec 0 1) then f32_dec 0 1 else pumpSpeed in
    let pumpSpeed := if f_gt pumpSpeed (f32_dec 1000 1) then f32_dec 1000 1 else pumpSpeed in
    let fanSpeed := if f_lt fanSpeed (f32_dec 0 1) then f32_dec 0 1 else fanSpeed in
    let fanSpeed := if f_gt fanSpeed (f32_dec 1000 1) then f32_dec 1000 1 else fanSpeed in
    let v := set_regulation v pumpPID fanPID pumpSpeed fanSpeed in
    let applied := [ControlPump pumpSpeed; ControlFan fanSpeed] in
    if f_gt (measuredTemperature v) (safetyThreshold cfg) then
      let '(st, ev) := safetyShutdown (currentState v) in
      (applied ++ [Report Overtemperature; ControlPump (f32_of_Z 0); ControlFan (f32_of_Z 0)] ++ ev,
       set_currentState v st)
    else
      (applied ++ [Status (measuredTemperature v) pumpSpeed fanSpeed], v).

(** The simulated transducer: [1.0f + static_cast<float>(rand() % 3)]. *)
Definition simulated_voltage (rand : Z) : f32 :=
  f32_add (f32_dec 10 1) (f32_of_Z (Z.rem rand 3)).

(** [case SystemState::ON] on a given transducer voltage. *)
Definition case_ON (cfg : Config) (v : Vars) (voltage : f32) : list event * Vars :=
  regulate cfg (set_measurement v voltage (interpolateTemperature voltage)).

(** The body of [while (true)]: the [switch], then [CANcontrol].  [None] is
    the [return 0] of [case SystemState::SAFETY_SHUTDOWN], which leaves
    [main] before the end of the body is reached. *)
Definition loop_body (cfg : Config) (v : Vars) (rand : Z) : list event * option Vars :=
  match currentState v with
  | OFF =>
      let '(ev, v) := case_OFF v in
      (ev ++ [CanControl (pumpSpeed v) (fanSpeed v)], Some v)
  | ON =>
      let '(ev, v) := case_ON cfg v (simulated_voltage rand) in
      (ev ++ [CanControl (pumpSpeed v) (fanSpeed v)], Some v)
  | SAFETY_SHUTDOWN => ([Report InShutdownMode], None)
  end.

(** A tick of the loop in state ON in which the transfer curve reports the
    temperature [t]: [regulate], then [CANcontrol]. *)
Definition tick_ON (cfg : Config) (v : Vars) (t : f32) : list event * Vars :=
  let '(ev, v) := regulate cfg (set_measurement v (sensorVoltage v) t) in
  (ev ++ [CanControl (pumpSpeed v) (fanSpeed v)], v).

Inductive outcome : Type :=
  | Returned (code : Z)      (* [main] has returned *)
  | Looping (v : Vars).      (* the loop is still running *)

(** The loop run on the successive values of [rand()]. *)
Fixpoint run (cfg : Config) (v : Vars) (rands : list Z) : list event * outcome :=
  match rands with
  | [] => ([], Looping v)
  | r :: rest =>
      match loop_body cfg v r with
      | (ev, None) => (ev, Returned 0)
      | (ev, Some v') => let '(ev', o) := run cfg v' rest in (ev ++ ev', o)
      end
  end.

(** ** Parsing the command line *)

(** [std::stof] is the standard library's: it skips white space, converts
    the longest initial part of the string that has the form of a floating
    numeral (decimal, hexadecimal, [inf], [nan]) and ignores what follows;
    it throws [std::invalid_argument] when there is no such part and
    [std::out_of_range] when [strtof] reports [ERANGE].  [None] stands for
    a throw.  [strtof] reports [ERANGE] when the value overflows, and, as
    the C library of the GNU toolchain does where the standard leaves it to
    the implementation, when the result underflows: it is tiny and differs
    from the value of the numeral. *)

Definition isspace (c : ascii) : bool :=
  let n := N_of_ascii c in ((9 <=? n) && (n <=? 13))%N || (n =? 32)%N.

Definition to_lower (c : ascii) : ascii :=
  let n := N_of_ascii c in
  if ((65 <=? n) && (n <=? 90))%N then ascii_of_N (n + 32) else c.

Definition digit_value (c : ascii) : option Z :=
  let n := N_of_ascii c in
  if ((48 <=? n) && (n <=? 57))%N then Some (Z.of_N n - 48) else None.

Definition hex_value (c : ascii) : option Z :=
  let n := N_of_ascii (to_lower c) in
  if ((48 <=? n) && (n <=? 57))%N then Some (Z.of_N n - 48)
  else if ((97 <=? n) && (n <=? 102))%N then Some (Z.of_N n - 87)
  else None.

Fixpoint skip_spaces (s : list ascii) : list ascii :=
  match s with
  | c :: t => if isspace c then skip_spaces t else s
  | [] => []
  end.

(** The longest run of digits at the head of [s], read in base [base] on
    top of [acc]: the number read, how many digits, and the rest. *)
Fixpoint read_digits (value : ascii -> option Z) (base : Z) (s : list ascii)
    (acc : Z) (count : nat) : Z * nat * list ascii :=
  match s with
  | c :: t =>
      match value c with
      | Some d => read_digits value base t (base * acc + d) (S count)
      | None => (acc, count, s)
      end
  | [] => (acc, count, s)
  end.

Definition read_sign (s : list ascii) : bool * list ascii :=
  match s with
  | "-"%char :: t => (true, t)
  | "+"%char :: t => (false, t)
  | _ => (false, s)
  end.

(** An exponent part [e±ddd] or [p±ddd] if one is complete, else none. *)
Definition read_exponent (marker : ascii) (s : list ascii) : Z :=
  match s with
  | c :: t =>
      if Ascii.eqb (to_lower c) marker then
        let '(neg, t) := read_sign t in
        let '(e, n, _) := read_digits digit_value 10 t 0 O in
        match n with O => 0 | _ => if neg then - e else e end
      else 0
  | [] => 0
  end.

(** Digits, an optional point, digits: the digits as one integer, the
    number of digits in all, the number after the point, and the rest. *)
Definition read_mantissa (value : ascii -> option Z) (base : Z) (s : list ascii)
  : Z * nat * nat * list ascii :=
  let '(i, ni, s1) := read_digits value base s 0 O in
  match s1 with
  | "."%char :: t =>
      let '(m, nf, s2) := read_digits value base t i O in
      (m, (ni + nf)%nat, nf, s2)
  | _ => (i, ni, O, s1)
  end.

Definition starts_with (p s : list ascii) : bool :=
  (List.length p <=? List.length s)%nat
  && forallb (fun '(a, b) => Ascii.eqb a (to_lower b)) (combine p s).

(** [m * 10^e] rounded to precision 24 with the maximal exponent [emax],
    and rounded to binary32. *)
Definition round_decimal_to (emax : Z) (neg : bool) (m e : Z) : spec_float :=
  match m with
  | Zpos p =>
      if 0 <=? e
      then binary_normalize prec32 emax (cond_Zopp neg (Zpos p * 10 ^ e)) 0 neg
      else SFdiv prec32 emax (S754_finite neg p 0)
                             (S754_finite false (Z.to_pos (10 ^ (- e))) 0)
  | _ => S754_zero neg
  end.

Definition round_decimal : bool -> Z -> Z -> f32 := round_decimal_to emax32.

(** [m * 2^e] likewise. *)
Definition round_binary_to (emax : Z) (neg : bool) (m e : Z) : spec_float :=
  binary_normalize prec32 emax (cond_Zopp neg m) e neg.

(** A result is tiny when the value of the numeral, rounded to precision 24
    with an exponent range wide enough never to bound it, is below the
    least normal number [FLT_MIN] = 2^-126 in magnitude. *)
Definition emax_wide : Z := 1024.

Definition FLT_MIN : f32 := S754_finite false 8388608 (-149).

Definition tiny (wide : spec_float) : bool := SFltb (SFabs wide) FLT_MIN.

(** The result differs from the value of the numeral. *)
Definition inexact (exact : Q) (x : f32) : bool := negb (Qeq_bool (F2Q x) exact).

(** [ERANGE]: the result overflowed, or it is tiny and inexact. *)
Definition out_of_range (exact : Q) (wide : spec_float) (x : f32) : option f32 :=
  match x with
  | S754_infinity _ => None
  | _ => if tiny wide && inexact exact x then None else Some x
  end.

Definition strtof (s : list ascii) : option f32 :=
  let '(neg, s) := read_sign (skip_spaces s) in
  if starts_with (list_ascii_of_string "inf") s then Some (S754_infinity neg)
  else if starts_with (list_ascii_of_string "nan") s then Some S754_nan
  else
    let decimal :=
      let '(m, n, nf, rest) := read_mantissa digit_value 10 s in
      match n with
      | O => None
      | _ =>
          let e := read_exponent "e"%char rest - Z.of_nat nf in
          out_of_range (inject_Z (cond_Zopp neg m) * (10 # 1) ^ e)%Q
                       (round_decimal_to emax_wide neg m e)
                       (round_decimal neg m e)
      end in
    if starts_with (list_ascii_of_string "0x") s then
      let '(m, n, nf, rest) := read_mantissa hex_value 16 (skipn 2 s) in
      match n with
      | O => decimal
      | _ =>
          let e := read_exponent "p"%char rest - 4 * Z.of_nat nf in
          out_of_range (inject_Z (cond_Zopp neg m) * (2 # 1) ^ e)%Q
                       (round_binary_to emax_wide neg m e)
                       (round_binary_to emax32 neg m e)
      end
    else decimal.

Definition stof (str : string) : option f32 := strtof (list_ascii_of_string str).

(** The first lines of [main]: the configuration the loop starts with, or
    the exit code of the [catch] block. *)
Definition parse_arguments (argv : list string) : list event * (Config + Z) :=
  let argc := List.length argv in
  let tempSetpoint := f32_of_f64 (f64_dec 500 1) in
  let safetyThreshold := f32_of_f64 (f64_dec 700 1) in
  if (1 <? argc)%nat then
    match stof (nth 1 argv EmptyString) with
    | None => ([Report ParseError], inr 1)
    | Some tempSetpoint =>
        if (2 <? argc)%nat then
          match stof (nth 2 argv EmptyString) with
          | None => ([Report ParseError], inr 1)
          | Some safetyThreshold => ([], inl (mkConfig tempSetpoint safetyThreshold))
          end
        else ([], inl (mkConfig tempSetpoint safetyThreshold))
    end
  else ([], inl (mkConfig tempSetpoint safetyThreshold)).

(** [main]: one entry of [rands] per iteration of the loop, the value
    [rand()] returns if that iteration calls it. *)
Definition main (argv : list string) (rands : list Z) : list event * outcome :=
  match parse_arguments argv with
  | (ev, inr code) => (ev, Returned code)
  | (ev, inl cfg) =>
      let '(ev', o) := run cfg initial_vars rands in
      (ev ++ [Report Initializing] ++ ev', o)
  end.

(** ** Vocabulary of the specification *)

(** A binary32 datum: a NaN, an infinity, a zero, or a finite value whose
    mantissa and exponent are the canonical ones of the format. *)
Definition is_binary32 (x : f32) : Prop := valid_binary prec32 emax32 x = true.

(** "Clamped to [0, 100]", as the specification words it. *)
Definition clamp_0_100 (x : f32) : f32 :=
  if f_lt x (f32_of_Z 0) then f32_of_Z 0
  else if f_gt x (f32_of_Z 100) then f32_of_Z 100
  else x.

Definition in_range (x : f32) : bool :=
  f_le (f32_of_Z 0) x && f_le x (f32_of_Z 100).

(** The commands an event hands to an actuator or to the frame encoder lie
    in [0, 100]. *)
Definition event_in_range (e : event) : bool :=
  match e with
  | ControlPump s | ControlFan s => in_range s
  | CanControl p f => in_range p && in_range f
  | _ => true
  end.

Definition is_frame (e : event) : bool :=
  match e with CanControl _ _ => true | _ => false end.

Definition is_actuation (e : event) : bool :=
  match e with ControlPump _ | ControlFan _ | CanControl _ _ => true | _ => false end.

(** How many times an iteration calls the frame encoder. *)
Definition frames (ev : list event) : nat := List.length (filter is_frame ev).

(** *** The transfer curve as a table *)

(** The transfer curve as the table of the specification: the thresholds of
    the code from the highest down, each with its temperature. *)
Definition breakpoints : list (f64 * f32) :=
  [ (f64_dec 4771 3, f32_of_Z (-20)); (f64_dec 4642 3, f32_of_Z (-10));
    (f64_dec 4438 3, f32_of_Z 0);     (f64_dec 4141 3, f32_of_Z 10);
    (f64_dec 3751 3, f32_of_Z 20);    (f64_dec 3325 3, f32_of_Z 30);
    (f64_dec 2838 3, f32_of_Z 40);    (f64_dec 2500 3, f32_of_Z 50);
    (f64_dec 1915 3, f32_of_Z 60);    (f64_dec 1212 3, f32_of_Z 80);
    (f64_dec 749 3, f32_of_Z 100) ].

Definition fallback : f32 := f32_of_Z 120.

(** The temperature of the first threshold the voltage meets or exceeds. *)
Fixpoint lookup (table : list (f64 * f32)) (default : f32) (v : f64) : f32 :=
  match table with
  | [] => default
  | (threshold, temperature) :: rest =>
      if f_ge v threshold then temperature else lookup rest default v
  end.

(** Every element is a number and is at most each later one. *)
Fixpoint ascending (l : list f32) : bool :=
  match l with
  | [] => true
  | x :: rest => forallb (f_le x) (x :: rest) && ascending rest
  end.

(** *** The regulator along its calls *)

(** A regulator put through a sequence of calls [compute(setpoint, measured)]:
    the values returned and the object at the end. *)
Fixpoint calls (c : PIDController) (args : list (f32 * f32))
  : list f32 * PIDController :=
  match args with
  | [] => ([], c)
  | (setpoint, measured) :: rest =>
      let '(out, c) := compute c setpoint measured in
      let '(outs, c) := calls c rest in
      (out :: outs, c)
  end.

(** The recurrence of the specification, read off the history of errors. *)
Definition errors (args : list (f32 * f32)) : list f32 :=
  map (fun '(setpoint, measured) => f32_sub setpoint measured) args.

Definition accumulated (errs : list f32) : f32 :=
  fold_left f32_add errs (f32_of_Z 0).

Definition pid_output (kp ki kd : f32) (earlier : list f32) (error : f32) : f32 :=
  f32_add (f32_add (f32_mul kp error)
                   (f32_mul ki (accumulated (earlier ++ [error]))))
          (f32_mul kd (f32_sub error (last earlier (f32_of_Z 0)))).

(** *** Frames and runs *)

(** Rounding to the nearest integer, halves upward: the [round] of the
    specification's frame scaling. *)
Definition round_nearest (q : Q) : Z := Qfloor (q + (1 # 2)).

(** The variables at the start of each iteration a run executes. *)
Fixpoint trace (cfg : Config) (v : Vars) (rands : list Z) : list Vars :=
  match rands with
  | [] => []
  | r :: rest =>
      v :: match snd (loop_body cfg v r) with
           | Some v' => trace cfg v' rest
           | None => []
           end
  end.

(** The configuration without command-line arguments, and the variables once
    the ignition has switched the system on. *)
Definition default_config : Config :=
  mkConfig (f32_of_f64 (f64_dec 500 1)) (f32_of_f64 (f64_dec 700 1)).

Definition on_vars : Vars :=
  set_currentState (set_ignitionSwitch initial_vars true) ON.

(** This tick's commands: the outputs of the two regulators on the measured
    temperature, clamped; and the variables once both regulators have run. *)
Definition pump_command (cfg : Config) (v : Vars) : f32 :=
  clamp_0_100 (fst (compute (pumpPID v) (tempSetpoint cfg) (measuredTemperature v))).

Definition fan_command (cfg : Config) (v : Vars) : f32 :=
  clamp_0_100 (fst (compute (fanPID v) (tempSetpoint cfg) (measuredTemperature v))).

Definition regulated (cfg : Config) (v : Vars) : Vars :=
  set_regulation v
    (snd (compute (pumpPID v) (tempSetpoint cfg) (measuredTemperature v)))
    (snd (compute (fanPID v) (tempSetpoint cfg) (measuredTemperature v)))
    (pump_command cfg v) (fan_command cfg v).

(** The variables once the temperature [t] has been measured. *)
Definition measuring (v : Vars) (t : f32) : Vars :=
  set_measurement v (sensorVoltage v) t.

(** The coolant-level input, which the program only initialises. *)
Definition set_levelSwitch (v : Vars) (b : bool) : Vars :=
  mkVars (pumpPID v) (fanPID v) (ignitionSwitch v) (sensorVoltage v) b
         (measuredTemperature v) (pumpSpeed v) (fanSpeed v) (currentState v).

(** *** The transfer curve over the real numbers *)

(** The transfer curve as the specification states it, over the real
    numbers: the thresholds as the decimal numbers written in the table. *)
Definition decimal_breakpoints : list (Q * f32) :=
  [ (4771 # 1000, f32_of_Z (-20)); (4642 # 1000, f32_of_Z (-10));
    (4438 # 1000, f32_of_Z 0);     (4141 # 1000, f32_of_Z 10);
    (3751 # 1000, f32_of_Z 20);    (3325 # 1000, f32_of_Z 30);
    (2838 # 1000, f32_of_Z 40);    (2500 # 1000, f32_of_Z 50);
    (1915 # 1000, f32_of_Z 60);    (1212 # 1000, f32_of_Z 80);
    (749 # 1000, f32_of_Z 100) ]%Q.

Fixpoint lookupQ (table : list (Q * f32)) (default : f32) (v : Q) : f32 :=
  match table with
  | [] => default
  | (threshold, temperature) :: rest =>
      if Qle_bool threshold v then temperature else lookupQ rest default v
  end.

(** Each threshold of the code with the decimal number it was written as,
    the mantissa and exponent of the binary32 value just below that number,
    and its temperature. *)
Definition calibration : list (f64 * Q * (positive * Z) * f32) :=
  [ (f64_dec 4771 3, 4771 # 1000, (10005512%positive, -21), f32_of_Z (-20));
    (f64_dec 4642 3, 4642 # 1000, (9734979%positive, -21), f32_of_Z (-10));
    (f64_dec 4438 3, 4438 # 1000, (9307160%positive, -21), f32_of_Z 0);
    (f64_dec 4141 3, 4141 # 1000, (8684306%positive, -21), f32_of_Z 10);
    (f64_dec 3751 3, 3751 # 1000, (15732834%positive, -22), f32_of_Z 20);
    (f64_dec 3325 3, 3325 # 1000, (13946060%positive, -22), f32_of_Z 30);
    (f64_dec 2838 3, 2838 # 1000, (11903434%positive, -22), f32_of_Z 40);
    (f64_dec 2500 3, 2500 # 1000, (10485759%positive, -22), f32_of_Z 50);
    (f64_dec 1915 3, 1915 # 1000, (16064184%positive, -23), f32_of_Z 60);
    (f64_dec 1212 3, 1212 # 1000, (10166992%positive, -23), f32_of_Z 80);
    (f64_dec 749 3, 749 # 1000, (12566134%positive, -24), f32_of_Z 100) ].

(** The constant and the decimal number of a row lie between the same two
    neighbouring binary32 values, the upper one included. *)
Definition neighbours_ok (row : f64 * Q * (positive * Z) * f32) : bool :=
  let '(c, r, (M, E), _) := row in
  let lo := S754_finite false M E in
  let hi := S754_finite false (M + 1) E in
  bounded prec32 emax32 M E && bounded prec32 emax32 (M + 1) E
  && SFltb (f64_of_f32 lo) c && SFleb c (f64_of_f32 hi)
  && negb (Qle_bool r (F2Q lo)) && Qle_bool r (F2Q hi).

(** *** The invariant that keeps NaN out of the loop *)

(** A zero, or a finite value of magnitude at most [2^k] whose exponent is
    at most the one of [2^k]. *)
Definition below (k : Z) (x : spec_float) : Prop :=
  match x with
  | S754_zero _ => True
  | S754_finite _ m e => e <= k - 23 /\ Zpos m <= 2 ^ (k - e)
  | _ => False
  end.

(** A regulator whose state keeps [compute] away from NaN: gains of
    magnitude at most 1, the integral gain a nonzero finite number, the
    previous error of magnitude at most 2^126, the accumulator a number. *)
Definition sound_pid (c : PIDController) : Prop :=
  below 0 (Kp c) /\ (exists s m e, Ki c = S754_finite s m e) /\ below 0 (Kd c) /\
  below 126 (prevError c) /\ is_nan (integral c) = false.

(** The invariant of the loop: both regulators sound, both stored commands
    in [0, 100]. *)
Definition sound_vars (v : Vars) : Prop :=
  sound_pid (pumpPID v) /\ sound_pid (fanPID v) /\
  in_range (pumpSpeed v) = true /\ in_range (fanSpeed v) = true.

(** A shift record that has lost no bit. *)
Definition exact_record (mrs : shr_record) : bool :=
  negb (shr_r mrs) && negb (shr_s mrs).

(** ** Vocabulary of the runs *)

(** The variables once an iteration in state ON has read the transducer. *)
Definition measured (v : Vars) (rand : Z) : Vars :=
  set_measurement v (simulated_voltage rand)
                  (interpolateTemperature (simulated_voltage rand)).

(** The overtemperature test of an iteration in state ON on the value [rand]
    of [rand()]: [measuredTemperature > safetyThreshold]. *)
Definition overtemperature (cfg : Config) (rand : Z) : bool :=
  f_gt (interpolateTemperature (simulated_voltage rand)) (safetyThreshold cfg).

(** The six ways through the body of the loop: what is printed and called,
    and the variables at the end, or none when [main] returns. *)
Inductive iteration (cfg : Config) (v : Vars) (rand : Z)
  : list event -> option Vars -> Prop :=
  | switch_on :
      currentState v = OFF -> ignitionSwitch v = false ->
      iteration cfg v rand
        [Report SystemOn; CanControl (pumpSpeed v) (fanSpeed v)]
        (Some (set_currentState (set_ignitionSwitch v true) ON))
  | remain_off :
      currentState v = OFF -> ignitionSwitch v = true ->
      iteration cfg v rand
        [Report RemainsOff; CanControl (pumpSpeed v) (fanSpeed v)]
        (Some (set_ignitionSwitch v false))
  | low_coolant :
      currentState v = ON -> levelSwitch v = false ->
      iteration cfg v rand
        [Report LowCoolant; ControlPump (f32_of_Z 0); ControlFan (f32_of_Z 0);
         Report EnteringShutdown; CanControl (pumpSpeed v) (fanSpeed v)]
        (Some (set_currentState (measured v rand) SAFETY_SHUTDOWN))
  | overheated :
      currentState v = ON -> levelSwitch v = true ->
      overtemperature cfg rand = true ->
      iteration cfg v rand
        [ControlPump (pump_command cfg (measured v rand));
         ControlFan (fan_command cfg (measured v rand));
         Report Overtemperature;
         ControlPump (f32_of_Z 0); ControlFan (f32_of_Z 0); Report EnteringShutdown;
         CanControl (pump_command cfg (measured v rand))
                    (fan_command cfg (measured v rand))]
        (Some (set_currentState (regulated cfg (measured v rand)) SAFETY_SHUTDOWN))
  | regulating :
      currentState v = ON -> levelSwitch v = true ->
      overtemperature cfg rand = false ->
      iteration cfg v rand
        [ControlPump (pump_command cfg (measured v rand));
         ControlFan (fan_command cfg (measured v rand));
         Status (measuredTemperature (measured v rand))
                (pump_command cfg (measured v rand))
                (fan_command cfg (measured v rand));
         CanControl (pump_command cfg (measured v rand))
                    (fan_command cfg (measured v rand))]
        (Some (regulated cfg (measured v rand)))
  | returning :
      currentState v = SAFETY_SHUTDOWN ->
      iteration cfg v rand [Report InShutdownMode] None.

(** The states in which an iteration reaches the end of the loop body. *)
Definition running (v : Vars) : bool :=
  match currentState v with SAFETY_SHUTDOWN => false | _ => true end.

(** The overtemperature test fails on each of these values of [rand()]. *)
Definition cool (cfg : Config) (rands : list Z) : bool :=
  forallb (fun r => negb (overtemperature cfg r)) rands.

(** What the output of a run that latched SAFETY_SHUTDOWN and returned ends
    with. *)
Definition shutdown_epilogue (p f : f32) : list event :=
  [ControlPump (f32_of_Z 0); ControlFan (f32_of_Z 0); Report EnteringShutdown;
   CanControl p f; Report InShutdownMode].

(** The two regulators hold the gains [main] gave them and the same
    previous error and accumulator. *)
Definition in_step (v : Vars) : Prop :=
  Kp (pumpPID v) = f32_dec 5 1 /\ Ki (pumpPID v) = f32_dec 1 1 /\
  Kd (pumpPID v) = f32_dec 5 2 /\
  Kp (fanPID v) = f32_dec 4 1 /\ Ki (fanPID v) = f32_dec 1 1 /\
  Kd (fanPID v) = f32_dec 3 2 /\
  prevError (pumpPID v) = prevError (fanPID v) /\
  integral (pumpPID v) = integral (fanPID v).

(** ** Signs and binary32 data *)

Definition is_zero (x : spec_float) : bool :=
  match x with S754_zero _ => true | _ => false end.

(** A zero of either sign, a negative number or minus infinity. *)
Definition nonpositive (x : spec_float) : Prop :=
  match x with
  | S754_zero _ => True
  | S754_infinity s | S754_finite s _ _ => s = true
  | S754_nan => False
  end.

(** A regulator, and the variables of [main], hold binary32 data. *)
Definition valid_pid (c : PIDController) : Prop :=
  is_binary32 (Kp c) /\ is_binary32 (Ki c) /\ is_binary32 (Kd c) /\
  is_binary32 (prevError c) /\ is_binary32 (integral c).

Definition valid_vars (v : Vars) : Prop :=
  valid_pid (pumpPID v) /\ valid_pid (fanPID v) /\
  is_binary32 (pumpSpeed v) /\ is_binary32 (fanSpeed v).

(** The commands of an event are binary32 numbers in [0, 100]. *)
Definition event_commands_ok (e : event) : Prop :=
  match e with
  | ControlPump s | ControlFan s => is_binary32 s /\ in_range s = true
  | CanControl p f =>
      (is_binary32 p /\ in_range p = true) /\ (is_binary32 f /\ in_range f = true)
  | _ => True
  end.

(** The frame of a call of the encoder is defined: neither conversion to
    [unsigned char] is out of range. *)
Definition frame_defined (e : event) : Prop :=
  match e with
  | CanControl p f =>
      exists b2 b6,
        CANcontrol p f = Some (CANID, [0; 0; b2; 0; 0; 0; b6; 0]) /\
        0 <= b2 <= 255 /\ 0 <= b6 <= 255
  | _ => True
  end.

(** ** The unit tests of the repository *)

(** [EXPECT_NEAR(val1, val2, abs_error)] on [double]s that are numbers:
    [fabs(val1 - val2) <= abs_error]. *)
Definition EXPECT_NEAR (val1 val2 abs_error : f64) : bool :=
  f_le (SFabs (SFsub prec64 emax64 val1 val2)) abs_error.

(** [EXPECT_EQ(val1, val2)] on [double]s: [val1 == val2]. *)
Definition EXPECT_EQ (val1 val2 : f64) : bool := SFeqb val1 val2.

(** [TEST(PIDControllerTest, Compute)]: its two expectations in order.  The
    [double] arguments [1.0], [50.0], [45.0] are converted to the [float]
    parameters; the [float] results are converted to [double]. *)
Definition PIDControllerTest_Compute : list bool :=
  let pid := PIDController_new (f32_of_f64 (f64_dec 10 1)) (f32_dec 1 1) (f32_dec 1 2) in
  let '(out1, pid) :=
    compute pid (f32_of_f64 (f64_dec 500 1)) (f32_of_f64 (f64_dec 450 1)) in
  let '(out2, pid) :=
    compute pid (f32_of_f64 (f64_dec 500 1)) (f32_of_f64 (f64_dec 500 1)) in
  [ EXPECT_NEAR (f64_of_f32 out1) (f64_dec 55 1) (f64_dec 1 1);
    EXPECT_NEAR (f64_of_f32 out2) (f64_dec 0 1) (f64_dec 1 1) ].

(** [TEST(InterpolateTemperatureTest, VoltageToTemperature)]. *)
Definition InterpolateTemperatureTest_VoltageToTemperature : list bool :=
  [ EXPECT_EQ (f64_of_f32 (interpolateTemperature (f32_dec 4771 3)))
              (SFopp (f64_dec 200 1));
    EXPECT_EQ (f64_of_f32 (interpolateTemperature (f32_dec 2838 3)))
              (f64_dec 400 1) ].

(** * Lemmas on the floating-point layer *)

(** ** Order *)

Lemma compare_cont_Eq (a b : positive) : Pos.compare_cont Eq a b = Pos.compare a b.
Proof. reflexivity. Qed.

Ltac cmp_cases :=
  repeat match goal with
  | |- context [Z.compare ?a ?b] => destruct (Z.compare_spec a b)
  | H : context [Z.compare ?a ?b] |- _ => destruct (Z.compare_spec a b)
  | |- context [Pos.compare_cont Eq ?a ?b] =>
      change (Pos.compare_cont Eq a b) with (Pos.compare a b)
  | H : context [Pos.compare_cont Eq ?a ?b] |- _ =>
      change (Pos.compare_cont Eq a b) with (Pos.compare a b) in H
  | |- context [Pos.compare ?a ?b] => destruct (Pos.compare_spec a b)
  | H : context [Pos.compare ?a ?b] |- _ => destruct (Pos.compare_spec a b)
  end.

Lemma SFcompare_antisym (x y : spec_float) (c : comparison) :
  SFcompare x y = Some c -> SFcompare y x = Some (CompOpp c).
Proof.
  destruct x as [sx|sx| |sx mx ex], y as [sy|sy| |sy my ey]; simpl;
    intros H; inversion H; clear H; subst;
    try destruct sx; try destruct sy; simpl; try reflexivity;
    cmp_cases; simpl; try reflexivity; subst; lia.
Qed.

Lemma SFcompare_not_nan (x y : spec_float) :
  is_nan x = false -> is_nan y = false -> exists c, SFcompare x y = Some c.
Proof.
  destruct x, y; simpl; intros; try discriminate; eauto.
Qed.

(** Among numbers, [not (x < y)] is [y <= x]. *)
Lemma f_lt_false_le (x y : spec_float) :
  is_nan x = false -> is_nan y = false -> f_lt x y = false -> f_le y x = true.
Proof.
  intros Hx Hy. unfold f_lt, f_le, SFltb, SFleb.
  destruct (SFcompare_not_nan x y Hx Hy) as [c Hc].
  rewrite Hc, (SFcompare_antisym _ _ _ Hc).
  destruct c; simpl; congruence.
Qed.

Lemma SFltb_leb (x y : spec_float) : SFltb x y = true -> SFleb x y = true.
Proof. unfold SFltb, SFleb. destruct (SFcompare x y) as [[ | | ]|]; congruence. Qed.

(** Transitivity of the comparisons, by cases on the three values: class,
    sign, exponent, mantissa. *)
Ltac order_by_cases x y z :=
  unfold SFleb, SFltb;
  destruct x as [sx|sx| |sx mx ex], y as [sy|sy| |sy my ey], z as [sz|sz| |sz mz ez];
  simpl; try discriminate; try reflexivity;
  try destruct sx; try destruct sy; try destruct sz; simpl;
  try discriminate; try reflexivity;
  cmp_cases; simpl; intros; try discriminate; try reflexivity; subst; lia.

Lemma SFleb_ltb_trans (x y z : spec_float) :
  SFleb x y = true -> SFltb y z = true -> SFleb x z = true.
Proof.
  order_by_cases x y z.
Qed.

Lemma SFltb_leb_trans (x y z : spec_float) :
  SFltb x y = true -> SFleb y z = true -> SFltb x z = true.
Proof.
  order_by_cases x y z.
Qed.

Lemma SFleb_trans (x y z : spec_float) :
  SFleb x y = true -> SFleb y z = true -> SFleb x z = true.
Proof.
  order_by_cases x y z.
Qed.

(** Nothing lies between two mantissas that follow each other. *)
Lemma next_float (M : positive) (E : Z) (v : spec_float) :
  SFltb (S754_finite false M E) v = true ->
  SFleb (S754_finite false (M + 1) E) v = true.
Proof.
  unfold SFltb, SFleb. destruct v as [s|s| |s m e]; cbn [SFcompare];
    try destruct s; try discriminate; try reflexivity.
  rewrite !compare_cont_Eq, !Pos2Z.inj_compare, Pos2Z.inj_add.
  destruct (Z.compare_spec E e) as [E1|L|G]; try discriminate; try reflexivity.
  destruct (Z.compare_spec (Zpos M) (Zpos m)) as [E2|L2|G2]; try discriminate.
  intros _. destruct (Z.compare_spec (Zpos M + 1) (Zpos m)); try reflexivity. lia.
Qed.

(** ** Mantissas, digits and the conversion to [double] *)

Lemma digits2_pos_bounds (m : positive) :
  2 ^ (Zpos (digits2_pos m) - 1) <= Zpos m < 2 ^ Zpos (digits2_pos m).
Proof.
  induction m as [p IH|p IH|]; simpl digits2_pos.
  - rewrite Pos2Z.inj_succ. change (Zpos p~1) with (2 * Zpos p + 1).
    replace (Z.succ (Zpos (digits2_pos p)) - 1) with (Z.succ (Zpos (digits2_pos p) - 1)) by lia.
    rewrite !Z.pow_succ_r by lia.
    generalize dependent (2 ^ (Zpos (digits2_pos p) - 1)).
    generalize (2 ^ Zpos (digits2_pos p)). intros; lia.
  - rewrite Pos2Z.inj_succ. change (Zpos p~0) with (2 * Zpos p).
    replace (Z.succ (Zpos (digits2_pos p)) - 1) with (Z.succ (Zpos (digits2_pos p) - 1)) by lia.
    rewrite !Z.pow_succ_r by lia.
    generalize dependent (2 ^ (Zpos (digits2_pos p) - 1)).
    generalize (2 ^ Zpos (digits2_pos p)). intros; lia.
  - simpl. lia.
Qed.

Lemma pow2_exp_nonneg (m : positive) (n : Z) : Zpos m <= 2 ^ n -> 0 <= n.
Proof.
  intros H. destruct (Z_lt_le_dec n 0) as [L|L]; [|exact L].
  rewrite Z.pow_neg_r in H by exact L. lia.
Qed.

Lemma iter_xO_value (m k : positive) :
  Zpos (Pos.iter xO m k) = Zpos m * 2 ^ Zpos k.
Proof.
  induction k as [|k IH] using Pos.peano_ind.
  - simpl. lia.
  - rewrite Pos.iter_succ. change (Zpos (Pos.iter xO m k)~0) with (2 * Zpos (Pos.iter xO m k)).
    rewrite IH, Pos2Z.inj_succ, Z.pow_succ_r by lia. lia.
Qed.

Lemma iter_xO_digits (m k : positive) :
  digits2_pos (Pos.iter xO m k) = (digits2_pos m + k)%positive.
Proof.
  induction k as [|k IH] using Pos.peano_ind.
  - simpl. lia.
  - rewrite Pos.iter_succ. simpl. rewrite IH. lia.
Qed.

(** What validity of a finite value says about its mantissa and exponent. *)
Lemma bounded_inv (prec emax : Z) (m : positive) (e : Z) :
  bounded prec emax m e = true ->
  Zpos (digits2_pos m) <= prec /\ 3 - emax - prec <= e /\ e <= emax - prec /\
  (3 - emax - prec < e -> Zpos (digits2_pos m) = prec).
Proof.
  unfold bounded, canonical_mantissa, fexp, emin.
  rewrite andb_true_iff, Z.eqb_eq, Z.leb_le. lia.
Qed.

Lemma binary_round_aux_canonical (prec emax : Z) (s : bool) (m : positive) (e : Z) :
  bounded prec emax m e = true ->
  binary_round_aux prec emax s (Zpos m) e loc_Exact = S754_finite s m e.
Proof.
  unfold bounded, canonical_mantissa. rewrite andb_true_iff, Z.eqb_eq.
  intros [Hc Hle].
  unfold binary_round_aux, shr_fexp. cbn [Zdigits2 shr_record_of_loc].
  rewrite Hc, Z.sub_diag. cbn [shr shr_m loc_of_shr_record round_nearest_even Zdigits2].
  rewrite Hc, Z.sub_diag. cbn [shr shr_m]. rewrite Hle. reflexivity.
Qed.

Lemma f64_of_f32_finite (s : bool) (m : positive) (e : Z) :
  bounded prec32 emax32 m e = true ->
  f64_of_f32 (S754_finite s m e) =
  S754_finite s (Pos.iter xO m (Z.to_pos (53 - Zpos (digits2_pos m))))
              (e - (53 - Zpos (digits2_pos m))).
Proof.
  intros Hb. apply bounded_inv in Hb. unfold prec32, emax32 in Hb.
  destruct Hb as (Hd & Hlo & Hhi & _).
  assert (Hpos : 0 < Zpos (digits2_pos m)) by lia.
  assert (Hr : binary_round prec64 emax64 s m e =
    S754_finite s (Pos.iter xO m (Z.to_pos (53 - Zpos (digits2_pos m))))
                (e - (53 - Zpos (digits2_pos m)))).
  { unfold binary_round, shl_align, fexp, emin, prec64, emax64.
    set (d := Zpos (digits2_pos m)) in *.
    replace (Z.max (d + e - 53) (3 - 1024 - 53)) with (d + e - 53) by lia.
    replace (d + e - 53 - e) with (- (53 - d)) by lia.
    replace (e - (53 - d)) with (d + e - 53) by lia.
    destruct (53 - d) as [|k|k] eqn:Hk; try lia.
    cbn [Z.opp Z.to_pos].
    apply binary_round_aux_canonical.
    unfold bounded, canonical_mantissa, fexp, emin.
    rewrite iter_xO_digits, Pos2Z.inj_add. fold d.
    apply andb_true_iff; split; [apply Z.eqb_eq | apply Z.leb_le]; lia. }
  unfold f64_of_f32, convert, binary_normalize.
  destruct s; exact Hr.
Qed.

(** The conversion keeps the order of binary32 values. *)
Lemma f64_of_f32_compare (x y : f32) :
  valid_binary prec32 emax32 x = true -> valid_binary prec32 emax32 y = true ->
  SFcompare (f64_of_f32 x) (f64_of_f32 y) = SFcompare x y.
Proof.
  destruct x as [sx|sx| |sx mx ex], y as [sy|sy| |sy my ey]; intros Hx Hy;
    try reflexivity; cbn [valid_binary] in Hx, Hy;
    repeat match goal with
    | H : bounded _ _ ?m ?e = true |- _ =>
        rewrite (f64_of_f32_finite _ m e H); apply bounded_inv in H;
        unfold prec32, emax32 in H
    end; try reflexivity.
  pose proof (digits2_pos_bounds mx) as Bx. pose proof (digits2_pos_bounds my) as By.
  cbn [SFcompare].
  set (dx := Zpos (digits2_pos mx)) in *. set (dy := Zpos (digits2_pos my)) in *.
  assert (Hdx : 0 < dx) by (unfold dx; lia).
  assert (Hdy : 0 < dy) by (unfold dy; lia).
  assert (Hvx : Zpos (Pos.iter xO mx (Z.to_pos (53 - dx))) = Zpos mx * 2 ^ (53 - dx)).
  { rewrite iter_xO_value. rewrite Z2Pos.id by lia. reflexivity. }
  assert (Hvy : Zpos (Pos.iter xO my (Z.to_pos (53 - dy))) = Zpos my * 2 ^ (53 - dy)).
  { rewrite iter_xO_value. rewrite Z2Pos.id by lia. reflexivity. }
  assert (Hcmp : (ex - (53 - dx) ?= ey - (53 - dy)) = Eq ->
                 ex = ey /\ dx = dy) by (rewrite Z.compare_eq_iff; lia).
  assert (Hm : dx = dy ->
     Pos.compare (Pos.iter xO mx (Z.to_pos (53 - dx))) (Pos.iter xO my (Z.to_pos (53 - dy)))
     = Pos.compare mx my).
  { intros E. rewrite !Pos2Z.inj_compare, Hvx, Hvy, <- E.
    rewrite !(Z.mul_comm _ (2 ^ (53 - dx))).
    symmetry. apply Zmult_compare_compat_l. apply Z.lt_gt, Z.pow_pos_nonneg; lia. }
  assert (Hlt : dx < dy -> (mx < my)%positive).
  { intros L. change (Zpos mx < Zpos my).
    apply Z.lt_le_trans with (2 ^ dx); [lia|].
    apply Z.le_trans with (2 ^ (dy - 1)); [|lia].
    apply Z.pow_le_mono_r; lia. }
  assert (Hgt : dy < dx -> (my < mx)%positive).
  { intros L. change (Zpos my < Zpos mx).
    apply Z.lt_le_trans with (2 ^ dy); [lia|].
    apply Z.le_trans with (2 ^ (dx - 1)); [|lia].
    apply Z.pow_le_mono_r; lia. }
  change (Pos.compare_cont Eq) with Pos.compare.
  destruct (Z.compare_spec (ex - (53 - dx)) (ey - (53 - dy))) as [E|L|G].
  - assert (ex = ey /\ dx = dy) as [E1 E2] by lia.
    rewrite (Hm E2). subst ey. rewrite Z.compare_refl. reflexivity.
  - destruct (Z.compare_spec ex ey) as [E'|L'|G']; try reflexivity; try lia.
    subst ey. assert (L2 : dx < dy) by lia.
    apply Hlt in L2. apply Pos.compare_lt_iff in L2. rewrite L2. reflexivity.
  - destruct (Z.compare_spec ex ey) as [E'|L'|G']; try reflexivity; try lia.
    subst ey. assert (L2 : dy < dx) by lia.
    apply Hgt in L2. apply Pos.compare_gt_iff in L2. rewrite L2. reflexivity.
Qed.

(** ** Floats as real numbers *)

Lemma two_power_pos (c : Z) : (0 < 2 ^ c)%Q.
Proof. apply Qpower_0_lt. reflexivity. Qed.

(** The value of a finite float over a common, lower exponent. *)
Lemma F2Q_scaled (s : bool) (m : positive) (e c : Z) :
  c <= e ->
  (F2Q (S754_finite s m e) == inject_Z (cond_Zopp s (Zpos m) * 2 ^ (e - c)) * 2 ^ c)%Q.
Proof.
  intros H. unfold F2Q.
  rewrite inject_Z_mult, (Zpower_Qpower 2 (e - c)) by lia.
  rewrite <- Qmult_assoc, <- Qpower_plus by discriminate.
  replace (e - c + c) with e by lia. reflexivity.
Qed.

Lemma Qcompare_scaled (a b : Z) (p : Q) :
  (0 < p)%Q -> (inject_Z a * p ?= inject_Z b * p)%Q = (a ?= b).
Proof.
  intros Hp. destruct (Z.compare_spec a b) as [E|L|G].
  - subst. apply Qeq_alt. reflexivity.
  - apply Qlt_alt. apply Qmult_lt_r; [exact Hp|]. rewrite <- Zlt_Qlt. exact L.
  - apply Qgt_alt. apply Qmult_lt_r; [exact Hp|]. rewrite <- Zlt_Qlt. exact G.
Qed.

Section Canonical.
Variables prec emax : Z.

(** Of two canonical mantissas, the one with the lower exponent is the
    smaller number. *)
Lemma canonical_lt (m1 m2 : positive) (e1 e2 : Z) :
  bounded prec emax m1 e1 = true -> bounded prec emax m2 e2 = true ->
  e1 < e2 -> Zpos m1 < Zpos m2 * 2 ^ (e2 - e1).
Proof.
  intros B1 B2 L.
  apply bounded_inv in B1. apply bounded_inv in B2.
  destruct B1 as (D1 & Lo1 & _). destruct B2 as (_ & _ & _ & N2).
  pose proof (digits2_pos_bounds m1) as P1. pose proof (digits2_pos_bounds m2) as P2.
  rewrite N2 in P2 by lia.
  assert (Hp : 0 < prec) by lia.
  assert (H1 : Zpos m1 < 2 ^ prec).
  { apply Z.lt_le_trans with (2 ^ Zpos (digits2_pos m1)); [apply P1|].
    apply Z.pow_le_mono_r; lia. }
  assert (H2 : 2 ^ prec <= Zpos m2 * 2 ^ 1).
  { replace prec with (Z.succ (prec - 1)) at 1 by lia.
    rewrite Z.pow_succ_r by lia. change (2 ^ 1) with 2.
    destruct P2 as [P2 _]. revert P2. generalize (2 ^ (prec - 1)). intros; lia. }
  assert (H3 : Zpos m2 * 2 ^ 1 <= Zpos m2 * 2 ^ (e2 - e1)).
  { apply Z.mul_le_mono_nonneg_l; [lia|]. apply Z.pow_le_mono_r; lia. }
  revert H1 H2 H3. generalize (2 ^ prec) (2 ^ (e2 - e1)) (2 ^ 1). intros; lia.
Qed.

Lemma SFcompare_scaled (s1 s2 : bool) (m1 m2 : positive) (e1 e2 : Z) :
  bounded prec emax m1 e1 = true -> bounded prec emax m2 e2 = true ->
  SFcompare (S754_finite s1 m1 e1) (S754_finite s2 m2 e2) =
  Some (cond_Zopp s1 (Zpos m1) * 2 ^ (e1 - Z.min e1 e2)
        ?= cond_Zopp s2 (Zpos m2) * 2 ^ (e2 - Z.min e1 e2)).
Proof.
  intros B1 B2. cbn [SFcompare]. f_equal. rewrite compare_cont_Eq.
  assert (P1 : 0 < 2 ^ (e1 - Z.min e1 e2)) by (apply Z.pow_pos_nonneg; lia).
  assert (P2 : 0 < 2 ^ (e2 - Z.min e1 e2)) by (apply Z.pow_pos_nonneg; lia).
  assert (Hcmp : (Zpos m1 * 2 ^ (e1 - Z.min e1 e2) ?= Zpos m2 * 2 ^ (e2 - Z.min e1 e2)) =
                 match e1 ?= e2 with
                 | Eq => (m1 ?= m2)%positive
                 | Lt => Lt
                 | Gt => Gt
                 end).
  { destruct (Z.compare_spec e1 e2) as [E|L|G].
    - subst e2. rewrite Z.min_id, Z.sub_diag, Z.pow_0_r, !Z.mul_1_r. reflexivity.
    - replace (Z.min e1 e2) with e1 by lia.
      rewrite Z.sub_diag, Z.pow_0_r, Z.mul_1_r. apply Z.compare_lt_iff.
      apply canonical_lt; assumption.
    - replace (Z.min e1 e2) with e2 by lia.
      rewrite Z.sub_diag, Z.pow_0_r, Z.mul_1_r. apply Z.compare_gt_iff.
      apply canonical_lt; assumption. }
  destruct s1, s2; cbn [cond_Zopp].
  - change (- Zpos m1) with (Zneg m1). change (Zneg m1) with (- Zpos m1).
    change (Zneg m2) with (- Zpos m2).
    rewrite !Z.mul_opp_l, Z.compare_opp.
    rewrite (Z.compare_antisym (Zpos m1 * 2 ^ (e1 - Z.min e1 e2))
                               (Zpos m2 * 2 ^ (e2 - Z.min e1 e2))), Hcmp.
    destruct (e1 ?= e2); reflexivity.
  - symmetry. apply Z.compare_lt_iff.
    revert P1 P2. generalize (2 ^ (e1 - Z.min e1 e2)) (2 ^ (e2 - Z.min e1 e2)). intros; nia.
  - symmetry. apply Z.compare_gt_iff.
    revert P1 P2. generalize (2 ^ (e1 - Z.min e1 e2)) (2 ^ (e2 - Z.min e1 e2)). intros; nia.
  - rewrite Hcmp. reflexivity.
Qed.

(** On the finite values of a format the comparison of floats is the
    comparison of the numbers they stand for. *)
Lemma SFcompare_F2Q (x y : spec_float) :
  valid_binary prec emax x = true -> valid_binary prec emax y = true ->
  is_finite x = true -> is_finite y = true ->
  SFcompare x y = Some (F2Q x ?= F2Q y)%Q.
Proof.
  destruct x as [sx|sx| |sx mx ex], y as [sy|sy| |sy my ey]; intros Vx Vy Fx Fy;
    try discriminate; cbn [valid_binary] in *.
  - reflexivity.
  - cbn [SFcompare]. f_equal. symmetry.
    rewrite (F2Q_scaled sy my ey ey) by lia. rewrite Z.sub_diag, Z.pow_0_r, Z.mul_1_r.
    change (F2Q (S754_zero sx)) with (inject_Z 0 * 1)%Q.
    setoid_replace (inject_Z 0 * 1)%Q with (inject_Z 0 * 2 ^ ey)%Q
      by (rewrite !Qmult_0_l; reflexivity).
    rewrite Qcompare_scaled by apply two_power_pos. destruct sy; reflexivity.
  - cbn [SFcompare]. f_equal. symmetry.
    rewrite (F2Q_scaled sx mx ex ex) by lia. rewrite Z.sub_diag, Z.pow_0_r, Z.mul_1_r.
    change (F2Q (S754_zero sy)) with (inject_Z 0 * 1)%Q.
    setoid_replace (inject_Z 0 * 1)%Q with (inject_Z 0 * 2 ^ ex)%Q
      by (rewrite !Qmult_0_l; reflexivity).
    rewrite Qcompare_scaled by apply two_power_pos. destruct sx; reflexivity.
  - rewrite (SFcompare_scaled _ _ _ _ _ _ Vx Vy). f_equal. symmetry.
    rewrite (F2Q_scaled sx mx ex (Z.min ex ey)) by lia.
    rewrite (F2Q_scaled sy my ey (Z.min ex ey)) by lia.
    apply Qcompare_scaled. apply two_power_pos.
Qed.
End Canonical.

Lemma SFltb_F2Q (x y : f32) :
  is_binary32 x -> is_binary32 y -> is_finite x = true -> is_finite y = true ->
  SFltb x y = true <-> (F2Q x < F2Q y)%Q.
Proof.
  intros Vx Vy Fx Fy. unfold SFltb.
  rewrite (SFcompare_F2Q prec32 emax32 x y Vx Vy Fx Fy), Qlt_alt.
  destruct (F2Q x ?= F2Q y)%Q; split; congruence.
Qed.

Lemma SFleb_F2Q (x y : f32) :
  is_binary32 x -> is_binary32 y -> is_finite x = true -> is_finite y = true ->
  SFleb x y = true <-> (F2Q x <= F2Q y)%Q.
Proof.
  intros Vx Vy Fx Fy. unfold SFleb.
  rewrite (SFcompare_F2Q prec32 emax32 x y Vx Vy Fx Fy), Qle_alt.
  destruct (F2Q x ?= F2Q y)%Q; split; congruence.
Qed.

(** ** Rounding stays below the values of the format *)

Lemma loc_of_exact_record (mrs : shr_record) :
  exact_record mrs = true <-> loc_of_shr_record mrs = loc_Exact.
Proof.
  destruct mrs as [m [|] [|]]; simpl; split; intros H; try reflexivity; discriminate.
Qed.

Lemma shr_1_spec (mrs : shr_record) :
  0 <= shr_m mrs ->
  shr_m (shr_1 mrs) = shr_m mrs / 2 /\
  (exact_record mrs = true -> shr_m mrs mod 2 = 0 -> exact_record (shr_1 mrs) = true).
Proof.
  destruct mrs as [m r s]. cbn [shr_m]. intros Hm.
  destruct m as [|[p|p|]|p]; try lia; cbn [shr_1 shr_m].
  - split; [reflexivity|]. unfold exact_record; cbn. destruct r, s; simpl; auto.
  - change (Zpos p~1) with (2 * Zpos p + 1).
    split.
    + apply Z.div_unique with 1; lia.
    + intros _ H. exfalso.
      rewrite Z.add_comm, Z.mul_comm, Z.mod_add in H by lia. discriminate.
  - change (Zpos p~0) with (2 * Zpos p).
    split.
    + apply Z.div_unique with 0; lia.
    + unfold exact_record; cbn. destruct r, s; simpl; auto.
  - split; [reflexivity|]. intros _ H. discriminate.
Qed.

Lemma iter_pos_nat {A : Type} (f : A -> A) (p : positive) (x : A) :
  iter_pos f p x = Nat.iter (Pos.to_nat p) f x.
Proof.
  revert x. induction p as [p IH|p IH|]; intros x; cbn [iter_pos].
  - rewrite !IH, Pos2Nat.inj_xI. rewrite <- Nat.iter_add.
    replace (S (2 * Pos.to_nat p)) with (S (Pos.to_nat p + Pos.to_nat p)) by lia.
    rewrite Nat.iter_succ_r. reflexivity.
  - rewrite !IH, Pos2Nat.inj_xO. rewrite <- Nat.iter_add.
    replace (2 * Pos.to_nat p)%nat with (Pos.to_nat p + Pos.to_nat p)%nat by lia.
    reflexivity.
  - reflexivity.
Qed.

Lemma shr_iter_spec (k : nat) (mrs : shr_record) :
  0 <= shr_m mrs ->
  shr_m (Nat.iter k shr_1 mrs) = shr_m mrs / 2 ^ Z.of_nat k /\
  (exact_record mrs = true -> shr_m mrs mod 2 ^ Z.of_nat k = 0 ->
   exact_record (Nat.iter k shr_1 mrs) = true).
Proof.
  intros Hm. induction k as [|k [IHm IHe]].
  - change (Nat.iter 0 shr_1 mrs) with mrs.
    change (2 ^ Z.of_nat 0) with 1. rewrite Z.div_1_r. auto.
  - rewrite Nat.iter_succ.
    assert (Hpow : 0 < 2 ^ Z.of_nat k) by (apply Z.pow_pos_nonneg; lia).
    assert (Hk : 0 <= shr_m (Nat.iter k shr_1 mrs)).
    { rewrite IHm. apply Z.div_pos; lia. }
    destruct (shr_1_spec _ Hk) as [H1 H2].
    rewrite Nat2Z.inj_succ, Z.pow_succ_r by lia.
    split.
    + rewrite H1, IHm, Z.div_div by lia. f_equal. lia.
    + intros He Hmod.
      apply Z.mod_divide in Hmod; [|lia]. destruct Hmod as [c Hc].
      apply H2.
      * apply IHe; [exact He|]. rewrite Hc.
        replace (c * (2 * 2 ^ Z.of_nat k)) with ((c * 2) * 2 ^ Z.of_nat k) by lia.
        apply Z.mod_mul. lia.
      * rewrite IHm, Hc.
        replace (c * (2 * 2 ^ Z.of_nat k)) with ((c * 2) * 2 ^ Z.of_nat k) by lia.
        rewrite Z.div_mul by lia. apply Z.mod_mul. lia.
Qed.

Section Rounding.
Variables prec emax : Z.
Hypothesis prec_pos : 0 < prec.

Lemma fexp_le_bound (m : Z) (e : Z) (mB : positive) (eB : Z) :
  0 <= m -> e <= eB -> bounded prec emax mB eB = true ->
  m <= Zpos mB * 2 ^ (eB - e) ->
  fexp prec emax (Zdigits2 m + e) <= eB.
Proof.
  intros Hm He Hb Hle.
  unfold bounded, canonical_mantissa in Hb.
  apply andb_true_iff in Hb. destruct Hb as [Hc _]. apply Z.eqb_eq in Hc.
  destruct m as [|p|p]; try lia.
  - cbn [Zdigits2]. unfold fexp, emin in *. lia.
  - cbn [Zdigits2].
    pose proof (digits2_pos_bounds p) as Bp.
    pose proof (digits2_pos_bounds mB) as BB.
    assert (Hlt : 2 ^ (Zpos (digits2_pos p) - 1) < 2 ^ (Zpos (digits2_pos mB) + (eB - e))).
    { rewrite Z.pow_add_r by lia.
      apply Z.le_lt_trans with (Zpos mB * 2 ^ (eB - e)); [lia|].
      apply Z.mul_lt_mono_pos_r; [apply Z.pow_pos_nonneg; lia | lia]. }
    apply Z.pow_lt_mono_r_iff in Hlt; [|lia|lia].
    unfold fexp, emin in *. lia.
Qed.

Lemma shr_fexp_spec (m : Z) (e : Z) (l : location) (mB : positive) (eB : Z) :
  0 <= m -> e <= eB -> bounded prec emax mB eB = true ->
  m <= Zpos mB * 2 ^ (eB - e) ->
  exists mrs e',
    shr_fexp prec emax m e l = (mrs, e') /\ e <= e' /\ e' <= eB /\
    shr_m mrs = m / 2 ^ (e' - e) /\
    (l = loc_Exact -> m mod 2 ^ (e' - e) = 0 -> loc_of_shr_record mrs = loc_Exact).
Proof.
  intros Hm He Hb Hle.
  pose proof (fexp_le_bound m e mB eB Hm He Hb Hle) as Hf.
  unfold shr_fexp, shr.
  set (r0 := shr_record_of_loc m l).
  assert (Hr0 : shr_m r0 = m) by (unfold r0; destruct l as [|[ | | ]]; reflexivity).
  assert (Hx0 : l = loc_Exact -> exact_record r0 = true) by (intros ->; reflexivity).
  destruct (fexp prec emax (Zdigits2 m + e) - e) as [|p|p] eqn:Hn.
  - exists r0, e. rewrite Z.sub_diag. change (2 ^ 0) with 1. rewrite Z.div_1_r.
    repeat split; try lia; auto.
    intros Hl _. apply loc_of_exact_record; auto.
  - exists (iter_pos shr_1 p r0), (e + Zpos p).
    replace (e + Zpos p - e) with (Zpos p) by lia.
    rewrite iter_pos_nat.
    destruct (shr_iter_spec (Pos.to_nat p) r0) as [H1 H2]; [lia|].
    rewrite positive_nat_Z, Hr0 in *.
    repeat split; try lia; auto.
    intros Hl Hmod. apply loc_of_exact_record; auto.
  - exists r0, e. rewrite Z.sub_diag. change (2 ^ 0) with 1. rewrite Z.div_1_r.
    repeat split; try lia; auto.
    intros Hl _. apply loc_of_exact_record; auto.
Qed.

Lemma round_nearest_even_spec (m : Z) (l : location) :
  (l = loc_Exact -> round_nearest_even m l = m) /\
  m <= round_nearest_even m l <= m + 1.
Proof.
  destruct l as [|[ | | ]]; cbn [round_nearest_even];
    try destruct (Z.even m); split; intros; try discriminate; lia.
Qed.

(** Rounding never crosses a value of the format: what is at most [B]
    before rounding is at most [B] after. *)
Lemma binary_round_aux_le (sx : bool) (mx ex : Z) (lx : location) (mB : positive) (eB : Z) :
  0 <= mx -> ex <= eB -> bounded prec emax mB eB = true ->
  mx <= Zpos mB * 2 ^ (eB - ex) ->
  (lx <> loc_Exact -> mx + 1 <= Zpos mB * 2 ^ (eB - ex)) ->
  binary_round_aux prec emax sx mx ex lx = S754_zero sx \/
  exists m e,
    binary_round_aux prec emax sx mx ex lx = S754_finite sx m e /\
    e <= eB /\ Zpos m <= Zpos mB * 2 ^ (eB - e).
Proof.
  intros Hm He Hb Hle Hin.
  destruct (shr_fexp_spec mx ex lx mB eB Hm He Hb Hle)
    as (mrs1 & e1 & Hs1 & Hlo1 & Hhi1 & Hm1 & Hx1).
  unfold binary_round_aux. rewrite Hs1.
  set (m2 := round_nearest_even (shr_m mrs1) (loc_of_shr_record mrs1)).
  assert (Hp1 : 0 < 2 ^ (e1 - ex)) by (apply Z.pow_pos_nonneg; lia).
  assert (HK : Zpos mB * 2 ^ (eB - ex) = Zpos mB * 2 ^ (eB - e1) * 2 ^ (e1 - ex)).
  { rewrite <- Z.mul_assoc, <- Z.pow_add_r by lia. do 2 f_equal. lia. }
  assert (H1nn : 0 <= shr_m mrs1) by (rewrite Hm1; apply Z.div_pos; lia).
  assert (Hm2 : 0 <= m2 <= Zpos mB * 2 ^ (eB - e1)).
  { destruct (round_nearest_even_spec (shr_m mrs1) (loc_of_shr_record mrs1)) as [Hex Hrg].
    fold m2 in Hex, Hrg. split; [lia|].
    destruct (Z.eq_dec m2 (shr_m mrs1)) as [E|N].
    - rewrite E, Hm1. apply Z.div_le_upper_bound; [lia|]. rewrite Z.mul_comm, <- HK. exact Hle.
    - assert (Hlt : mx < Zpos mB * 2 ^ (eB - ex)).
      { destruct lx as [|c].
        - destruct (Z.eq_dec (mx mod 2 ^ (e1 - ex)) 0) as [Z0|NZ].
          + exfalso. apply N, Hex, Hx1; auto.
          + destruct (Z.eq_dec mx (Zpos mB * 2 ^ (eB - ex))) as [E'|N']; [|lia].
            exfalso. apply NZ. rewrite E', HK. apply Z.mod_mul. lia.
        - assert (mx + 1 <= Zpos mB * 2 ^ (eB - ex)) by (apply Hin; discriminate). lia. }
      assert (shr_m mrs1 < Zpos mB * 2 ^ (eB - e1)).
      { rewrite Hm1. apply Z.div_lt_upper_bound; [lia|]. rewrite Z.mul_comm, <- HK. exact Hlt. }
      lia. }
  destruct Hm2 as [Hm2a Hm2b].
  destruct (shr_fexp_spec m2 e1 loc_Exact mB eB Hm2a Hhi1 Hb Hm2b)
    as (mrs2 & e2 & Hs2 & Hlo2 & Hhi2 & Hm3 & _).
  rewrite Hs2.
  assert (Hp2 : 0 < 2 ^ (e2 - e1)) by (apply Z.pow_pos_nonneg; lia).
  assert (HK2 : Zpos mB * 2 ^ (eB - e1) = Zpos mB * 2 ^ (eB - e2) * 2 ^ (e2 - e1)).
  { rewrite <- Z.mul_assoc, <- Z.pow_add_r by lia. do 2 f_equal. lia. }
  assert (Hm3b : 0 <= shr_m mrs2 <= Zpos mB * 2 ^ (eB - e2)).
  { rewrite Hm3. split; [apply Z.div_pos; lia|].
    apply Z.div_le_upper_bound; [lia|]. rewrite Z.mul_comm, <- HK2. exact Hm2b. }
  destruct (shr_m mrs2) as [|m3|m3]; [left; reflexivity| |lia].
  right. exists m3, e2.
  apply bounded_inv in Hb.
  replace (e2 <=? emax - prec) with true by (symmetry; apply Z.leb_le; lia).
  repeat split; try lia.
Qed.
End Rounding.

Lemma shr_fexp_nonneg (prec emax : Z) (m e : Z) (l : location) :
  0 <= m -> 0 <= shr_m (fst (shr_fexp prec emax m e l)).
Proof.
  intros Hm. unfold shr_fexp, shr.
  set (r0 := shr_record_of_loc m l).
  assert (Hr0 : shr_m r0 = m) by (unfold r0; destruct l as [|[ | | ]]; reflexivity).
  destruct (fexp prec emax (Zdigits2 m + e) - e) as [|p|p]; cbn [fst]; try lia.
  rewrite iter_pos_nat.
  destruct (shr_iter_spec (Pos.to_nat p) r0) as [H _]; [lia|].
  rewrite H, Hr0. apply Z.div_pos; [exact Hm | apply Z.pow_pos_nonneg; lia].
Qed.

Lemma binary_round_aux_not_nan (prec emax : Z) (sx : bool) (mx ex : Z) (lx : location) :
  0 <= mx -> is_nan (binary_round_aux prec emax sx mx ex lx) = false.
Proof.
  intros Hm. unfold binary_round_aux.
  pose proof (shr_fexp_nonneg prec emax mx ex lx Hm) as H1.
  destruct (shr_fexp prec emax mx ex lx) as [mrs1 e1]. cbn [fst] in H1.
  destruct (round_nearest_even_spec (shr_m mrs1) (loc_of_shr_record mrs1)) as [_ Hr].
  assert (H2 : 0 <= round_nearest_even (shr_m mrs1) (loc_of_shr_record mrs1)) by lia.
  pose proof (shr_fexp_nonneg prec emax _ e1 loc_Exact H2) as H3.
  destruct (shr_fexp prec emax _ e1 loc_Exact) as [mrs2 e2]. cbn [fst] in H3.
  destruct (shr_m mrs2) as [|p|p]; [reflexivity | | lia].
  destruct (e2 <=? emax - prec); reflexivity.
Qed.

Lemma binary_normalize_not_nan (prec emax : Z) (z e : Z) (s : bool) :
  is_nan (binary_normalize prec emax z e s) = false.
Proof.
  destruct z as [|p|p]; cbn [binary_normalize]; [reflexivity| |];
    unfold binary_round; destruct (shl_align p e _) as [mz ez];
    apply binary_round_aux_not_nan; lia.
Qed.

(** ** Magnitudes of sums and products *)

Lemma below_finite (k : Z) (x : spec_float) : below k x -> is_finite x = true.
Proof. destruct x; simpl; intros H; try reflexivity; contradiction. Qed.

Lemma below_mono (j k : Z) (x : spec_float) : j <= k -> below j x -> below k x.
Proof.
  intros L. destruct x as [s|s| |s m e]; simpl; auto.
  intros [He Hm]. split; [lia|].
  apply Z.le_trans with (2 ^ (j - e)); [exact Hm|].
  apply Z.pow_le_mono_r; lia.
Qed.

Lemma power_of_two_bounded (k : Z) :
  -126 <= k <= 127 -> bounded prec32 emax32 8388608 (k - 23) = true.
Proof.
  intros H. unfold bounded, canonical_mantissa, fexp, emin, prec32, emax32.
  change (Zpos (digits2_pos 8388608)) with 24.
  apply andb_true_iff. split; [apply Z.eqb_eq | apply Z.leb_le]; lia.
Qed.

Lemma binary_round_aux_below (k : Z) (sx : bool) (mx ex : Z) :
  -126 <= k <= 127 -> 0 <= mx -> ex <= k - 23 -> mx <= 2 ^ (k - ex) ->
  below k (binary_round_aux prec32 emax32 sx mx ex loc_Exact).
Proof.
  intros Hk Hm He Hle.
  assert (E : forall e, e <= k - 23 -> Zpos 8388608 * 2 ^ (k - 23 - e) = 2 ^ (k - e)).
  { intros e L. change (Zpos 8388608) with (2 ^ 23).
    rewrite <- Z.pow_add_r by lia. f_equal. lia. }
  destruct (binary_round_aux_le prec32 emax32 eq_refl sx mx ex loc_Exact 8388608 (k - 23))
    as [Hz|(m & e & Hf & He' & Hm')].
  - exact Hm.
  - exact He.
  - apply power_of_two_bounded; exact Hk.
  - rewrite E by exact He. exact Hle.
  - intros N. contradiction.
  - rewrite Hz. exact I.
  - rewrite Hf. split; [exact He'|]. rewrite <- E by exact He'. exact Hm'.
Qed.

Lemma shl_align_spec (m : positive) (e e' : Z) :
  let '(mz, ez) := shl_align m e e' in
  ez = Z.min e e' /\ Zpos mz = Zpos m * 2 ^ (e - ez).
Proof.
  unfold shl_align. destruct (e' - e) as [|p|p] eqn:H.
  - split; [lia|]. replace (e - e) with 0 by lia. rewrite Z.pow_0_r. lia.
  - split; [lia|]. replace (e - e) with 0 by lia. rewrite Z.pow_0_r. lia.
  - split; [lia|]. rewrite iter_xO_value. f_equal. f_equal. lia.
Qed.

Lemma binary_round_below (k : Z) (s : bool) (m : positive) (e : Z) :
  -126 <= k <= 127 -> e <= k - 23 -> Zpos m <= 2 ^ (k - e) ->
  below k (binary_round prec32 emax32 s m e).
Proof.
  intros Hk He Hm. unfold binary_round.
  pose proof (shl_align_spec m e (fexp prec32 emax32 (Zpos (digits2_pos m) + e))) as H.
  destruct (shl_align m e _) as [mz ez]. destruct H as [Hez Hmz].
  apply binary_round_aux_below; try lia.
  rewrite Hmz. replace (k - ez) with ((k - e) + (e - ez)) by lia.
  rewrite Z.pow_add_r by lia.
  apply Z.mul_le_mono_nonneg_r; [apply Z.pow_nonneg; lia | exact Hm].
Qed.

Lemma binary_normalize_below (k : Z) (z e : Z) (s : bool) :
  -126 <= k <= 127 -> e <= k - 23 -> Z.abs z <= 2 ^ (k - e) ->
  below k (binary_normalize prec32 emax32 z e s).
Proof.
  intros Hk He Hz. destruct z as [|p|p]; cbn [binary_normalize].
  - exact I.
  - apply binary_round_below; auto.
  - apply binary_round_below; auto.
Qed.

Lemma aligned_mantissa (k : Z) (m : positive) (e ez : Z) :
  ez <= e -> Zpos m <= 2 ^ (k - e) ->
  0 < Zpos (fst (shl_align m e ez)) <= 2 ^ (k - ez).
Proof.
  intros L Hm. pose proof (pow2_exp_nonneg _ _ Hm) as Hn.
  pose proof (shl_align_spec m e ez) as H.
  destruct (shl_align m e ez) as [mz ez']. destruct H as [Hez Hmz]. cbn [fst].
  split; [lia|]. rewrite Hmz. replace ez' with ez by lia.
  replace (k - ez) with ((k - e) + (e - ez)) by lia.
  rewrite Z.pow_add_r by lia.
  apply Z.mul_le_mono_nonneg_r; [apply Z.pow_nonneg; lia | exact Hm].
Qed.

Lemma f32_sub_below (k : Z) (x y : f32) :
  -127 <= k <= 126 -> below k x -> below k y -> below (k + 1) (f32_sub x y).
Proof.
  intros Hk Hx Hy.
  destruct x as [sx|sx| |sx mx ex], y as [sy|sy| |sy my ey]; try contradiction.
  - destruct sx, sy; exact I.
  - apply (below_mono k); [lia | exact Hy].
  - apply (below_mono k); [lia | exact Hx].
  - destruct Hx as [Hex Hmx], Hy as [Hey Hmy].
    unfold f32_sub. cbn [SFsub].
    pose proof (aligned_mantissa k mx ex (Z.min ex ey) (Z.le_min_l _ _) Hmx) as Ax.
    pose proof (aligned_mantissa k my ey (Z.min ex ey) (Z.le_min_r _ _) Hmy) as Ay.
    assert (Hn : 0 <= k - Z.min ex ey) by (clear - Hex Hey; lia).
    apply binary_normalize_below;
      [clear - Hk; lia | clear - Hex Hey; lia |].
    replace (k + 1 - Z.min ex ey) with (Z.succ (k - Z.min ex ey)) by (clear; lia).
    rewrite Z.pow_succ_r by exact Hn.
    revert Ax Ay. generalize (2 ^ (k - Z.min ex ey)).
    generalize (Zpos (fst (shl_align mx ex (Z.min ex ey)))).
    generalize (Zpos (fst (shl_align my ey (Z.min ex ey)))).
    clear. intros a b P Ax Ay.
    destruct sx, sy; cbn [cond_Zopp]; lia.
Qed.

Lemma f32_mul_below (j k : Z) (x y : f32) :
  -126 <= j + k <= 127 -> below j x -> below k y -> below (j + k) (f32_mul x y).
Proof.
  intros Hk Hx Hy.
  destruct x as [sx|sx| |sx mx ex], y as [sy|sy| |sy my ey]; try contradiction;
    try exact I.
  destruct Hx as [Hex Hmx], Hy as [Hey Hmy].
  pose proof (pow2_exp_nonneg _ _ Hmx). pose proof (pow2_exp_nonneg _ _ Hmy).
  unfold f32_mul. cbn [SFmul].
  apply binary_round_aux_below; [exact Hk | clear; lia | clear - Hex Hey; lia |].
  rewrite Pos2Z.inj_mul.
  replace (j + k - (ex + ey)) with ((j - ex) + (k - ey)) by (clear; lia).
  rewrite Z.pow_add_r by assumption.
  apply Z.mul_le_mono_nonneg; [clear; lia | exact Hmx | clear; lia | exact Hmy].
Qed.

Lemma f32_add_not_nan (x y : f32) :
  is_nan x = false -> is_finite y = true -> is_nan (f32_add x y) = false.
Proof.
  destruct x as [sx|sx| |sx mx ex], y as [sy|sy| |sy my ey]; intros Hx Hy;
    try discriminate; unfold f32_add; cbn [SFadd];
    try (destruct sx, sy; reflexivity); try reflexivity.
  apply binary_normalize_not_nan.
Qed.

Lemma f32_add_not_nan_l (x y : f32) :
  is_finite x = true -> is_nan y = false -> is_nan (f32_add x y) = false.
Proof.
  destruct x as [sx|sx| |sx mx ex], y as [sy|sy| |sy my ey]; intros Hx Hy;
    try discriminate; unfold f32_add; cbn [SFadd];
    try (destruct sx, sy; reflexivity); try reflexivity.
  apply binary_normalize_not_nan.
Qed.

Lemma f32_mul_not_nan (s : bool) (m : positive) (e : Z) (y : f32) :
  is_nan y = false -> is_nan (f32_mul (S754_finite s m e) y) = false.
Proof.
  destruct y as [sy|sy| |sy my ey]; intros Hy; try discriminate;
    unfold f32_mul; cbn [SFmul]; try reflexivity.
  apply binary_round_aux_not_nan. lia.
Qed.

(** ** The scaling of the frame encoder *)

Lemma new_location_exact (nb r : Z) :
  new_location nb r <> loc_Exact -> r <> 0.
Proof.
  intros H E. apply H. subst r.
  unfold new_location, new_location_even, new_location_odd.
  destruct (Z.even nb); reflexivity.
Qed.

Lemma f32_of_Z_0 : f32_of_Z 0 = S754_zero false.
Proof. reflexivity. Qed.

Lemma f32_of_Z_100 : f32_of_Z 100 = S754_finite false 13107200 (-17).
Proof. vm_compute. reflexivity. Qed.

Lemma f32_of_Z_255 : f32_of_Z 255 = S754_finite false 16711680 (-16).
Proof. vm_compute. reflexivity. Qed.

(** A binary32 value that compares at most 100 has its mantissa bounded
    accordingly. *)
Lemma le_100_inv (m : positive) (e : Z) :
  bounded prec32 emax32 m e = true ->
  f_le (S754_finite false m e) (f32_of_Z 100) = true ->
  e <= -17 /\ Zpos m <= 13107200 * 2 ^ (-17 - e).
Proof.
  intros Hb. apply bounded_inv in Hb. unfold prec32 in Hb.
  destruct Hb as (Hd & _).
  pose proof (digits2_pos_bounds m) as Bm.
  assert (Hm : Zpos m < 2 ^ 24).
  { apply Z.lt_le_trans with (2 ^ Zpos (digits2_pos m)); [lia|].
    apply Z.pow_le_mono_r; lia. }
  rewrite f32_of_Z_100.
  unfold f_le, SFleb. cbn [SFcompare].
  destruct (Z.compare_spec e (-17)) as [E|L|G]; try discriminate.
  - subst e. rewrite compare_cont_Eq, Pos2Z.inj_compare.
    destruct (Z.compare_spec (Zpos m) 13107200) as [E|L|G]; try discriminate;
      intros _; rewrite Z.sub_diag, Z.pow_0_r; lia.
  - intros _. split; [lia|].
    assert (2 ^ 1 <= 2 ^ (-17 - e)) by (apply Z.pow_le_mono_r; lia).
    change (2 ^ 24) with 16777216 in Hm. change (2 ^ 1) with 2 in H. lia.
Qed.

Lemma div_100_le_1 (m : positive) (e : Z) :
  bounded prec32 emax32 m e = true ->
  f_le (S754_finite false m e) (f32_of_Z 100) = true ->
  let q := f32_div (S754_finite false m e) (f32_of_Z 100) in
  q = S754_zero false \/
  exists mq eq, q = S754_finite false mq eq /\ eq <= -23 /\ Zpos mq <= 2 ^ (- eq).
Proof.
  intros Hb Hle. destruct (le_100_inv m e Hb Hle) as [He Hm].
  apply bounded_inv in Hb. unfold prec32, emax32 in Hb. destruct Hb as (Hd & Hlo & _).
  rewrite f32_of_Z_100.
  unfold f32_div. cbn [SFdiv xorb].
  unfold SFdiv_core_binary. cbn [Zdigits2].
  change (Zpos (digits2_pos 13107200)) with 24.
  set (d := Zpos (digits2_pos m)) in *.
  set (e' := Z.min (fexp prec32 emax32 (d + e - (24 + -17))) (e - -17)).
  assert (He' : e' <= -24 /\ e' <= e + 17).
  { unfold e', fexp, emin, prec32, emax32. lia. }
  set (m' := match e - -17 - e' with
             | 0 => Zpos m | Zpos _ => Z.shiftl (Zpos m) (e - -17 - e') | Zneg _ => 0 end).
  assert (Hm' : m' = Zpos m * 2 ^ (e + 17 - e')).
  { unfold m'. replace (e - -17 - e') with (e + 17 - e') by lia.
    destruct (e + 17 - e') as [|p|p] eqn:Hs;
      [ rewrite Z.pow_0_r; lia | rewrite Z.shiftl_mul_pow2 by lia; reflexivity | lia ]. }
  clearbody m'.
  assert (Hpow : 0 < 2 ^ (e + 17 - e')) by (apply Z.pow_pos_nonneg; lia).
  assert (Hbound : m' <= 13107200 * 2 ^ (- e')).
  { rewrite Hm'. replace (- e') with ((-17 - e) + (e + 17 - e')) by lia.
    rewrite Z.pow_add_r by lia. rewrite Z.mul_assoc.
    apply Z.mul_le_mono_nonneg_r; lia. }
  pose proof (Z_div_mod m' 13107200 eq_refl) as Hdm.
  destruct (Z.div_eucl m' 13107200) as [q r]. destruct Hdm as [Hq Hr].
  assert (H2 : 0 < 2 ^ (- e')) by (apply Z.pow_pos_nonneg; lia).
  assert (Hq0 : 0 <= q) by nia.
  assert (E1 : Zpos 8388608 * 2 ^ (-23 - e') = 2 ^ (- e')).
  { change (Zpos 8388608) with (2 ^ 23). rewrite <- Z.pow_add_r by lia. f_equal. lia. }
  destruct (binary_round_aux_le prec32 emax32 eq_refl false q e' (new_location 13107200 r)
              8388608 (-23)) as [Hz|(mq & eq & Hf & Heq & Hmq)].
  - exact Hq0.
  - lia.
  - reflexivity.
  - rewrite E1. nia.
  - intros Hl. apply new_location_exact in Hl. rewrite E1. nia.
  - left. exact Hz.
  - right. exists mq, eq. repeat split; [exact Hf | exact Heq |].
    replace (- eq) with (23 + (-23 - eq)) by lia. rewrite Z.pow_add_r by lia.
    change (2 ^ 23) with 8388608. exact Hmq.
Qed.

Lemma mul_255_le_255 (mq : positive) (eq : Z) :
  eq <= -23 -> Zpos mq <= 2 ^ (- eq) ->
  let r := f32_mul (S754_finite false mq eq) (f32_of_Z 255) in
  r = S754_zero false \/
  exists mr er, r = S754_finite false mr er /\ er <= -16 /\
                Zpos mr <= 16711680 * 2 ^ (-16 - er).
Proof.
  intros He Hm.
  rewrite f32_of_Z_255.
  unfold f32_mul. cbn [SFmul xorb].
  assert (H2 : 0 < 2 ^ (- eq)) by (apply Z.pow_pos_nonneg; lia).
  destruct (binary_round_aux_le prec32 emax32 eq_refl false (Zpos (mq * 16711680)) (eq + -16)
              loc_Exact 16711680 (-16)) as [Hz|(mr & er & Hf & Her & Hmr)].
  - lia.
  - lia.
  - reflexivity.
  - replace (-16 - (eq + -16)) with (- eq) by lia. rewrite Pos2Z.inj_mul. nia.
  - intros H; contradiction.
  - left; exact Hz.
  - right. exists mr, er. auto.
Qed.

Lemma uchar_of_bounded (mr : positive) (er : Z) :
  er <= -16 -> Zpos mr <= 16711680 * 2 ^ (-16 - er) ->
  exists b, uchar_of_f32 (S754_finite false mr er) = Some b /\ 0 <= b <= 255.
Proof.
  intros He Hm. unfold uchar_of_f32, f_trunc. cbn [cond_Zopp].
  replace (0 <=? er) with false by (symmetry; apply Z.leb_gt; lia).
  rewrite Z.shiftr_div_pow2 by lia.
  assert (Hp : 0 < 2 ^ (- er)) by (apply Z.pow_pos_nonneg; lia).
  assert (Hz : 0 <= Zpos mr / 2 ^ (- er) <= 255).
  { split; [apply Z.div_pos; lia|].
    apply Z.div_le_upper_bound; [lia|].
    replace (- er) with (16 + (-16 - er)) by lia. rewrite Z.pow_add_r by lia.
    change (2 ^ 16) with 65536. lia. }
  exists (Zpos mr / 2 ^ (- er)).
  replace (0 <=? Zpos mr / 2 ^ (- er)) with true by (symmetry; apply Z.leb_le; lia).
  replace (Zpos mr / 2 ^ (- er) <=? 255) with true by (symmetry; apply Z.leb_le; lia).
  split; [reflexivity | lia].
Qed.

(** The scaling [speed / 100 * 255] of a speed in [0, 100] always fits a
    byte. *)
Lemma scale_fits_byte (x : f32) :
  valid_binary prec32 emax32 x = true ->
  f_le (f32_of_Z 0) x = true -> f_le x (f32_of_Z 100) = true ->
  exists b, uchar_of_f32 (f32_mul (f32_div x (f32_of_Z 100)) (f32_of_Z 255)) = Some b
            /\ 0 <= b <= 255.
Proof.
  intros Hv H0 H100.
  destruct x as [s|s| |s m e].
  - exists 0. destruct s; split; try reflexivity; lia.
  - destruct s; discriminate.
  - discriminate.
  - destruct s; [discriminate|]. cbn [valid_binary] in Hv.
    destruct (div_100_le_1 m e Hv H100) as [Hz|(mq & eq & Hq & Heq & Hmq)].
    + rewrite Hz. exists 0. split; [reflexivity | lia].
    + rewrite Hq.
      destruct (mul_255_le_255 mq eq Heq Hmq) as [Hz|(mr & er & Hr & Her & Hmr)].
      * rewrite Hz. exists 0. split; [reflexivity | lia].
      * rewrite Hr. apply uchar_of_bounded; assumption.
Qed.

Lemma uchar_of_f32_trunc (x : f32) (b : Z) :
  uchar_of_f32 x = Some b -> f_trunc x = Some b /\ 0 <= b <= 255.
Proof.
  unfold uchar_of_f32. destruct (f_trunc x) as [z|]; [|discriminate].
  destruct ((0 <=? z) && (z <=? 255)) eqn:E; [|discriminate].
  intros [= <-]. apply andb_true_iff in E. rewrite !Z.leb_le in E. split; [reflexivity | lia].
Qed.

(** * Lemmas on the program *)

(** ** The clamp *)

Lemma f32_dec_0 : f32_dec 0 1 = f32_of_Z 0.
Proof. reflexivity. Qed.

Lemma f32_dec_100 : f32_dec 1000 1 = f32_of_Z 100.
Proof. vm_compute. reflexivity. Qed.

(** The two [if]s of the loop, one after the other, are the clamp. *)
Lemma sequential_clamp (x : f32) :
  (let x1 := if f_lt x (f32_dec 0 1) then f32_dec 0 1 else x in
   if f_gt x1 (f32_dec 1000 1) then f32_dec 1000 1 else x1) = clamp_0_100 x.
Proof.
  unfold clamp_0_100. rewrite f32_dec_0, f32_dec_100. cbv zeta.
  destruct (f_lt x (f32_of_Z 0)); [|reflexivity].
  rewrite f32_of_Z_0, f32_of_Z_100. reflexivity.
Qed.

Lemma clamp_below (x : f32) :
  f_lt x (f32_of_Z 0) = true -> clamp_0_100 x = f32_of_Z 0.
Proof. intros H. unfold clamp_0_100. rewrite H. reflexivity. Qed.

Lemma clamp_above (x : f32) :
  f_gt x (f32_of_Z 100) = true -> clamp_0_100 x = f32_of_Z 100.
Proof.
  intros H. unfold clamp_0_100. rewrite H.
  destruct (f_lt x (f32_of_Z 0)) eqn:L; [|reflexivity].
  exfalso. unfold f_gt, f_lt in *.
  pose proof (SFleb_ltb_trans _ _ _ (SFltb_leb _ _ H) L) as C.
  rewrite f32_of_Z_100, f32_of_Z_0 in C. discriminate C.
Qed.

Lemma clamp_inside (x : f32) :
  f_lt x (f32_of_Z 0) = false -> f_gt x (f32_of_Z 100) = false -> clamp_0_100 x = x.
Proof. intros H1 H2. unfold clamp_0_100. rewrite H1, H2. reflexivity. Qed.

Lemma clamp_in_range (x : f32) :
  is_nan x = false -> in_range (clamp_0_100 x) = true.
Proof.
  intros Hn. unfold clamp_0_100.
  destruct (f_lt x (f32_of_Z 0)) eqn:L; [rewrite f32_of_Z_0; reflexivity|].
  destruct (f_gt x (f32_of_Z 100)) eqn:G; [rewrite f32_of_Z_100; reflexivity|].
  unfold in_range. apply andb_true_iff. split.
  - apply f_lt_false_le; [exact Hn | reflexivity | exact L].
  - apply f_lt_false_le; [rewrite f32_of_Z_100; reflexivity | exact Hn | exact G].
Qed.

Lemma in_range_0 : in_range (f32_of_Z 0) = true.
Proof. reflexivity. Qed.

(** ** The regulator *)

Lemma last_cons {A : Type} (x : A) (l : list A) (d : A) : last (x :: l) d = last l x.
Proof.
  revert x d. induction l as [|y l IH]; intros x d; [reflexivity|].
  change (last (x :: y :: l) d) with (last (y :: l) d).
  rewrite (IH y d), (IH y x). reflexivity.
Qed.

(** The object after a sequence of calls: the gains as constructed, the last
    error, and the errors added up in the order of the calls. *)
Lemma calls_state (args : list (f32 * f32)) (c : PIDController) :
  snd (calls c args) =
  mkPID (Kp c) (Ki c) (Kd c)
        (last (errors args) (prevError c))
        (fold_left f32_add (errors args) (integral c)).
Proof.
  revert c. induction args as [|[s m] rest IH]; intros c.
  - destruct c; reflexivity.
  - cbn [calls]. unfold compute at 1.
    destruct (calls _ rest) as [outs c2] eqn:E. cbn [snd].
    pose proof (IH (mkPID (Kp c) (Ki c) (Kd c) (f32_sub s m)
                          (f32_add (integral c) (f32_sub s m)))) as H.
    rewrite E in H. cbn [snd Kp Ki Kd prevError integral] in H. rewrite H.
    cbn [errors map fold_left]. rewrite last_cons. reflexivity.
Qed.

Lemma compute_sound (c : PIDController) (setpoint measured : f32) :
  sound_pid c -> below 125 setpoint -> below 125 measured ->
  is_nan (fst (compute c setpoint measured)) = false /\
  sound_pid (snd (compute c setpoint measured)).
Proof.
  intros (Hp & (s & m & e & Hi) & Hd & Hprev & Hint) Hs Hm.
  unfold compute. cbn [fst snd].
  assert (He : below 126 (f32_sub setpoint measured)).
  { apply (f32_sub_below 125); [lia | exact Hs | exact Hm]. }
  assert (Hder : below 127 (f32_sub (f32_sub setpoint measured) (prevError c))).
  { apply (f32_sub_below 126); [lia | exact He | exact Hprev]. }
  assert (Hacc : is_nan (f32_add (integral c) (f32_sub setpoint measured)) = false).
  { apply f32_add_not_nan; [exact Hint | exact (below_finite _ _ He)]. }
  split.
  - apply f32_add_not_nan.
    + apply f32_add_not_nan_l.
      * apply (below_finite (0 + 126)). apply f32_mul_below; [lia | exact Hp | exact He].
      * rewrite Hi. apply f32_mul_not_nan. exact Hacc.
    + apply (below_finite (0 + 127)). apply f32_mul_below; [lia | exact Hd | exact Hder].
  - unfold sound_pid. cbn [Kp Ki Kd prevError integral]. eauto 10.
Qed.

(** ** The transfer curve *)

(** The chain of [if]s is the scan of the table, highest threshold first. *)
Lemma interpolateTemperature_lookup (voltage : f32) :
  interpolateTemperature voltage = lookup breakpoints fallback (f64_of_f32 voltage).
Proof.
  unfold interpolateTemperature, breakpoints, fallback, lookup. cbv zeta.
  repeat (destruct (f_ge (f64_of_f32 voltage) _); [vm_compute; reflexivity|]).
  vm_compute. reflexivity.
Qed.

Lemma lookup_in (table : list (f64 * f32)) (default : f32) (v : f64) :
  In (lookup table default v) (map snd table ++ [default]).
Proof.
  induction table as [|[b t] rest IH]; cbn [lookup map app snd].
  - left. reflexivity.
  - destruct (f_ge v b); [left; reflexivity | right; exact IH].
Qed.

Lemma ascending_head (x : f32) (rest : list f32) (y : f32) :
  ascending (x :: rest) = true -> In y (x :: rest) -> f_le x y = true.
Proof.
  cbn [ascending]. intros H Hy. apply andb_true_iff in H. destruct H as [H _].
  rewrite forallb_forall in H. exact (H y Hy).
Qed.

Lemma ascending_tail (x : f32) (rest : list f32) :
  ascending (x :: rest) = true -> ascending rest = true.
Proof. cbn [ascending]. intros H. apply andb_true_iff in H. exact (proj2 H). Qed.

(** A higher voltage meets every threshold a lower one meets, so it stops
    the scan no later. *)
Lemma lookup_antitone (table : list (f64 * f32)) (default : f32) (w1 w2 : f64) :
  SFltb w1 w2 = true ->
  ascending (map snd table ++ [default]) = true ->
  f_le (lookup table default w2) (lookup table default w1) = true.
Proof.
  intros Hlt. induction table as [|[b t] rest IH]; cbn [lookup map app snd]; intros Ha.
  - apply (ascending_head default [] default Ha). left. reflexivity.
  - destruct (f_ge w2 b) eqn:G2.
    + apply (ascending_head _ _ _ Ha).
      destruct (f_ge w1 b); [left; reflexivity | right; apply lookup_in].
    + destruct (f_ge w1 b) eqn:G1.
      * exfalso. unfold f_ge in G1, G2.
        rewrite (SFleb_ltb_trans _ _ _ G1 Hlt) in G2. discriminate G2.
      * apply IH. exact (ascending_tail _ _ Ha).
Qed.

(** A test [voltage >= c] against a [double] constant [c] decides
    [r <= voltage] for the decimal number [r] the constant was written as:
    [c] and [r] lie between the same two neighbouring binary32 values, the
    upper one included. *)
Lemma threshold_exact (c : f64) (r : Q) (M : positive) (E : Z) (v : f32) :
  bounded prec32 emax32 M E = true -> bounded prec32 emax32 (M + 1) E = true ->
  SFltb (f64_of_f32 (S754_finite false M E)) c = true ->
  SFleb c (f64_of_f32 (S754_finite false (M + 1) E)) = true ->
  (F2Q (S754_finite false M E) < r)%Q ->
  (r <= F2Q (S754_finite false (M + 1) E))%Q ->
  is_binary32 v -> is_finite v = true ->
  f_ge (f64_of_f32 v) c = Qle_bool r (F2Q v).
Proof.
  intros Blo Bhi Hlo Hhi Qlo Qhi Vv Fv. unfold f_ge.
  set (lo := S754_finite false M E) in *. set (hi := S754_finite false (M + 1) E) in *.
  assert (Step : SFltb lo v = true -> SFleb hi v = true) by apply next_float.
  destruct (Qle_bool r (F2Q v)) eqn:Q.
  - apply Qle_bool_iff in Q.
    assert (L : SFltb lo v = true).
    { apply SFltb_F2Q; auto. apply Qlt_le_trans with r; assumption. }
    apply Step in L.
    apply SFleb_trans with (f64_of_f32 hi); [exact Hhi|].
    unfold SFleb. rewrite (f64_of_f32_compare hi v Bhi Vv). exact L.
  - destruct (SFleb c (f64_of_f32 v)) eqn:G; [|reflexivity]. exfalso.
    assert (L : SFltb lo v = true).
    { pose proof (SFltb_leb_trans _ _ _ Hlo G) as L.
      unfold SFltb in L. rewrite (f64_of_f32_compare lo v Blo Vv) in L. exact L. }
    apply Step in L. apply SFleb_F2Q in L; auto.
    assert (Q' : Qle_bool r (F2Q v) = true).
    { apply Qle_bool_iff. apply Qle_trans with (F2Q hi); assumption. }
    congruence.
Qed.

Lemma lookup_exact (rows : list (f64 * Q * (positive * Z) * f32)) (default v : f32) :
  forallb neighbours_ok rows = true ->
  is_binary32 v -> is_finite v = true ->
  lookup (map (fun '(c, _, _, t) => (c, t)) rows) default (f64_of_f32 v) =
  lookupQ (map (fun '(_, r, _, t) => (r, t)) rows) default (F2Q v).
Proof.
  intros Hok Vv Fv. induction rows as [|[[[c r] [M E]] t] rest IH]; [reflexivity|].
  cbn [forallb] in Hok. apply andb_true_iff in Hok. destruct Hok as [Hrow Hrest].
  unfold neighbours_ok in Hrow. cbv zeta in Hrow.
  apply andb_true_iff in Hrow. destruct Hrow as [Hrow Qhi].
  apply andb_true_iff in Hrow. destruct Hrow as [Hrow Qlo].
  apply andb_true_iff in Hrow. destruct Hrow as [Hrow Hhi].
  apply andb_true_iff in Hrow. destruct Hrow as [Hrow Hlo].
  apply andb_true_iff in Hrow. destruct Hrow as [Blo Bhi].
  cbn [map lookup lookupQ].
  rewrite (threshold_exact c r M E v Blo Bhi Hlo Hhi); try assumption.
  - rewrite (IH Hrest). reflexivity.
  - apply Qnot_le_lt. intros C. apply Qle_bool_iff in C.
    rewrite C in Qlo. discriminate Qlo.
  - apply Qle_bool_iff. exact Qhi.
Qed.

(** On every finite binary32 voltage the function is the step table of the
    specification, read over the real numbers. *)
Lemma interpolateTemperature_exact (v : f32) :
  is_binary32 v -> is_finite v = true ->
  interpolateTemperature v = lookupQ decimal_breakpoints fallback (F2Q v).
Proof.
  intros Vv Fv. rewrite interpolateTemperature_lookup.
  exact (lookup_exact calibration fallback v ltac:(vm_compute; reflexivity) Vv Fv).
Qed.

Lemma curve_values_below :
  Forall (below 125) (map snd breakpoints ++ [fallback]).
Proof.
  repeat constructor; vm_compute; discriminate.
Qed.

Lemma interpolateTemperature_below (voltage : f32) :
  below 125 (interpolateTemperature voltage).
Proof.
  rewrite interpolateTemperature_lookup.
  exact (proj1 (Forall_forall _ _) curve_values_below _ (lookup_in _ _ _)).
Qed.

(** ** The loop *)

Lemma regulate_low_coolant (cfg : Config) (v : Vars) :
  levelSwitch v = false ->
  regulate cfg v =
  ([Report LowCoolant; ControlPump (f32_of_Z 0); ControlFan (f32_of_Z 0);
    Report EnteringShutdown],
   set_currentState v SAFETY_SHUTDOWN).
Proof. intros H. unfold regulate. rewrite H. reflexivity. Qed.

Lemma regulate_level_ok (cfg : Config) (v : Vars) :
  levelSwitch v = true ->
  regulate cfg v =
  let p := pump_command cfg v in
  let f := fan_command cfg v in
  if f_gt (measuredTemperature v) (safetyThreshold cfg) then
    ([ControlPump p; ControlFan f; Report Overtemperature;
      ControlPump (f32_of_Z 0); ControlFan (f32_of_Z 0); Report EnteringShutdown],
     set_currentState (regulated cfg v) SAFETY_SHUTDOWN)
  else ([ControlPump p; ControlFan f; Status (measuredTemperature v) p f],
        regulated cfg v).
Proof.
  intros H. unfold regulate, regulated, pump_command, fan_command. rewrite H.
  cbn [negb].
  destruct (compute (pumpPID v) (tempSetpoint cfg) (measuredTemperature v)) as [po pp].
  destruct (compute (fanPID v) (tempSetpoint cfg) (measuredTemperature v)) as [fo fp].
  cbn [fst snd].
  pose proof (sequential_clamp po) as Hp. pose proof (sequential_clamp fo) as Hf.
  cbv zeta in Hp, Hf. rewrite Hp, Hf. cbn [set_regulation measuredTemperature].
  destruct (f_gt (measuredTemperature v) (safetyThreshold cfg)); reflexivity.
Qed.

Lemma tick_ON_unfold (cfg : Config) (v : Vars) (t : f32) :
  tick_ON cfg v t =
  let w := measuring v t in
  if levelSwitch v then
    let p := pump_command cfg w in
    let f := fan_command cfg w in
    if f_gt t (safetyThreshold cfg) then
      ([ControlPump p; ControlFan f; Report Overtemperature;
        ControlPump (f32_of_Z 0); ControlFan (f32_of_Z 0); Report EnteringShutdown;
        CanControl p f],
       set_currentState (regulated cfg w) SAFETY_SHUTDOWN)
    else ([ControlPump p; ControlFan f; Status t p f; CanControl p f],
          regulated cfg w)
  else
    ([Report LowCoolant; ControlPump (f32_of_Z 0); ControlFan (f32_of_Z 0);
      Report EnteringShutdown; CanControl (pumpSpeed v) (fanSpeed v)],
     set_currentState w SAFETY_SHUTDOWN).
Proof.
  unfold tick_ON. fold (measuring v t). cbv zeta.
  destruct (levelSwitch v) eqn:L.
  - rewrite regulate_level_ok by exact L. cbv zeta.
    change (measuredTemperature (measuring v t)) with t.
    destruct (f_gt t (safetyThreshold cfg)); reflexivity.
  - rewrite regulate_low_coolant by exact L. reflexivity.
Qed.

Lemma loop_body_ON (cfg : Config) (v : Vars) (rand : Z) :
  currentState v = ON ->
  loop_body cfg v rand =
  let voltage := simulated_voltage rand in
  let '(ev, v') :=
    tick_ON cfg (set_measurement v voltage (measuredTemperature v))
            (interpolateTemperature voltage) in
  (ev, Some v').
Proof.
  intros H. unfold loop_body, case_ON, tick_ON. rewrite H. cbv zeta.
  cbn [set_measurement sensorVoltage pumpPID fanPID ignitionSwitch levelSwitch
       measuredTemperature pumpSpeed fanSpeed currentState].
  destruct (regulate cfg _) as [ev v']. reflexivity.
Qed.

Lemma loop_body_shutdown (cfg : Config) (v : Vars) (rand : Z) :
  currentState v = SAFETY_SHUTDOWN ->
  loop_body cfg v rand = ([Report InShutdownMode], None).
Proof. intros H. unfold loop_body. rewrite H. reflexivity. Qed.

Lemma frames_app (a b : list event) : frames (a ++ b) = (frames a + frames b)%nat.
Proof. unfold frames. rewrite filter_app, length_app. reflexivity. Qed.

Lemma regulate_no_frame (cfg : Config) (v : Vars) :
  frames (fst (regulate cfg v)) = 0%nat.
Proof.
  destruct (levelSwitch v) eqn:L.
  - rewrite regulate_level_ok by exact L. cbv zeta.
    destruct (f_gt _ _); reflexivity.
  - rewrite regulate_low_coolant by exact L. reflexivity.
Qed.

Lemma regulate_sound (cfg : Config) (v : Vars) :
  sound_vars v -> below 125 (tempSetpoint cfg) -> below 125 (measuredTemperature v) ->
  forallb event_in_range (fst (regulate cfg v)) = true /\
  sound_vars (snd (regulate cfg v)).
Proof.
  intros (Hp & Hf & Rp & Rf) Hs Ht.
  destruct (levelSwitch v) eqn:L.
  - rewrite regulate_level_ok by exact L. cbv zeta.
    destruct (compute_sound (pumpPID v) _ _ Hp Hs Ht) as [Np Sp].
    destruct (compute_sound (fanPID v) _ _ Hf Hs Ht) as [Nf Sf].
    assert (Cp : in_range (pump_command cfg v) = true) by (apply clamp_in_range; exact Np).
    assert (Cf : in_range (fan_command cfg v) = true) by (apply clamp_in_range; exact Nf).
    assert (Sv : sound_vars (regulated cfg v))
      by (split; [exact Sp | split; [exact Sf | split; [exact Cp | exact Cf]]]).
    destruct (f_gt (measuredTemperature v) (safetyThreshold cfg)); cbn [fst snd].
    + split; [|exact Sv].
      cbn [forallb event_in_range]. rewrite Cp, Cf, in_range_0. reflexivity.
    + split; [|exact Sv].
      cbn [forallb event_in_range]. rewrite Cp, Cf. reflexivity.
  - rewrite regulate_low_coolant by exact L. cbn [fst snd]. split.
    + cbn [forallb event_in_range]. rewrite in_range_0. reflexivity.
    + split; [exact Hp | split; [exact Hf | split; [exact Rp | exact Rf]]].
Qed.

Lemma loop_body_sound (cfg : Config) (v : Vars) (r : Z) :
  sound_vars v -> below 125 (tempSetpoint cfg) ->
  forallb event_in_range (fst (loop_body cfg v r)) = true /\
  (forall v', snd (loop_body cfg v r) = Some v' -> sound_vars v').
Proof.
  intros Sv Hs. unfold loop_body. destruct (currentState v).
  - assert (H : sound_vars (snd (case_OFF v)) /\
                forallb event_in_range (fst (case_OFF v)) = true).
    { unfold case_OFF. destruct (ignitionSwitch _); split; try reflexivity; exact Sv. }
    destruct (case_OFF v) as [ev v1]. cbn [fst snd] in *. destruct H as [S1 E1].
    split.
    + rewrite forallb_app, E1. cbn [forallb event_in_range].
      destruct S1 as (_ & _ & Rp & Rf). rewrite Rp, Rf. reflexivity.
    + intros v' [= <-]. exact S1.
  - unfold case_ON.
    pose proof (regulate_sound cfg
      (set_measurement v (simulated_voltage r) (interpolateTemperature (simulated_voltage r)))
      Sv Hs (interpolateTemperature_below _)) as H.
    destruct (regulate cfg _) as [ev v1]. cbn [fst snd] in *. destruct H as [E1 S1].
    split.
    + rewrite forallb_app, E1. cbn [forallb event_in_range].
      destruct S1 as (_ & _ & Rp & Rf). rewrite Rp, Rf. reflexivity.
    + intros v' [= <-]. exact S1.
  - split; [reflexivity | discriminate].
Qed.

Lemma run_sound (cfg : Config) (rands : list Z) (v : Vars) :
  sound_vars v -> below 125 (tempSetpoint cfg) ->
  forallb event_in_range (fst (run cfg v rands)) = true.
Proof.
  intros Sv Hs. revert v Sv. induction rands as [|r rest IH]; intros v Sv.
  - reflexivity.
  - cbn [run]. destruct (loop_body_sound cfg v r Sv Hs) as [E1 S1].
    destruct (loop_body cfg v r) as [ev [v'|]]; cbn [fst snd] in *.
    + specialize (IH v' (S1 v' eq_refl)).
      destruct (run cfg v' rest) as [ev' o]. cbn [fst] in *.
      rewrite forallb_app, E1, IH. reflexivity.
    + exact E1.
Qed.

Lemma initial_vars_sound : sound_vars initial_vars.
Proof.
  repeat split; try (vm_compute; discriminate); try reflexivity;
    try (do 3 eexists; vm_compute; reflexivity).
Qed.

(** When [std::stof] throws on an argument the [catch] block reports the
    error and [main] returns 1 before the loop. *)
Lemma main_rejects_thrown (argv : list string) (rands : list Z) :
  (1 < List.length argv)%nat ->
  stof (nth 1 argv EmptyString) = None \/
  ((2 < List.length argv)%nat /\ stof (nth 2 argv EmptyString) = None) ->
  main argv rands = ([Report ParseError], Returned 1).
Proof.
  intros H1 H. unfold main, parse_arguments.
  apply Nat.ltb_lt in H1. rewrite H1.
  destruct H as [H|[H2 H]].
  - rewrite H. reflexivity.
  - apply Nat.ltb_lt in H2. rewrite H2, H.
    destruct (stof (nth 1 argv EmptyString)); reflexivity.
Qed.

(** ** NaN through the regulator and the clamp *)

Lemma f32_mul_nan_r (x : f32) : f32_mul x S754_nan = S754_nan.
Proof. destruct x; reflexivity. Qed.

Lemma f32_add_nan_r (x : f32) : f32_add x S754_nan = S754_nan.
Proof. destruct x; reflexivity. Qed.

Lemma f32_sub_nan_r (x : f32) : f32_sub x S754_nan = S754_nan.
Proof. destruct x; reflexivity. Qed.

Lemma is_nan_eq (x : spec_float) : is_nan x = true -> x = S754_nan.
Proof. destruct x; try discriminate; reflexivity. Qed.

(** Once the accumulator is NaN, or on an error that is NaN, [compute]
    returns NaN and leaves NaN in the accumulator. *)
Lemma compute_nan (c : PIDController) (setpoint measured : f32) :
  is_nan (integral c) = true \/ is_nan (f32_sub setpoint measured) = true ->
  fst (compute c setpoint measured) = S754_nan /\
  integral (snd (compute c setpoint measured)) = S754_nan.
Proof.
  intros H. unfold compute. cbn [fst snd integral].
  assert (E : f32_add (integral c) (f32_sub setpoint measured) = S754_nan).
  { destruct H as [H|H]; apply is_nan_eq in H; rewrite H;
      [reflexivity | apply f32_add_nan_r]. }
  rewrite E, f32_mul_nan_r, f32_add_nan_r. split; reflexivity.
Qed.

Lemma clamp_nan : clamp_0_100 S754_nan = S754_nan.
Proof. reflexivity. Qed.

Lemma commands_nan (cfg : Config) (v : Vars) :
  is_nan (tempSetpoint cfg) = true ->
  pump_command cfg v = S754_nan /\ fan_command cfg v = S754_nan.
Proof.
  intros N. apply is_nan_eq in N. unfold pump_command, fan_command.
  destruct (compute_nan (pumpPID v) (tempSetpoint cfg) (measuredTemperature v)) as [P _];
    [right; rewrite N; reflexivity|].
  destruct (compute_nan (fanPID v) (tempSetpoint cfg) (measuredTemperature v)) as [F _];
    [right; rewrite N; reflexivity|].
  rewrite P, F. split; reflexivity.
Qed.

(** * The claims *)

(** C1.  A tick in state ON.  With the coolant level low, both actuators are
    commanded to zero at once, the regulators are left untouched and the state
    becomes SAFETY_SHUTDOWN.  Otherwise both regulators run, their clamped
    outputs are applied, and only then is the temperature compared with the
    threshold: above it, both actuators are commanded to zero and the state
    becomes SAFETY_SHUTDOWN.  With setpoint 50, threshold 70, the level
    sufficient and the temperatures 60, 65, 75, the first two ticks leave the
    state as it is and the third ends with the commands (0, 0) and latches
    SAFETY_SHUTDOWN. *)
Theorem on_tick_safety :
  (forall cfg v t,
     tick_ON cfg v t =
     let w := measuring v t in
     if levelSwitch v then
       let p := pump_command cfg w in
       let f := fan_command cfg w in
       if f_gt t (safetyThreshold cfg) then
         ([ControlPump p; ControlFan f; Report Overtemperature;
           ControlPump (f32_of_Z 0); ControlFan (f32_of_Z 0); Report EnteringShutdown;
           CanControl p f],
          set_currentState (regulated cfg w) SAFETY_SHUTDOWN)
       else ([ControlPump p; ControlFan f; Status t p f; CanControl p f],
             regulated cfg w)
     else
       ([Report LowCoolant; ControlPump (f32_of_Z 0); ControlFan (f32_of_Z 0);
         Report EnteringShutdown; CanControl (pumpSpeed v) (fanSpeed v)],
        set_currentState w SAFETY_SHUTDOWN)) /\
  (forall cfg v rand,
     currentState v = ON ->
     loop_body cfg v rand =
     let voltage := simulated_voltage rand in
     let '(ev, v') :=
       tick_ON cfg (set_measurement v voltage (measuredTemperature v))
               (interpolateTemperature voltage) in
     (ev, Some v')) /\
  (forall cfg v t,
     levelSwitch v = false ->
     pumpPID (snd (tick_ON cfg v t)) = pumpPID v /\
     fanPID (snd (tick_ON cfg v t)) = fanPID v) /\
  (forall v,
     levelSwitch v = true ->
     let '(ev1, v1) := tick_ON default_config v (f32_of_Z 60) in
     let '(ev2, v2) := tick_ON default_config v1 (f32_of_Z 65) in
     let '(ev3, v3) := tick_ON default_config v2 (f32_of_Z 75) in
     currentState v1 = currentState v /\ currentState v2 = currentState v /\
     currentState v3 = SAFETY_SHUTDOWN /\
     exists p f,
       ev3 = [ControlPump p; ControlFan f; Report Overtemperature;
              ControlPump (f32_of_Z 0); ControlFan (f32_of_Z 0);
              Report EnteringShutdown; CanControl p f]) /\
  snd (tick_ON default_config
         (snd (tick_ON default_config
                 (snd (tick_ON default_config on_vars (f32_of_Z 60)))
                 (f32_of_Z 65)))
         (f32_of_Z 75)) =
  set_currentState
    (set_regulation (measuring on_vars (f32_of_Z 75))
       (mkPID (f32_dec 5 1) (f32_dec 1 1) (f32_dec 5 2) (f32_of_Z (-25)) (f32_of_Z (-50)))
       (mkPID (f32_dec 4 1) (f32_dec 1 1) (f32_dec 3 2) (f32_of_Z (-25)) (f32_of_Z (-50)))
       (f32_of_Z 0) (f32_of_Z 0))
    SAFETY_SHUTDOWN.
Proof.
  split; [exact tick_ON_unfold|].
  split; [exact loop_body_ON|].
  split.
  { intros cfg v t L. rewrite tick_ON_unfold. cbv zeta. rewrite L. split; reflexivity. }
  split.
  { intros v L.
    rewrite (tick_ON_unfold default_config v). cbv zeta. rewrite L.
    replace (f_gt (f32_of_Z 60) (safetyThreshold default_config)) with false
      by (vm_compute; reflexivity).
    set (v1 := regulated default_config (measuring v (f32_of_Z 60))).
    rewrite (tick_ON_unfold default_config v1). cbv zeta.
    change (levelSwitch v1) with (levelSwitch v). rewrite L.
    replace (f_gt (f32_of_Z 65) (safetyThreshold default_config)) with false
      by (vm_compute; reflexivity).
    set (v2 := regulated default_config (measuring v1 (f32_of_Z 65))).
    rewrite (tick_ON_unfold default_config v2). cbv zeta.
    change (levelSwitch v2) with (levelSwitch v). rewrite L.
    replace (f_gt (f32_of_Z 75) (safetyThreshold default_config)) with true
      by (vm_compute; reflexivity).
    repeat split; eauto. }
  vm_compute. reflexivity.
Qed.

Lemma on_tick_safety_witness :
  levelSwitch on_vars = true /\
  let '(ev1, v1) := tick_ON default_config on_vars (f32_of_Z 60) in
  let '(ev2, v2) := tick_ON default_config v1 (f32_of_Z 65) in
  let '(ev3, v3) := tick_ON default_config v2 (f32_of_Z 75) in
  currentState v1 = currentState on_vars /\ currentState v2 = currentState on_vars /\
  currentState v3 = SAFETY_SHUTDOWN /\
  exists p f,
    ev3 = [ControlPump p; ControlFan f; Report Overtemperature;
           ControlPump (f32_of_Z 0); ControlFan (f32_of_Z 0);
           Report EnteringShutdown; CanControl p f].
Proof.
  split; [reflexivity|].
  apply (proj1 (proj2 (proj2 (proj2 on_tick_safety))) on_vars). reflexivity.
Defined.

(** C2.  SAFETY_SHUTDOWN is terminal.  Whatever the start and the inputs, a
    state of the run that is SAFETY_SHUTDOWN is the last one: the iteration
    that finds it prints the fault and returns from [main], so no state
    follows it, neither ON nor OFF, and that iteration runs no regulator and
    commands no actuator. *)
Theorem safety_shutdown_terminal (cfg : Config) (v0 : Vars) (rands : list Z)
    (i : nat) (s : Vars) :
  nth_error (trace cfg v0 rands) i = Some s ->
  currentState s = SAFETY_SHUTDOWN ->
  nth_error (trace cfg v0 rands) (S i) = None /\
  (forall r, loop_body cfg s r = ([Report InShutdownMode], None)) /\
  (forall more, run cfg s more =
     match more with
     | [] => ([], Looping s)
     | _ :: _ => ([Report InShutdownMode], Returned 0)
     end).
Proof.
  intros Hi Hs. split; [|split].
  - revert v0 i Hi. induction rands as [|r rest IH]; intros v0 i Hi.
    + destruct i; discriminate.
    + cbn [trace] in *. destruct i as [|j]; cbn [nth_error] in *.
      * injection Hi as ->. rewrite (loop_body_shutdown cfg s r Hs). reflexivity.
      * destruct (snd (loop_body cfg v0 r)) as [v'|].
        -- exact (IH v' j Hi).
        -- destruct j; discriminate.
  - intros r. exact (loop_body_shutdown cfg s r Hs).
  - intros [|r more]; [reflexivity|].
    cbn [run]. rewrite (loop_body_shutdown cfg s r Hs). reflexivity.
Qed.

Lemma safety_shutdown_terminal_witness :
  let t := trace default_config initial_vars [0; 0; 0; 0] in
  exists s,
    nth_error t 2 = Some s /\ currentState s = SAFETY_SHUTDOWN /\
    nth_error t 3 = None /\
    (forall r, loop_body default_config s r = ([Report InShutdownMode], None)).
Proof.
  eexists. split; [vm_compute; reflexivity|]. split; [reflexivity|].
  refine (let H := safety_shutdown_terminal default_config initial_vars [0; 0; 0; 0] 2 _ _ _
          in conj (proj1 H) (proj1 (proj2 H))).
  - vm_compute. reflexivity.
  - reflexivity.
Defined.

(** C3.  The value of [interpolateTemperature(4.771f)].  The [float] nearest
    to 4.771 is 10005512 * 2^-21, which is below 4.771; converted to [double]
    it is below the [double] literal 4.771 of the first test, so the function
    returns -10, the temperature of the second threshold, not -20. *)
Theorem interpolate_4_771f :
  f32_dec 4771 3 = S754_finite false 10005512 (-21) /\
  (F2Q (f32_dec 4771 3) < 4771 # 1000)%Q /\
  f_ge (f64_of_f32 (f32_dec 4771 3)) (f64_dec 4771 3) = false /\
  f_ge (f64_of_f32 (f32_dec 4771 3)) (f64_dec 4642 3) = true /\
  interpolateTemperature (f32_dec 4771 3) = f32_of_Z (-10) /\
  interpolateTemperature (f32_dec 4771 3) <> f32_of_Z (-20).
Proof.
  split; [vm_compute; reflexivity|].
  split; [vm_compute; reflexivity|].
  split; [vm_compute; reflexivity|].
  split; [vm_compute; reflexivity|].
  split; [vm_compute; reflexivity|].
  vm_compute. discriminate.
Qed.

Example interpolate_2_838 :
  interpolateTemperature (f32_dec 2838 3) = f32_of_Z 40.
Proof. vm_compute. reflexivity. Qed.

Example interpolate_0_1 :
  interpolateTemperature (f32_dec 1 1) = f32_of_Z 120.
Proof. vm_compute. reflexivity. Qed.

(** C4.  [compute] follows the recurrence.  After any sequence of calls on a
    freshly constructed regulator, a call returns
    [Kp*error + Ki*integral + Kd*derivative] where [error] is
    [setpoint - measured], [integral] the sum of all errors so far, this one
    included, and [derivative] the difference to the error of the call before
    (to 0 on the first call); the object keeps the gains, the error and the
    sum.  The value is returned as it is: 1110 for an error of 1000, -1110
    for an error of -1000.  The first call [compute(50.0, 45.0)] with gains
    (1.0, 0.1, 0.01) returns 11639194 * 2^-21, within 0.1 of 5.5. *)
Theorem pid_recurrence (kp ki kd : f32) (args : list (f32 * f32)) (setpoint measured : f32) :
  compute (snd (calls (PIDController_new kp ki kd) args)) setpoint measured =
    (pid_output kp ki kd (errors args) (f32_sub setpoint measured),
     mkPID kp ki kd (f32_sub setpoint measured)
           (accumulated (errors args ++ [f32_sub setpoint measured]))) /\
  (let test := PIDController_new (f32_of_f64 (f64_dec 10 1)) (f32_dec 1 1) (f32_dec 1 2) in
   let out := fst (compute test (f32_of_Z 50) (f32_of_Z 45)) in
   out = S754_finite false 11639194 (-21) /\
   (Qabs (F2Q out - (55 # 10)) <= 1 # 10)%Q /\
   f_gt (fst (compute test (f32_of_Z 1000) (f32_of_Z 0))) (f32_of_Z 100) = true /\
   f_lt (fst (compute test (f32_of_Z 0) (f32_of_Z 1000))) (f32_of_Z 0) = true /\
   fst (compute test (f32_of_Z 1000) (f32_of_Z 0)) = f32_of_Z 1110 /\
   fst (compute test (f32_of_Z 0) (f32_of_Z 1000)) = f32_of_Z (-1110)).
Proof.
  split.
  - rewrite calls_state. unfold compute, pid_output, accumulated.
    cbn [Kp Ki Kd prevError integral PIDController_new].
    rewrite fold_left_app. cbn [fold_left]. reflexivity.
  - cbv zeta. split; [vm_compute; reflexivity|].
    split; [apply Qle_bool_iff; vm_compute; reflexivity|].
    repeat split; vm_compute; reflexivity.
Qed.

(** The second call of the repository's test, [compute(50.0, 50.0)] after
    [compute(50.0, 45.0)]: the error is 0 and the sum of errors still 5, so
    the value is 0.45, not 0. *)
Example second_call_carries_integral :
  let test := PIDController_new (f32_of_f64 (f64_dec 10 1)) (f32_dec 1 1) (f32_dec 1 2) in
  let out := fst (compute (snd (compute test (f32_of_Z 50) (f32_of_Z 45)))
                          (f32_of_Z 50) (f32_of_Z 50)) in
  out = S754_finite false 15099494 (-25) /\ (44 # 100 < F2Q out < 46 # 100)%Q.
Proof.
  cbv zeta. split; [vm_compute; reflexivity|].
  split; vm_compute; reflexivity.
Qed.

(** What the clamp does on numbers.  On a tick in state ON with the coolant
    level sufficient the commands applied, stored and encoded are the
    outputs of the two regulators clamped to [0, 100]: an output below 0
    gives exactly 0, an output above 100 gives exactly 100, any other output
    is kept, and the clamp of a number lies in [0, 100].  Along every run of
    the loop from the initial variables, with a finite setpoint of magnitude
    at most 2^125, every command handed to an actuator or to the frame
    encoder lies in [0, 100]. *)
Theorem applied_commands_clamped :
  (forall cfg v t,
     levelSwitch v = true ->
     let pout := fst (compute (pumpPID v) (tempSetpoint cfg) t) in
     let fout := fst (compute (fanPID v) (tempSetpoint cfg) t) in
     let '(ev, v') := tick_ON cfg v t in
     (exists rest,
        ev = ControlPump (clamp_0_100 pout) :: ControlFan (clamp_0_100 fout) :: rest) /\
     last ev (Report Initializing) = CanControl (clamp_0_100 pout) (clamp_0_100 fout) /\
     pumpSpeed v' = clamp_0_100 pout /\ fanSpeed v' = clamp_0_100 fout /\
     (is_nan pout = false -> is_nan fout = false ->
      forallb event_in_range ev = true)) /\
  (forall x,
     (f_lt x (f32_of_Z 0) = true -> clamp_0_100 x = f32_of_Z 0) /\
     (f_gt x (f32_of_Z 100) = true -> clamp_0_100 x = f32_of_Z 100) /\
     (f_lt x (f32_of_Z 0) = false -> f_gt x (f32_of_Z 100) = false ->
      clamp_0_100 x = x) /\
     (is_nan x = false -> in_range (clamp_0_100 x) = true)) /\
  (forall cfg rands,
     below 125 (tempSetpoint cfg) ->
     forallb event_in_range (fst (run cfg initial_vars rands)) = true).
Proof.
  split; [|split].
  - intros cfg v t L. cbv zeta. rewrite tick_ON_unfold. cbv zeta. rewrite L.
    unfold pump_command, fan_command.
    change (measuredTemperature (measuring v t)) with t.
    change (pumpPID (measuring v t)) with (pumpPID v).
    change (fanPID (measuring v t)) with (fanPID v).
    set (p := clamp_0_100 (fst (compute (pumpPID v) (tempSetpoint cfg) t))).
    set (f := clamp_0_100 (fst (compute (fanPID v) (tempSetpoint cfg) t))).
    assert (Hev : is_nan (fst (compute (pumpPID v) (tempSetpoint cfg) t)) = false ->
                  is_nan (fst (compute (fanPID v) (tempSetpoint cfg) t)) = false ->
                  in_range p = true /\ in_range f = true).
    { intros Hp Hf. split; apply clamp_in_range; assumption. }
    destruct (f_gt t (safetyThreshold cfg)).
    + split; [eexists; reflexivity|]. split; [reflexivity|].
      split; [reflexivity|]. split; [reflexivity|].
      intros Hp Hf. destruct (Hev Hp Hf) as [Rp Rf].
      cbn [forallb event_in_range]. rewrite Rp, Rf, in_range_0. reflexivity.
    + split; [eexists; reflexivity|]. split; [reflexivity|].
      split; [reflexivity|]. split; [reflexivity|].
      intros Hp Hf. destruct (Hev Hp Hf) as [Rp Rf].
      cbn [forallb event_in_range]. rewrite Rp, Rf. reflexivity.
  - intros x. split; [apply clamp_below|]. split; [apply clamp_above|].
    split; [apply clamp_inside | apply clamp_in_range].
  - intros cfg rands Hs. apply run_sound; [exact initial_vars_sound | exact Hs].
Qed.

Lemma applied_commands_clamped_witness :
  levelSwitch on_vars = true /\
  below 125 (tempSetpoint default_config) /\
  (let '(ev, v') := tick_ON default_config on_vars (f32_of_Z 40) in
   pumpSpeed v' =
     clamp_0_100 (fst (compute (pumpPID on_vars) (tempSetpoint default_config) (f32_of_Z 40)))
   /\
   fanSpeed v' =
     clamp_0_100 (fst (compute (fanPID on_vars) (tempSetpoint default_config) (f32_of_Z 40))))
  /\
  forallb event_in_range (fst (run default_config initial_vars [0; 2; 1; 0])) = true.
Proof.
  assert (B : below 125 (tempSetpoint default_config)) by (vm_compute; split; discriminate).
  split; [reflexivity|]. split; [exact B|]. split.
  - pose proof (proj1 applied_commands_clamped default_config on_vars (f32_of_Z 40) eq_refl)
      as H.
    cbv zeta in H. destruct (tick_ON default_config on_vars (f32_of_Z 40)) as [ev v'].
    destruct H as (_ & _ & Hp & Hf & _). split; assumption.
  - exact (proj2 (proj2 applied_commands_clamped) default_config [0; 2; 1; 0] B).
Defined.

(** C5.  The clamp does not catch NaN.  The two tests of the clamp,
    [pumpSpeed < 0.0f] and [pumpSpeed > 100.0f], are both false on NaN, so a
    regulator output that is NaN is applied as it is.  With a setpoint that
    is NaN, every iteration in state ON with the coolant level sufficient
    hands NaN to the pump, to the fan and to the frame encoder and stores it
    in [pumpSpeed] and [fanSpeed].  [std::stof] accepts the argument [nan],
    and [main] started with it does so on its second iteration, whatever
    [rand()] returns: the commands handed over are not in [0, 100]. *)
Theorem nan_passes_the_clamp :
  (forall cfg v r,
     currentState v = ON -> levelSwitch v = true ->
     is_nan (tempSetpoint cfg) = true ->
     exists rest v',
       loop_body cfg v r =
         (ControlPump S754_nan :: ControlFan S754_nan :: rest, Some v') /\
       last rest (Report Initializing) = CanControl S754_nan S754_nan /\
       pumpSpeed v' = S754_nan /\ fanSpeed v' = S754_nan /\
       forallb event_in_range (fst (loop_body cfg v r)) = false) /\
  in_range S754_nan = false /\
  stof "nan" = Some S754_nan /\
  (forall r0 r1 rands,
     (exists before after,
        fst (main ["CoolingLoopControl"; "nan"]%string (r0 :: r1 :: rands)) =
        before ++ ControlPump S754_nan :: ControlFan S754_nan :: after) /\
     forallb event_in_range
       (fst (main ["CoolingLoopControl"; "nan"]%string (r0 :: r1 :: rands))) = false).
Proof.
  assert (T : forall cfg v r,
     currentState v = ON -> levelSwitch v = true ->
     is_nan (tempSetpoint cfg) = true ->
     exists rest v',
       loop_body cfg v r =
         (ControlPump S754_nan :: ControlFan S754_nan :: rest, Some v') /\
       last rest (Report Initializing) = CanControl S754_nan S754_nan /\
       pumpSpeed v' = S754_nan /\ fanSpeed v' = S754_nan /\
       forallb event_in_range (fst (loop_body cfg v r)) = false).
  { intros cfg v r S L N. rewrite (loop_body_ON cfg v r S). cbv zeta.
    rewrite tick_ON_unfold. cbv zeta.
    set (w := measuring _ _).
    change (levelSwitch (set_measurement v (simulated_voltage r) (measuredTemperature v)))
      with (levelSwitch v).
    rewrite L. destruct (commands_nan cfg w N) as [P F].
    assert (Rp : pumpSpeed (regulated cfg w) = S754_nan) by exact P.
    assert (Rf : fanSpeed (regulated cfg w) = S754_nan) by exact F.
    rewrite P, F.
    destruct (f_gt _ (safetyThreshold cfg));
      (eexists; eexists; split; [reflexivity|]; split; [reflexivity|];
       split; [exact Rp|]; split; [exact Rf | reflexivity]). }
  split; [exact T|]. split; [reflexivity|]. split; [vm_compute; reflexivity|].
  intros r0 r1 rands. unfold main.
  replace (parse_arguments ["CoolingLoopControl"; "nan"]%string)
    with (@nil event, @inl Config Z (mkConfig S754_nan (f32_of_Z 70)))
    by (vm_compute; reflexivity).
  set (cfg := mkConfig S754_nan (f32_of_Z 70)).
  destruct (T cfg on_vars r1 eq_refl eq_refl eq_refl) as (rest & v' & B & _ & _ & _ & R).
  rewrite B in R. cbn [fst] in R.
  cbn [run].
  change (loop_body cfg initial_vars r0)
    with ([Report SystemOn; CanControl (f32_of_Z 0) (f32_of_Z 0)], Some on_vars).
  cbv iota. rewrite B.
  destruct (run cfg v' rands) as [ev o]. cbn [fst app].
  split.
  - exists [Report Initializing; Report SystemOn; CanControl (f32_of_Z 0) (f32_of_Z 0)].
    eexists. reflexivity.
  - reflexivity.
Qed.

(** An infinite setpoint is accepted likewise; the first regulating
    iteration then commands 100, and NaN follows on the next one. *)
Example inf_setpoint_third_iteration :
  stof "inf" = Some (S754_infinity false) /\
  filter is_actuation (fst (main ["CoolingLoopControl"; "inf"]%string [0; 1; 1])) =
  [ CanControl (f32_of_Z 0) (f32_of_Z 0);
    ControlPump (f32_of_Z 100); ControlFan (f32_of_Z 100);
    CanControl (f32_of_Z 100) (f32_of_Z 100);
    ControlPump S754_nan; ControlFan S754_nan; CanControl S754_nan S754_nan ].
Proof. split; vm_compute; reflexivity. Qed.

(** C6, as the code has it.  For commands in [0, 100] the frame carries the
    identifier 0x18FF408F and eight bytes; byte 2 is [pumpSpeed / 100 * 255],
    computed in single precision and truncated toward zero, byte 6 the same
    of [fanSpeed], each between 0 and 255, and the six others are 0.  The
    commands (50.0, 0.0) give byte 2 = 127. *)
Theorem frame_encoding (p f : f32) :
  is_binary32 p -> is_binary32 f ->
  in_range p = true -> in_range f = true ->
  exists b2 b6,
    CANcontrol p f = Some (0x18FF408F, [0; 0; b2; 0; 0; 0; b6; 0]) /\
    f_trunc (f32_mul (f32_div p (f32_of_Z 100)) (f32_of_Z 255)) = Some b2 /\
    f_trunc (f32_mul (f32_div f (f32_of_Z 100)) (f32_of_Z 255)) = Some b6 /\
    0 <= b2 <= 255 /\ 0 <= b6 <= 255 /\
    CANcontrol (f32_of_Z 50) (f32_of_Z 0) = Some (0x18FF408F, [0; 0; 127; 0; 0; 0; 0; 0]).
Proof.
  unfold is_binary32, in_range. intros Vp Vf Rp Rf.
  apply andb_true_iff in Rp. apply andb_true_iff in Rf.
  destruct Rp as [Rp0 Rp1]. destruct Rf as [Rf0 Rf1].
  destruct (scale_fits_byte p Vp Rp0 Rp1) as (b2 & H2 & B2).
  destruct (scale_fits_byte f Vf Rf0 Rf1) as (b6 & H6 & B6).
  exists b2, b6. unfold CANcontrol. rewrite H2, H6.
  apply uchar_of_f32_trunc in H2. apply uchar_of_f32_trunc in H6.
  destruct H2 as [H2 _]. destruct H6 as [H6 _].
  split; [reflexivity|]. split; [exact H2|]. split; [exact H6|].
  split; [exact B2|]. split; [exact B6|]. vm_compute. reflexivity.
Qed.

Lemma frame_encoding_witness :
  is_binary32 (f32_of_Z 50) /\ is_binary32 (f32_of_Z 0) /\
  in_range (f32_of_Z 50) = true /\ in_range (f32_of_Z 0) = true /\
  exists b2 b6,
    CANcontrol (f32_of_Z 50) (f32_of_Z 0) = Some (0x18FF408F, [0; 0; b2; 0; 0; 0; b6; 0]) /\
    0 <= b2 <= 255 /\ 0 <= b6 <= 255.
Proof.
  assert (V50 : is_binary32 (f32_of_Z 50)) by (vm_compute; reflexivity).
  assert (V0 : is_binary32 (f32_of_Z 0)) by reflexivity.
  assert (R50 : in_range (f32_of_Z 50) = true) by (vm_compute; reflexivity).
  assert (R0 : in_range (f32_of_Z 0) = true) by (vm_compute; reflexivity).
  repeat (split; [assumption|]).
  destruct (frame_encoding (f32_of_Z 50) (f32_of_Z 0) V50 V0 R50 R0)
    as (b2 & b6 & H & _ & _ & B2 & B6 & _).
  exists b2, b6. auto.
Defined.

(** C6, as the claim states it, fails on its own example: rounding
    [50 / 100 * 255 = 127.5] to the nearest integer gives 128, the code
    writes 127. *)
Lemma frame_byte_not_rounded :
  round_nearest ((50 # 1) / (100 # 1) * (255 # 1)) = 128 /\
  ~ exists bytes,
      CANcontrol (f32_of_Z 50) (f32_of_Z 0) = Some (CANID, bytes) /\
      nth 2 bytes 0 = round_nearest ((50 # 1) / (100 # 1) * (255 # 1)).
Proof.
  split; [vm_compute; reflexivity|].
  intros (bytes & H & N).
  replace (CANcontrol (f32_of_Z 50) (f32_of_Z 0))
    with (Some (CANID, [0; 0; 127; 0; 0; 0; 0; 0])) in H by (vm_compute; reflexivity).
  injection H as <-. vm_compute in N. discriminate N.
Qed.

(** C7, as the code has it.  An iteration that starts in OFF or in ON calls
    the frame encoder exactly once, as its last action and on the commands
    the variables then hold, the iteration on which the shutdown latches
    included.  The iteration that starts in SAFETY_SHUTDOWN returns from
    [main] before the call: it emits no frame and the loop ends. *)
Theorem frame_once_per_running_tick (cfg : Config) (v : Vars) (r : Z) :
  match currentState v with
  | SAFETY_SHUTDOWN => loop_body cfg v r = ([Report InShutdownMode], None)
  | _ =>
      exists ev v',
        loop_body cfg v r = (ev ++ [CanControl (pumpSpeed v') (fanSpeed v')], Some v')
        /\ frames ev = 0%nat
  end /\
  frames (fst (loop_body cfg v r)) =
  match currentState v with SAFETY_SHUTDOWN => 0%nat | _ => 1%nat end.
Proof.
  unfold loop_body. destruct (currentState v).
  - destruct (case_OFF v) as [ev v'] eqn:E. split.
    + exists ev, v'. split; [reflexivity|].
      unfold case_OFF in E. destruct (ignitionSwitch _); injection E as <- <-; reflexivity.
    + cbn [fst]. rewrite frames_app.
      unfold case_OFF in E. destruct (ignitionSwitch _); injection E as <- <-; reflexivity.
  - unfold case_ON.
    pose proof (regulate_no_frame cfg
      (set_measurement v (simulated_voltage r)
         (interpolateTemperature (simulated_voltage r)))) as Hn.
    destruct (regulate cfg _) as [ev v']. cbn [fst] in Hn. split.
    + exists ev, v'. split; [reflexivity | exact Hn].
    + cbn [fst]. rewrite frames_app, Hn. reflexivity.
  - split; reflexivity.
Qed.

(** C7, as the claim states it, fails: in the run of the program without
    arguments on [rand()] = 0, 0, ... the shutdown latches on the second
    iteration, and the third emits no frame. *)
Lemma no_frame_in_safety_shutdown :
  exists v,
    snd (run default_config initial_vars [0; 0]) = Looping v /\
    currentState v = SAFETY_SHUTDOWN /\
    frames (fst (loop_body default_config v 0)) <> 1%nat.
Proof.
  eexists. split; [vm_compute; reflexivity|]. split; [reflexivity|].
  vm_compute. discriminate.
Qed.

(** C8.  The curve does not increase: of two binary32 voltages, the higher
    one is given a temperature that is at most that of the lower one. *)
Theorem interpolateTemperature_antitone (v1 v2 : f32) :
  is_binary32 v1 -> is_binary32 v2 ->
  f_lt v1 v2 = true ->
  f_ge (interpolateTemperature v1) (interpolateTemperature v2) = true.
Proof.
  unfold is_binary32, f_lt. intros V1 V2 Hlt.
  rewrite !interpolateTemperature_lookup. unfold f_ge.
  apply lookup_antitone.
  - unfold SFltb. rewrite (f64_of_f32_compare v1 v2 V1 V2). exact Hlt.
  - vm_compute. reflexivity.
Qed.

Lemma interpolateTemperature_antitone_witness :
  is_binary32 (f32_of_Z 2) /\ is_binary32 (f32_of_Z 3) /\
  f_lt (f32_of_Z 2) (f32_of_Z 3) = true /\
  f_ge (interpolateTemperature (f32_of_Z 2)) (interpolateTemperature (f32_of_Z 3)) = true.
Proof.
  assert (V2 : is_binary32 (f32_of_Z 2)) by (vm_compute; reflexivity).
  assert (V3 : is_binary32 (f32_of_Z 3)) by (vm_compute; reflexivity).
  assert (L : f_lt (f32_of_Z 2) (f32_of_Z 3) = true) by (vm_compute; reflexivity).
  repeat (split; [assumption|]).
  exact (interpolateTemperature_antitone _ _ V2 V3 L).
Defined.

(** C9.  On the tick on which a fault latches SAFETY_SHUTDOWN the actuators
    are commanded to zero, but the variables [pumpSpeed] and [fanSpeed] are
    not: after a coolant-level fault they still hold the commands of the tick
    before, after an overtemperature fault the clamped commands of this tick,
    and the frame at the end of the tick is encoded from them.  In the run
    with setpoint 50 and threshold 30 at a temperature of 40 the actuators
    get zero and the frame carries the bytes 16 and 13. *)
Theorem shutdown_tick_frame_keeps_commands (cfg : Config) (v : Vars) (t : f32) :
  (levelSwitch v = false ->
   let '(ev, v') := tick_ON cfg v t in
   currentState v' = SAFETY_SHUTDOWN /\
   In (ControlPump (f32_of_Z 0)) ev /\ In (ControlFan (f32_of_Z 0)) ev /\
   pumpSpeed v' = pumpSpeed v /\ fanSpeed v' = fanSpeed v /\
   last ev (Report Initializing) = CanControl (pumpSpeed v) (fanSpeed v)) /\
  (levelSwitch v = true -> f_gt t (safetyThreshold cfg) = true ->
   let '(ev, v') := tick_ON cfg v t in
   let p := pump_command cfg (measuring v t) in
   let f := fan_command cfg (measuring v t) in
   currentState v' = SAFETY_SHUTDOWN /\
   In (ControlPump (f32_of_Z 0)) ev /\ In (ControlFan (f32_of_Z 0)) ev /\
   pumpSpeed v' = p /\ fanSpeed v' = f /\
   last ev (Report Initializing) = CanControl p f) /\
  (let cfg := mkConfig (f32_of_Z 50) (f32_of_Z 30) in
   exists v' p f,
     snd (loop_body cfg on_vars 2) = Some v' /\
     currentState v' = SAFETY_SHUTDOWN /\
     filter is_actuation (fst (loop_body cfg on_vars 2)) =
       [ControlPump p; ControlFan f; ControlPump (f32_of_Z 0); ControlFan (f32_of_Z 0);
        CanControl p f] /\
     CANcontrol p f = Some (CANID, [0; 0; 16; 0; 0; 0; 13; 0])) /\
  (let low := set_levelSwitch (snd (tick_ON default_config on_vars (f32_of_Z 40))) false in
   exists v' p f,
     snd (loop_body default_config low 2) = Some v' /\
     currentState v' = SAFETY_SHUTDOWN /\
     filter is_actuation (fst (loop_body default_config low 2)) =
       [ControlPump (f32_of_Z 0); ControlFan (f32_of_Z 0); CanControl p f] /\
     CANcontrol p f = Some (CANID, [0; 0; 16; 0; 0; 0; 13; 0])).
Proof.
  split; [|split; [|split]].
  - intros L. rewrite tick_ON_unfold. cbv zeta. rewrite L.
    split; [reflexivity|]. split; [right; left; reflexivity|].
    split; [right; right; left; reflexivity|]. repeat split.
  - intros L H. rewrite tick_ON_unfold. cbv zeta. rewrite L, H.
    split; [reflexivity|]. split; [do 3 right; left; reflexivity|].
    split; [do 4 right; left; reflexivity|]. repeat split.
  - cbv zeta. do 3 eexists. split; [vm_compute; reflexivity|].
    split; [reflexivity|]. split; [vm_compute; reflexivity | vm_compute; reflexivity].
  - cbv zeta. do 3 eexists. split; [vm_compute; reflexivity|].
    split; [reflexivity|]. split; [vm_compute; reflexivity | vm_compute; reflexivity].
Qed.

Lemma shutdown_tick_frame_keeps_commands_witness :
  let cfg := mkConfig (f32_of_Z 50) (f32_of_Z 30) in
  let t := f32_of_Z 40 in
  levelSwitch on_vars = true /\ f_gt t (safetyThreshold cfg) = true /\
  let '(ev, v') := tick_ON cfg on_vars t in
  currentState v' = SAFETY_SHUTDOWN /\
  In (ControlPump (f32_of_Z 0)) ev /\ In (ControlFan (f32_of_Z 0)) ev /\
  pumpSpeed v' = pump_command cfg (measuring on_vars t) /\
  fanSpeed v' = fan_command cfg (measuring on_vars t) /\
  last ev (Report Initializing) =
    CanControl (pump_command cfg (measuring on_vars t))
               (fan_command cfg (measuring on_vars t)).
Proof.
  cbv zeta. split; [reflexivity|]. split; [vm_compute; reflexivity|].
  apply (proj1 (proj2 (shutdown_tick_frame_keeps_commands
                         (mkConfig (f32_of_Z 50) (f32_of_Z 30)) on_vars (f32_of_Z 40))));
    [reflexivity | vm_compute; reflexivity].
Defined.

(** C10.  The program started with the setpoint argument [50abc].
    [std::stof] converts the leading [50] and ignores the rest without
    throwing, so no error is reported: the loop starts, with the setpoint 50
    and the default threshold 70.  The argument [nan] is accepted likewise. *)
Theorem main_accepts_trailing_garbage :
  stof "50abc" = Some (f32_of_Z 50) /\
  stof "nan" = Some S754_nan /\
  parse_arguments ["CoolingLoopControl"; "50abc"]%string =
    ([], inl (mkConfig (f32_of_Z 50) (f32_of_Z 70))) /\
  (forall rands,
     main ["CoolingLoopControl"; "50abc"]%string rands =
     (Report Initializing :: fst (run (mkConfig (f32_of_Z 50) (f32_of_Z 70)) initial_vars rands),
      snd (run (mkConfig (f32_of_Z 50) (f32_of_Z 70)) initial_vars rands))) /\
  snd (main ["CoolingLoopControl"; "50abc"]%string [0]) =
    Looping on_vars.
Proof.
  assert (P : parse_arguments ["CoolingLoopControl"; "50abc"]%string =
              ([], inl (mkConfig (f32_of_Z 50) (f32_of_Z 70))))
    by (vm_compute; reflexivity).
  split; [vm_compute; reflexivity|].
  split; [vm_compute; reflexivity|].
  split; [exact P|].
  split.
  - intros rands. unfold main. rewrite P.
    destruct (run _ initial_vars rands) as [ev o]. reflexivity.
  - vm_compute. reflexivity.
Qed.

Example main_rejects_abc :
  main ["CoolingLoopControl"; "abc"]%string [0; 0] = ([Report ParseError], Returned 1).
Proof. vm_compute. reflexivity. Qed.

(** A numeral that underflows makes [std::stof] throw, and [main] return 1. *)
Example main_rejects_1e_40 :
  main ["CoolingLoopControl"; "1e-40"]%string [0; 0] = ([Report ParseError], Returned 1).
Proof. vm_compute. reflexivity. Qed.

(** * The floating-point layer, continued *)

(** ** Digits *)

Lemma Zdigits2_bounds (m : Z) :
  0 < m -> 0 < Zdigits2 m /\ 2 ^ (Zdigits2 m - 1) <= m < 2 ^ Zdigits2 m.
Proof.
  destruct m as [|p|p]; try lia. intros _. cbn [Zdigits2].
  split; [lia | apply digits2_pos_bounds].
Qed.

Lemma Zdigits2_unique (m k : Z) :
  0 < m -> 2 ^ (k - 1) <= m < 2 ^ k -> Zdigits2 m = k.
Proof.
  intros Hm [Lo Hi]. destruct (Zdigits2_bounds m Hm) as (Dp & DLo & DHi).
  assert (Hk : 0 < k).
  { destruct (Z.lt_trichotomy k 0) as [N|[Z0|P]]; [|subst; simpl in Hi; lia|exact P].
    rewrite Z.pow_neg_r in Hi by exact N. lia. }
  assert (A : Zdigits2 m - 1 < k).
  { apply (Z.pow_lt_mono_r_iff 2); [lia | lia | lia]. }
  assert (B : k - 1 < Zdigits2 m).
  { apply (Z.pow_lt_mono_r_iff 2); [lia | lia | lia]. }
  lia.
Qed.

Lemma Zdigits2_shiftl (m k : Z) :
  0 < m -> 0 <= k -> Zdigits2 (m * 2 ^ k) = Zdigits2 m + k.
Proof.
  intros Hm Hk. destruct (Zdigits2_bounds m Hm) as (Dp & DLo & DHi).
  assert (P : 0 < 2 ^ k) by (apply Z.pow_pos_nonneg; lia).
  apply Zdigits2_unique; [nia|].
  replace (Zdigits2 m + k - 1) with ((Zdigits2 m - 1) + k) by lia.
  rewrite !Z.pow_add_r by lia. split; nia.
Qed.

Lemma Zdigits2_shiftr (m n : Z) :
  0 < m -> 0 <= n ->
  (n < Zdigits2 m -> 0 < m / 2 ^ n /\ Zdigits2 (m / 2 ^ n) = Zdigits2 m - n) /\
  (Zdigits2 m <= n -> m / 2 ^ n = 0).
Proof.
  intros Hm Hn. destruct (Zdigits2_bounds m Hm) as (Dp & DLo & DHi).
  assert (P : 0 < 2 ^ n) by (apply Z.pow_pos_nonneg; lia).
  split.
  - intros Hlt.
    assert (E1 : 2 ^ (Zdigits2 m - 1) = 2 ^ (Zdigits2 m - n - 1) * 2 ^ n).
    { rewrite <- Z.pow_add_r by lia. f_equal. lia. }
    assert (E2 : 2 ^ Zdigits2 m = 2 ^ n * 2 ^ (Zdigits2 m - n)).
    { rewrite <- Z.pow_add_r by lia. f_equal. lia. }
    assert (Lo : 2 ^ (Zdigits2 m - n - 1) <= m / 2 ^ n).
    { apply Z.div_le_lower_bound; [exact P|]. rewrite Z.mul_comm, <- E1. exact DLo. }
    assert (Hi : m / 2 ^ n < 2 ^ (Zdigits2 m - n)).
    { apply Z.div_lt_upper_bound; [exact P|]. rewrite <- E2. exact DHi. }
    assert (Q : 0 < 2 ^ (Zdigits2 m - n - 1)) by (apply Z.pow_pos_nonneg; lia).
    split; [lia|]. apply Zdigits2_unique; [lia|]. split; [exact Lo | exact Hi].
  - intros Hge. apply Z.div_small. split; [lia|].
    apply Z.lt_le_trans with (2 ^ Zdigits2 m); [exact DHi|].
    apply Z.pow_le_mono_r; lia.
Qed.

(** ** The results of the operations are values of the format *)

Section Validity.
Variables prec emax : Z.
Hypothesis prec_pos : 0 < prec.
Hypothesis prec_lt_emax : prec < emax.

Lemma shr_fexp_exact (m e : Z) (l : location) :
  0 <= m ->
  snd (shr_fexp prec emax m e l) = Z.max e (fexp prec emax (Zdigits2 m + e)) /\
  shr_m (fst (shr_fexp prec emax m e l)) =
  m / 2 ^ (Z.max e (fexp prec emax (Zdigits2 m + e)) - e).
Proof.
  intros Hm. unfold shr_fexp, shr.
  set (r0 := shr_record_of_loc m l).
  assert (Hr0 : shr_m r0 = m) by (unfold r0; destruct l as [|[ | | ]]; reflexivity).
  destruct (fexp prec emax (Zdigits2 m + e) - e) as [|p|p] eqn:Hn; cbn [fst snd].
  - replace (Z.max e _) with e by lia. rewrite Z.sub_diag, Hr0.
    change (2 ^ 0) with 1. rewrite Z.div_1_r. split; reflexivity.
  - replace (Z.max e _) with (e + Zpos p) by lia.
    replace (e + Zpos p - e) with (Zpos p) by lia.
    rewrite iter_pos_nat.
    destruct (shr_iter_spec (Pos.to_nat p) r0) as [H1 _]; [lia|].
    rewrite positive_nat_Z, Hr0 in H1. split; [reflexivity | exact H1].
  - replace (Z.max e _) with e by lia. rewrite Z.sub_diag, Hr0.
    change (2 ^ 0) with 1. rewrite Z.div_1_r. split; reflexivity.
Qed.

(** After the first shift and the rounding: zero, or a mantissa that is
    canonical at its exponent, or [2^prec] one exponent too low. *)
Lemma rounded_mantissa (mx ex m1 : Z) :
  0 < mx -> ex <= fexp prec emax (Zdigits2 mx + ex) ->
  let e1 := fexp prec emax (Zdigits2 mx + ex) in
  mx / 2 ^ (e1 - ex) <= m1 <= mx / 2 ^ (e1 - ex) + 1 ->
  m1 = 0 \/
  (0 < m1 /\
   (fexp prec emax (Zdigits2 m1 + e1) = e1 \/
    (m1 = 2 ^ prec /\ fexp prec emax (prec + 1 + e1) = e1 + 1))).
Proof.
  intros Hm He e1 Hr. fold e1 in He.
  assert (Hn : 0 <= e1 - ex) by lia.
  destruct (Zdigits2_bounds mx Hm) as (Dp & _).
  destruct (Zdigits2_shiftr mx (e1 - ex) Hm Hn) as [A B].
  destruct (Z_lt_le_dec (e1 - ex) (Zdigits2 mx)) as [Hlt|Hge].
  - destruct (A Hlt) as [Q0 Qd]. clear A B. right.
    set (q := mx / 2 ^ (e1 - ex)) in *. set (d' := Zdigits2 mx - (e1 - ex)) in *.
    assert (Hd' : 0 < d' <= prec) by (unfold d', e1, fexp in *; lia).
    destruct (Zdigits2_bounds q Q0) as (_ & QLo & QHi). rewrite Qd in QLo, QHi.
    split; [lia|].
    destruct (Z.eq_dec m1 (2 ^ d')) as [E|N].
    + assert (D1 : Zdigits2 m1 = d' + 1).
      { apply Zdigits2_unique; [lia|]. rewrite E.
        replace (d' + 1 - 1) with d' by lia. split; [lia|].
        rewrite Z.pow_add_r by lia. change (2 ^ 1) with 2. lia. }
      destruct (Z.eq_dec d' prec) as [Ep|Np].
      * right. rewrite E, Ep. split; [reflexivity|].
        unfold d', e1, fexp, emin in *. lia.
      * left. rewrite D1. unfold d', e1, fexp, emin in *. lia.
    + left.
      assert (D1 : Zdigits2 m1 = d').
      { apply Zdigits2_unique; [lia|]. split; lia. }
      rewrite D1. unfold d'. replace (Zdigits2 mx - (e1 - ex) + e1) with (Zdigits2 mx + ex) by lia.
      reflexivity.
  - rewrite (B Hge) in Hr. clear A B.
    destruct (Z.eq_dec m1 0) as [E|N]; [left; exact E | right].
    assert (E : m1 = 1) by lia. subst m1. split; [lia|]. left.
    cbn [Zdigits2 digits2_pos]. unfold e1, fexp, emin in *. lia.
Qed.

Lemma binary_round_aux_valid (sx : bool) (mx ex : Z) (lx : location) :
  0 < mx -> ex <= fexp prec emax (Zdigits2 mx + ex) ->
  valid_binary prec emax (binary_round_aux prec emax sx mx ex lx) = true.
Proof.
  intros Hm He. unfold binary_round_aux.
  destruct (shr_fexp_exact mx ex lx ltac:(lia)) as [E1 M1].
  destruct (shr_fexp prec emax mx ex lx) as [mrs1 e1]. cbn [fst snd] in E1, M1.
  rewrite Z.max_r in E1, M1 by exact He.
  set (m1 := round_nearest_even (shr_m mrs1) (loc_of_shr_record mrs1)).
  destruct (round_nearest_even_spec (shr_m mrs1) (loc_of_shr_record mrs1)) as [_ Hr].
  fold m1 in Hr. rewrite M1 in Hr.
  pose proof (rounded_mantissa mx ex m1 Hm He Hr) as R. cbv zeta in R. rewrite <- E1 in R.
  assert (N1 : 0 <= m1).
  { assert (0 <= mx / 2 ^ (fexp prec emax (Zdigits2 mx + ex) - ex))
      by (apply Z.div_pos; [lia | apply Z.pow_pos_nonneg; lia]). lia. }
  destruct (shr_fexp_exact m1 e1 loc_Exact N1) as [E2 M2].
  destruct (shr_fexp prec emax m1 e1 loc_Exact) as [mrs2 e2]. cbn [fst snd] in E2, M2.
  destruct R as [Z0|[P1 [C|[Ep Ef]]]].
  - rewrite Z0 in M2. rewrite Z.div_0_l in M2
      by (apply Z.pow_nonzero; lia).
    rewrite M2. reflexivity.
  - rewrite C in E2, M2. rewrite Z.max_id in E2, M2. rewrite Z.sub_diag in M2.
    change (2 ^ 0) with 1 in M2. rewrite Z.div_1_r in M2. rewrite M2.
    destruct m1 as [|p|p]; try lia.
    destruct (e2 <=? emax - prec) eqn:Hov; [|reflexivity].
    cbn [valid_binary]. unfold bounded, canonical_mantissa. rewrite Hov, andb_true_r.
    apply Z.eqb_eq. cbn [Zdigits2] in C. rewrite E2. exact C.
  - assert (D1 : Zdigits2 m1 = prec + 1).
    { apply Zdigits2_unique; [lia|]. rewrite Ep.
      replace (prec + 1 - 1) with prec by lia. split; [lia|].
      rewrite Z.pow_add_r by lia. change (2 ^ 1) with 2.
      assert (0 < 2 ^ prec) by (apply Z.pow_pos_nonneg; lia). lia. }
    rewrite D1, Ef in E2, M2. rewrite Z.max_r in E2, M2 by lia.
    replace (e1 + 1 - e1) with 1 in M2 by lia. change (2 ^ 1) with 2 in M2.
    assert (Hq : m1 / 2 = 2 ^ (prec - 1)).
    { rewrite Ep. replace prec with ((prec - 1) + 1) at 1 by lia.
      rewrite Z.pow_add_r by lia. change (2 ^ 1) with 2. apply Z.div_mul. lia. }
    rewrite Hq in M2. rewrite M2.
    assert (Pq : 0 < 2 ^ (prec - 1)) by (apply Z.pow_pos_nonneg; lia).
    destruct (2 ^ (prec - 1)) as [|q|q] eqn:Eq; try lia.
    destruct (e2 <=? emax - prec) eqn:Hov; [|reflexivity].
    cbn [valid_binary]. unfold bounded, canonical_mantissa. rewrite Hov, andb_true_r.
    apply Z.eqb_eq.
    assert (Dq : Zdigits2 (Zpos q) = prec).
    { apply Zdigits2_unique; [lia|]. rewrite <- Eq. split; [lia|].
      replace prec with ((prec - 1) + 1) at 2 by lia.
      rewrite Z.pow_add_r by lia. change (2 ^ 1) with 2. lia. }
    cbn [Zdigits2] in Dq. rewrite Dq, E2.
    replace (prec + (e1 + 1)) with (prec + 1 + e1) by lia. exact Ef.
Qed.

Lemma binary_round_valid (s : bool) (m : positive) (e : Z) :
  valid_binary prec emax (binary_round prec emax s m e) = true.
Proof.
  unfold binary_round.
  pose proof (shl_align_spec m e (fexp prec emax (Zpos (digits2_pos m) + e))) as A.
  destruct (shl_align m e _) as [mz ez]. destruct A as [Ez Mz].
  apply binary_round_aux_valid; [lia|].
  rewrite Mz, Zdigits2_shiftl by lia. cbn [Zdigits2].
  replace (Zpos (digits2_pos m) + (e - ez) + ez) with (Zpos (digits2_pos m) + e) by lia.
  lia.
Qed.

Lemma binary_normalize_valid (z e : Z) (s : bool) :
  valid_binary prec emax (binary_normalize prec emax z e s) = true.
Proof.
  destruct z as [|p|p]; cbn [binary_normalize];
    [reflexivity | apply binary_round_valid | apply binary_round_valid].
Qed.

Lemma SFadd_valid (x y : spec_float) :
  valid_binary prec emax x = true -> valid_binary prec emax y = true ->
  valid_binary prec emax (SFadd prec emax x y) = true.
Proof.
  intros Vx Vy.
  destruct x as [sx|sx| |sx mx ex], y as [sy|sy| |sy my ey]; cbn [SFadd];
    try assumption; try reflexivity;
    try (destruct sx, sy; reflexivity).
  apply binary_normalize_valid.
Qed.

Lemma SFsub_valid (x y : spec_float) :
  valid_binary prec emax x = true -> valid_binary prec emax y = true ->
  valid_binary prec emax (SFsub prec emax x y) = true.
Proof.
  intros Vx Vy.
  destruct x as [sx|sx| |sx mx ex], y as [sy|sy| |sy my ey]; cbn [SFsub];
    try assumption; try reflexivity;
    try (destruct sx, sy; reflexivity).
  apply binary_normalize_valid.
Qed.

Lemma SFmul_valid (x y : spec_float) :
  valid_binary prec emax x = true -> valid_binary prec emax y = true ->
  valid_binary prec emax (SFmul prec emax x y) = true.
Proof.
  intros Vx Vy.
  destruct x as [sx|sx| |sx mx ex], y as [sy|sy| |sy my ey]; cbn [SFmul];
    try reflexivity.
  cbn [valid_binary] in Vx, Vy.
  apply bounded_inv in Vx. apply bounded_inv in Vy.
  destruct Vx as (Dx & Lx & _ & Nx), Vy as (Dy & Ly & _ & Ny).
  apply binary_round_aux_valid; [lia|].
  destruct (Zdigits2_bounds (Zpos mx) ltac:(lia)) as (Px & XLo & XHi).
  destruct (Zdigits2_bounds (Zpos my) ltac:(lia)) as (Py & YLo & YHi).
  destruct (Zdigits2_bounds (Zpos (mx * my)) ltac:(lia)) as (Pz & ZLo & ZHi).
  cbn [Zdigits2] in *.
  assert (D : Zpos (digits2_pos mx) + Zpos (digits2_pos my) - 1
              <= Zpos (digits2_pos (mx * my))).
  { assert (H : 2 ^ (Zpos (digits2_pos mx) - 1 + (Zpos (digits2_pos my) - 1))
                < 2 ^ Zpos (digits2_pos (mx * my))).
    { rewrite Z.pow_add_r by lia. rewrite Pos2Z.inj_mul in ZHi.
      apply Z.le_lt_trans with (Zpos mx * Zpos my); [|exact ZHi].
      apply Z.mul_le_mono_nonneg; try assumption;
        apply Z.lt_le_incl, Z.pow_pos_nonneg; lia. }
    apply Z.pow_lt_mono_r_iff in H; lia. }
  clear XLo XHi YLo YHi ZLo ZHi.
  unfold fexp, emin in *. lia.
Qed.

End Validity.

Lemma f32_add_valid (x y : f32) :
  is_binary32 x -> is_binary32 y -> is_binary32 (f32_add x y).
Proof. apply SFadd_valid; reflexivity. Qed.

Lemma f32_sub_valid (x y : f32) :
  is_binary32 x -> is_binary32 y -> is_binary32 (f32_sub x y).
Proof. apply SFsub_valid; reflexivity. Qed.

Lemma f32_mul_valid (x y : f32) :
  is_binary32 x -> is_binary32 y -> is_binary32 (f32_mul x y).
Proof. apply SFmul_valid; reflexivity. Qed.

(** ** The sign of a result *)

Lemma binary_round_aux_sign (prec emax : Z) (sx : bool) (mx ex : Z) (lx : location) :
  0 <= mx ->
  match binary_round_aux prec emax sx mx ex lx with
  | S754_zero s | S754_infinity s | S754_finite s _ _ => s = sx
  | S754_nan => False
  end.
Proof.
  intros Hm. unfold binary_round_aux.
  pose proof (shr_fexp_nonneg prec emax mx ex lx Hm) as H1.
  destruct (shr_fexp prec emax mx ex lx) as [mrs1 e1]. cbn [fst] in H1.
  destruct (round_nearest_even_spec (shr_m mrs1) (loc_of_shr_record mrs1)) as [_ Hr].
  assert (H2 : 0 <= round_nearest_even (shr_m mrs1) (loc_of_shr_record mrs1)) by lia.
  pose proof (shr_fexp_nonneg prec emax _ e1 loc_Exact H2) as H3.
  destruct (shr_fexp prec emax _ e1 loc_Exact) as [mrs2 e2]. cbn [fst] in H3.
  destruct (shr_m mrs2) as [|p|p]; [reflexivity | | lia].
  destruct (e2 <=? emax - prec); reflexivity.
Qed.

Lemma binary_normalize_negative (prec emax : Z) (z e : Z) (s : bool) :
  z < 0 -> nonpositive (binary_normalize prec emax z e s).
Proof.
  intros Hz. destruct z as [|p|p]; try lia. cbn [binary_normalize].
  unfold binary_round. destruct (shl_align p e _) as [mz ez].
  pose proof (binary_round_aux_sign prec emax true (Zpos mz) ez loc_Exact ltac:(lia)) as H.
  destruct (binary_round_aux prec emax true (Zpos mz) ez loc_Exact);
    [exact I | exact H | contradiction | exact H].
Qed.

Lemma f32_add_nonpositive (x y : f32) :
  nonpositive x -> nonpositive y -> nonpositive (f32_add x y).
Proof.
  destruct x as [sx|sx| |sx mx ex], y as [sy|sy| |sy my ey]; cbn [nonpositive];
    intros Hx Hy; try contradiction; subst; try exact I; try reflexivity.
  - destruct sx, sy; exact I.
  - unfold f32_add. cbn [SFadd]. apply binary_normalize_negative.
    cbn [cond_Zopp]. lia.
Qed.

Lemma f32_mul_nonpositive (m : positive) (e : Z) (y : f32) :
  nonpositive y -> nonpositive (f32_mul (S754_finite false m e) y).
Proof.
  destruct y as [sy|sy| |sy my ey]; cbn [nonpositive]; intros Hy;
    try contradiction; subst; try exact I; try reflexivity.
  unfold f32_mul. cbn [SFmul xorb].
  pose proof (binary_round_aux_sign prec32 emax32 true (Zpos (m * my)) (e + ey) loc_Exact
                ltac:(lia)) as H.
  destruct (binary_round_aux prec32 emax32 true (Zpos (m * my)) (e + ey) loc_Exact);
    [exact I | exact H | contradiction | exact H].
Qed.

Lemma cond_Zopp_mul (s : bool) (a b : Z) : cond_Zopp s a * b = cond_Zopp s (a * b).
Proof. destruct s; cbn [cond_Zopp]; lia. Qed.

(** The difference of a number and a larger one is not positive. *)
Lemma f32_sub_nonpositive (x y : f32) :
  is_binary32 x -> is_binary32 y -> f_lt x y = true -> nonpositive (f32_sub x y).
Proof.
  unfold is_binary32, f_lt, SFltb, f32_sub. intros Vx Vy.
  destruct x as [sx|sx| |sx mx ex], y as [sy|sy| |sy my ey];
    try solve [repeat match goal with s : bool |- _ => destruct s end;
               cbn [SFcompare SFsub nonpositive negb];
               try discriminate; intros _; first [exact I | reflexivity]].
  - intros H. cbn [valid_binary] in Vx, Vy.
    pose proof (SFcompare_scaled prec32 emax32 sx sy mx my ex ey Vx Vy) as C.
    rewrite C in H.
    match type of H with
    | context [?a ?= ?b] => destruct (Z.compare_spec a b) as [E|E|E]
    end; try discriminate H. clear H C.
    cbn [SFsub]. apply binary_normalize_negative.
    pose proof (shl_align_spec mx ex (Z.min ex ey)) as Ax.
    pose proof (shl_align_spec my ey (Z.min ex ey)) as Ay.
    destruct (shl_align mx ex (Z.min ex ey)) as [ax ezx].
    destruct (shl_align my ey (Z.min ex ey)) as [ay ezy].
    destruct Ax as [Ex Ax], Ay as [Ey Ay]. cbn [fst].
    rewrite Ax, Ay, Ex, Ey.
    replace (Z.min ex (Z.min ex ey)) with (Z.min ex ey) by lia.
    replace (Z.min ey (Z.min ex ey)) with (Z.min ex ey) by lia.
    rewrite <- !cond_Zopp_mul. clear - E. lia.
Qed.

Lemma f32_sub_zero_nonpositive (x : f32) :
  nonpositive x -> nonpositive (f32_sub x (S754_zero false)).
Proof. destruct x as [[|]|s| |s m e]; cbn; auto. Qed.

(** * Further properties of the program *)

(** ** The regulator *)

(** X1.  NaN is absorbing in the regulator.  After one call whose setpoint
    or measurement is NaN, that call and every later call on the same
    object return NaN, whatever their arguments: the accumulated error is
    NaN and is never reset. *)
Theorem nan_poisons_regulator (c : PIDController) (setpoint measured : f32)
    (later : list (f32 * f32)) :
  is_nan setpoint = true \/ is_nan measured = true ->
  Forall (fun out => out = S754_nan) (fst (calls c ((setpoint, measured) :: later))) /\
  integral (snd (calls c ((setpoint, measured) :: later))) = S754_nan.
Proof.
  intros H.
  assert (E : is_nan (f32_sub setpoint measured) = true).
  { destruct H as [H|H]; apply is_nan_eq in H; rewrite H;
      [reflexivity | rewrite f32_sub_nan_r; reflexivity]. }
  assert (G : forall args c0, is_nan (integral c0) = true ->
              Forall (fun out => out = S754_nan) (fst (calls c0 args)) /\
              integral (snd (calls c0 args)) = S754_nan).
  { induction args as [|[s m] rest IH]; intros c0 N.
    - split; [constructor | apply is_nan_eq; exact N].
    - cbn [calls]. destruct (compute_nan c0 s m (or_introl N)) as [O I1].
      destruct (compute c0 s m) as [out c1]. cbn [fst snd] in O, I1.
      assert (N1 : is_nan (integral c1) = true) by (rewrite I1; reflexivity).
      destruct (IH c1 N1) as [F I2]. destruct (calls c1 rest) as [outs c2].
      cbn [fst snd] in *. split; [constructor; assumption | exact I2]. }
  cbn [calls]. destruct (compute_nan c setpoint measured (or_intror E)) as [O I1].
  destruct (compute c setpoint measured) as [out c1]. cbn [fst snd] in O, I1.
  assert (N1 : is_nan (integral c1) = true) by (rewrite I1; reflexivity).
  destruct (G later c1 N1) as [F I2]. destruct (calls c1 later) as [outs c2].
  cbn [fst snd] in *. split; [constructor; assumption | exact I2].
Qed.

Lemma nan_poisons_regulator_witness :
  Forall (fun out => out = S754_nan)
    (fst (calls (pumpPID initial_vars) [(f32_of_Z 50, S754_nan); (f32_of_Z 50, f32_of_Z 40)])).
Proof.
  exact (proj1 (nan_poisons_regulator (pumpPID initial_vars) (f32_of_Z 50) S754_nan
                  [(f32_of_Z 50, f32_of_Z 40)] (or_intror eq_refl))).
Defined.

Lemma compute_infinite (c : PIDController) (b : bool) (measured : f32) :
  is_finite measured = true ->
  prevError (snd (compute c (S754_infinity b) measured)) = S754_infinity b /\
  (prevError c = S754_infinity b ->
   fst (compute c (S754_infinity b) measured) = S754_nan).
Proof.
  intros F. unfold compute. cbn [fst snd prevError].
  assert (E : f32_sub (S754_infinity b) measured = S754_infinity b)
    by (destruct measured; try discriminate F; reflexivity).
  rewrite E. split; [reflexivity|].
  intros ->.
  replace (f32_sub (S754_infinity b) (S754_infinity b)) with S754_nan
    by (destruct b; reflexivity).
  rewrite f32_mul_nan_r, f32_add_nan_r. reflexivity.
Qed.

(** X2.  An infinite setpoint.  On calls with an infinite setpoint and
    finite measurements the error is infinite each time, so from the second
    call on the derivative is infinity minus infinity and [compute] returns
    NaN, whatever the gains. *)
Theorem infinite_setpoint_gives_nan (c : PIDController) (b : bool)
    (measured : f32) (later : list f32) :
  is_finite measured = true -> forallb is_finite later = true ->
  Forall (fun out => out = S754_nan)
    (tl (fst (calls c (map (fun m => (S754_infinity b, m)) (measured :: later))))).
Proof.
  intros F L.
  assert (G : forall ms c0, prevError c0 = S754_infinity b ->
              forallb is_finite ms = true ->
              Forall (fun out => out = S754_nan)
                (fst (calls c0 (map (fun m => (S754_infinity b, m)) ms)))).
  { induction ms as [|m rest IH]; intros c0 P Fm; [constructor|].
    cbn [forallb] in Fm. apply andb_true_iff in Fm. destruct Fm as [Fm Frest].
    cbn [map calls]. destruct (compute_infinite c0 b m Fm) as [P1 O].
    specialize (O P).
    destruct (compute c0 (S754_infinity b) m) as [out c1]. cbn [fst snd] in *.
    specialize (IH c1 P1 Frest). destruct (calls c1 _) as [outs c2]. cbn [fst] in *.
    constructor; assumption. }
  cbn [map calls]. destruct (compute_infinite c b measured F) as [P1 _].
  destruct (compute c (S754_infinity b) measured) as [out c1]. cbn [fst snd] in *.
  specialize (G later c1 P1 L). destruct (calls c1 _) as [outs c2]. exact G.
Qed.

Lemma infinite_setpoint_gives_nan_witness :
  Forall (fun out => out = S754_nan)
    (tl (fst (calls (pumpPID initial_vars)
                (map (fun m => (S754_infinity false, m)) [f32_of_Z 40; f32_of_Z 60])))).
Proof.
  exact (infinite_setpoint_gives_nan (pumpPID initial_vars) false (f32_of_Z 40)
           [f32_of_Z 60] eq_refl eq_refl).
Defined.

Lemma compute_valid (c : PIDController) (setpoint measured : f32) :
  valid_pid c -> is_binary32 setpoint -> is_binary32 measured ->
  is_binary32 (fst (compute c setpoint measured)) /\
  valid_pid (snd (compute c setpoint measured)).
Proof.
  intros (Vp & Vi & Vd & Ve & Vs) Hs Hm. unfold compute. cbn [fst snd].
  pose proof (f32_sub_valid _ _ Hs Hm) as He.
  pose proof (f32_add_valid _ _ Vs He) as Hi.
  split.
  - repeat first [apply f32_add_valid | apply f32_mul_valid | apply f32_sub_valid];
      assumption.
  - unfold valid_pid. cbn [Kp Ki Kd prevError integral].
    split; [exact Vp|]. split; [exact Vi|]. split; [exact Vd|]. split; assumption.
Qed.

(** A regulator with positive gains, fresh from its constructor, on an error
    that is not positive. *)
Lemma compute_nonpositive (kp ki kd : positive) (ep ei ed : Z) (setpoint measured : f32) :
  nonpositive (f32_sub setpoint measured) ->
  nonpositive
    (fst (compute (PIDController_new (S754_finite false kp ep) (S754_finite false ki ei)
                                     (S754_finite false kd ed))
                  setpoint measured)).
Proof.
  intros E. unfold compute, PIDController_new. cbn [fst Kp Ki Kd prevError integral].
  change (f32_of_f64 (f64_dec 0 1)) with (S754_zero false).
  repeat first [apply f32_add_nonpositive | apply f32_mul_nonpositive];
    [exact E | exact I | exact E | apply f32_sub_zero_nonpositive; exact E].
Qed.

Lemma f32_sub_self (x : f32) : is_finite x = true -> f32_sub x x = S754_zero false.
Proof.
  destruct x as [s|s| |s m e]; try discriminate; intros _.
  - destruct s; reflexivity.
  - unfold f32_sub. cbn [SFsub]. rewrite Z.min_id. unfold shl_align.
    rewrite !Z.sub_diag. reflexivity.
Qed.

Lemma f32_add_zero_l (x : f32) : is_zero x = false -> f32_add (S754_zero false) x = x.
Proof. destruct x; try discriminate; reflexivity. Qed.

Lemma f32_add_zero_r (x : f32) : is_zero x = false -> f32_add x (S754_zero false) = x.
Proof. destruct x; try discriminate; reflexivity. Qed.

Lemma f32_sub_zero_r (x : f32) : is_zero x = false -> f32_sub x (S754_zero false) = x.
Proof. destruct x; try discriminate; reflexivity. Qed.

Lemma f32_sub_zero_l (x : f32) : is_zero x = false -> f32_sub (S754_zero false) x = SFopp x.
Proof. destruct x; try discriminate; reflexivity. Qed.

(** X3.  The output on an error of zero.  On a regulator fresh from its
    constructor a first call with a nonzero error [e] returns
    [Kp * e + Ki * e + Kd * e]: the integral and the derivative both start
    at [e].  A second call whose measurement equals its setpoint does not
    return zero: the accumulated error is still [e] and the derivative is
    [-e], so it returns [Kp * 0 + Ki * e + Kd * (-e)].  This is why
    [TEST(PIDControllerTest, Compute)] fails: its first expectation holds,
    its second, that the second call is within 0.1 of 0, does not (the call
    returns about 0.45). *)
Theorem compute_on_zero_error (kp ki kd s1 m1 s2 : f32) :
  let e := f32_sub s1 m1 in
  is_zero e = false -> is_finite s2 = true ->
  fst (calls (PIDController_new kp ki kd) [(s1, m1); (s2, s2)]) =
  [ f32_add (f32_add (f32_mul kp e) (f32_mul ki e)) (f32_mul kd e);
    f32_add (f32_add (f32_mul kp (S754_zero false)) (f32_mul ki e))
            (f32_mul kd (SFopp e)) ] /\
  PIDControllerTest_Compute = [true; false].
Proof.
  intros e Z F. split; [|vm_compute; reflexivity].
  cbn [calls]. unfold compute, PIDController_new.
  cbn [fst snd Kp Ki Kd prevError integral]. fold e.
  change (f32_of_f64 (f64_dec 0 1)) with (S754_zero false).
  rewrite (f32_sub_self s2 F), (f32_add_zero_l e Z), (f32_sub_zero_r e Z),
          (f32_add_zero_r e Z), (f32_sub_zero_l e Z).
  reflexivity.
Qed.

Lemma compute_on_zero_error_witness :
  map F2Q
    (fst (calls (PIDController_new (f32_of_Z 1) (f32_dec 1 1) (f32_dec 1 2))
            [(f32_of_Z 50, f32_of_Z 45); (f32_of_Z 50, f32_of_Z 50)]))
  = [11639194 # 2097152; 15099494 # 33554432]%Q.
Proof.
  rewrite (proj1 (compute_on_zero_error (f32_of_Z 1) (f32_dec 1 1) (f32_dec 1 2)
                    (f32_of_Z 50) (f32_of_Z 45) (f32_of_Z 50) eq_refl eq_refl)).
  vm_compute. reflexivity.
Defined.

(** ** The transfer curve *)

(** X4.  The transfer curve on every argument.  Whatever the voltage,
    NaN and the infinities included, the temperature returned is one of the
    twelve of the table, hence a number between -20 and 120; a voltage that
    is NaN fails every comparison and gets 120, like one below 0.749. *)
Theorem interpolateTemperature_range (voltage : f32) :
  In (interpolateTemperature voltage)
     (map f32_of_Z [-20; -10; 0; 10; 20; 30; 40; 50; 60; 80; 100; 120]) /\
  f_le (f32_of_Z (-20)) (interpolateTemperature voltage) = true /\
  f_le (interpolateTemperature voltage) (f32_of_Z 120) = true /\
  (is_nan voltage = true -> interpolateTemperature voltage = f32_of_Z 120) /\
  interpolateTemperature (S754_infinity false) = f32_of_Z (-20) /\
  interpolateTemperature (S754_infinity true) = f32_of_Z 120.
Proof.
  assert (H : In (interpolateTemperature voltage)
                 (map f32_of_Z [-20; -10; 0; 10; 20; 30; 40; 50; 60; 80; 100; 120])).
  { rewrite interpolateTemperature_lookup.
    exact (lookup_in breakpoints fallback (f64_of_f32 voltage)). }
  split; [exact H|].
  split; [|split; [|split; [|split]]].
  - cbn [map In] in H.
    repeat (destruct H as [H|H]; [rewrite <- H; vm_compute; reflexivity|]).
    contradiction.
  - cbn [map In] in H.
    repeat (destruct H as [H|H]; [rewrite <- H; vm_compute; reflexivity|]).
    contradiction.
  - intros N. apply is_nan_eq in N. rewrite N. vm_compute. reflexivity.
  - vm_compute. reflexivity.
  - vm_compute. reflexivity.
Qed.

(** X5.  The transfer curve is the step table over the real numbers.  The
    code compares the [float] voltage, converted to [double], with [double]
    constants; on every finite binary32 voltage the result is the same as
    comparing the real value of the voltage with the decimal numbers 4.771,
    4.642, ..., 0.749 themselves: no binary32 value lies between a decimal
    threshold and the [double] nearest to it. *)
Theorem transfer_curve_is_decimal_table (voltage : f32) :
  is_binary32 voltage -> is_finite voltage = true ->
  interpolateTemperature voltage = lookupQ decimal_breakpoints fallback (F2Q voltage).
Proof.
  intros V F. rewrite interpolateTemperature_lookup.
  exact (lookup_exact calibration fallback voltage ltac:(vm_compute; reflexivity) V F).
Qed.

Lemma transfer_curve_is_decimal_table_witness :
  interpolateTemperature (f32_dec 4771 3) =
  lookupQ decimal_breakpoints fallback (F2Q (f32_dec 4771 3)).
Proof.
  apply transfer_curve_is_decimal_table; vm_compute; reflexivity.
Defined.

Lemma interpolateTemperature_valid (voltage : f32) :
  is_binary32 (interpolateTemperature voltage).
Proof.
  rewrite interpolateTemperature_lookup.
  pose proof (lookup_in breakpoints fallback (f64_of_f32 voltage)) as H.
  cbn [breakpoints map app In snd] in H.
  repeat (destruct H as [H|H]; [rewrite <- H; reflexivity|]).
  contradiction.
Qed.

(** [TEST(InterpolateTemperatureTest, VoltageToTemperature)] fails on its
    first expectation, [interpolateTemperature(4.771f) == -20.0], and holds
    on its second, [interpolateTemperature(2.838f) == 40.0]. *)
Example InterpolateTemperatureTest_fails :
  InterpolateTemperatureTest_VoltageToTemperature = [false; true].
Proof. vm_compute. reflexivity. Qed.

(** ** The frame encoder *)

Lemma f32_div_mul_not_finite (x : f32) :
  is_finite x = false ->
  is_finite (f32_mul (f32_div x (f32_of_Z 100)) (f32_of_Z 255)) = false.
Proof.
  rewrite f32_of_Z_100, f32_of_Z_255.
  destruct x as [s|s| |s m e]; try discriminate; intros _; reflexivity.
Qed.

Lemma uchar_of_not_finite (x : f32) : is_finite x = false -> uchar_of_f32 x = None.
Proof. destruct x; try discriminate; reflexivity. Qed.

(** X6.  The frame encoder on any commands.  When both conversions are
    defined the frame has the identifier 0x18FF408F and eight bytes, of
    which only bytes 2 and 6 can differ from zero, each the truncation of
    the scaled command and between 0 and 255.  A command that is NaN or
    infinite makes the conversion to [unsigned char] undefined. *)
Theorem CANcontrol_any_commands (p f : f32) :
  (forall id bytes,
     CANcontrol p f = Some (id, bytes) ->
     id = 0x18FF408F /\
     exists b2 b6,
       bytes = [0; 0; b2; 0; 0; 0; b6; 0] /\
       f_trunc (f32_mul (f32_div p (f32_of_Z 100)) (f32_of_Z 255)) = Some b2 /\
       f_trunc (f32_mul (f32_div f (f32_of_Z 100)) (f32_of_Z 255)) = Some b6 /\
       0 <= b2 <= 255 /\ 0 <= b6 <= 255) /\
  (is_finite p = false \/ is_finite f = false -> CANcontrol p f = None).
Proof.
  unfold CANcontrol. split.
  - intros id bytes.
    destruct (uchar_of_f32 (f32_mul (f32_div p _) _)) as [b2|] eqn:E2; [|discriminate].
    destruct (uchar_of_f32 (f32_mul (f32_div f _) _)) as [b6|] eqn:E6; [|discriminate].
    intros [= <- <-]. split; [reflexivity|]. exists b2, b6.
    destruct (uchar_of_f32_trunc _ _ E2) as [T2 B2].
    destruct (uchar_of_f32_trunc _ _ E6) as [T6 B6].
    split; [reflexivity|]. split; [exact T2|]. split; [exact T6|]. split; assumption.
  - intros [H|H].
    + rewrite (uchar_of_not_finite _ (f32_div_mul_not_finite p H)). reflexivity.
    + rewrite (uchar_of_not_finite _ (f32_div_mul_not_finite f H)).
      destruct (uchar_of_f32 _); reflexivity.
Qed.

Lemma CANcontrol_any_commands_witness :
  CANcontrol (S754_infinity false) (f32_of_Z 0) = None.
Proof.
  exact (proj2 (CANcontrol_any_commands (S754_infinity false) (f32_of_Z 0))
               (or_introl eq_refl)).
Defined.

Lemma whole_percent_bytes :
  forallb (fun k =>
             match uchar_of_f32 (f32_mul (f32_div (f32_of_Z (Z.of_nat k)) (f32_of_Z 100))
                                         (f32_of_Z 255)) with
             | Some b => b =? 255 * Z.of_nat k / 100
             | None => false
             end) (seq 0 101) = true.
Proof. vm_compute. reflexivity. Qed.

Lemma whole_percent_byte (n : Z) :
  0 <= n <= 100 ->
  uchar_of_f32 (f32_mul (f32_div (f32_of_Z n) (f32_of_Z 100)) (f32_of_Z 255))
  = Some (255 * n / 100).
Proof.
  intros Hn. pose proof whole_percent_bytes as H. rewrite forallb_forall in H.
  specialize (H (Z.to_nat n)). rewrite Z2Nat.id in H by lia.
  assert (Hin : In (Z.to_nat n) (seq 0 101)) by (apply in_seq; lia).
  specialize (H Hin).
  destruct (uchar_of_f32 _) as [b|]; [|discriminate H].
  apply Z.eqb_eq in H. rewrite H. reflexivity.
Qed.

(** X7.  Whole percentages.  For commands that are whole numbers of
    percent, 0 to 100, the two roundings of the scaling in single precision
    do not show: byte 2 is the integer part of [255 * pump / 100] and byte 6
    that of [255 * fan / 100], so 0 gives 0, 50 gives 127 and 100 gives
    255. *)
Theorem CANcontrol_whole_percent (pump fan : Z) :
  0 <= pump <= 100 -> 0 <= fan <= 100 ->
  CANcontrol (f32_of_Z pump) (f32_of_Z fan) =
  Some (0x18FF408F, [0; 0; 255 * pump / 100; 0; 0; 0; 255 * fan / 100; 0]).
Proof.
  intros Hp Hf. unfold CANcontrol.
  rewrite (whole_percent_byte pump Hp), (whole_percent_byte fan Hf). reflexivity.
Qed.

Lemma CANcontrol_whole_percent_witness :
  CANcontrol (f32_of_Z 100) (f32_of_Z 50) =
  Some (0x18FF408F, [0; 0; 255; 0; 0; 0; 127; 0]).
Proof.
  exact (CANcontrol_whole_percent 100 50 ltac:(lia) ltac:(lia)).
Defined.

(** ** One iteration of the loop *)

(** The fields of the variables after the setters of an iteration. *)
Ltac fields :=
  unfold regulated, measured, measuring, set_regulation, set_currentState,
         set_measurement, set_ignitionSwitch;
  cbn [currentState ignitionSwitch levelSwitch pumpPID fanPID pumpSpeed fanSpeed
       measuredTemperature sensorVoltage].

(** The body of the loop goes one of the six ways. *)
Lemma loop_body_iteration (cfg : Config) (v : Vars) (r : Z) :
  iteration cfg v r (fst (loop_body cfg v r)) (snd (loop_body cfg v r)).
Proof.
  unfold loop_body. destruct (currentState v) eqn:S.
  - unfold case_OFF. cbv zeta.
    change (ignitionSwitch (set_ignitionSwitch v (negb (ignitionSwitch v))))
      with (negb (ignitionSwitch v)).
    destruct (ignitionSwitch v) eqn:G; cbn [negb].
    + exact (remain_off cfg v r S G).
    + exact (switch_on cfg v r S G).
  - unfold case_ON. fold (measured v r).
    destruct (levelSwitch v) eqn:L.
    + rewrite regulate_level_ok by exact L. cbv zeta.
      destruct (f_gt (measuredTemperature (measured v r)) (safetyThreshold cfg)) eqn:H.
      * exact (overheated cfg v r S L H).
      * exact (regulating cfg v r S L H).
    + rewrite regulate_low_coolant by exact L.
      exact (low_coolant cfg v r S L).
  - exact (returning cfg v r S).
Qed.

(** X8.  The transitions.  One iteration takes OFF to ON when the ignition
    was off and leaves it OFF when it was on; it leaves ON only for
    SAFETY_SHUTDOWN, on a low coolant level or an overtemperature; there is
    no transition from ON back to OFF, and none out of SAFETY_SHUTDOWN,
    where [main] returns. *)
Theorem state_transitions (cfg : Config) (v : Vars) (r : Z) :
  match snd (loop_body cfg v r) with
  | None => currentState v = SAFETY_SHUTDOWN
  | Some v' =>
      match currentState v, currentState v' with
      | OFF, OFF => ignitionSwitch v = true /\ ignitionSwitch v' = false
      | OFF, ON => ignitionSwitch v = false /\ ignitionSwitch v' = true
      | ON, ON => levelSwitch v = true /\ overtemperature cfg r = false
      | ON, SAFETY_SHUTDOWN => levelSwitch v = false \/ overtemperature cfg r = true
      | _, _ => False
      end
  end.
Proof.
  destruct (loop_body_iteration cfg v r) as [S G|S G|S L|S L H|S L H|S];
    try exact S; fields; rewrite S.
  - split; [exact G | reflexivity].
  - split; [exact G | reflexivity].
  - left. exact L.
  - right. exact H.
  - split; [exact L | exact H].
Qed.

Lemma simulated_voltage_cases (r : Z) :
  0 <= r ->
  simulated_voltage r = f32_of_Z 1 /\ r mod 3 = 0 \/
  simulated_voltage r = f32_of_Z 2 /\ r mod 3 = 1 \/
  simulated_voltage r = f32_of_Z 3 /\ r mod 3 = 2.
Proof.
  intros Hr. unfold simulated_voltage. rewrite Z.rem_mod_nonneg by lia.
  assert (H : r mod 3 = 0 \/ r mod 3 = 1 \/ r mod 3 = 2)
    by (pose proof (Z.mod_pos_bound r 3); lia).
  destruct H as [H|[H|H]]; rewrite H;
    [left | right; left | right; right]; (split; [vm_compute; reflexivity | reflexivity]).
Qed.

(** X9.  The simulated transducer.  For every value [rand()] can return
    the voltage is 1.0, 2.0 or 3.0 (never 4.0), and the measured temperature
    is 100, 60 or 40 degrees, as [rand() % 3] is 0, 1 or 2. *)
Theorem simulated_sensor_values (r : Z) :
  0 <= r ->
  let voltage := simulated_voltage r in
  let temperature := interpolateTemperature voltage in
  match r mod 3 with
  | 0 => voltage = f32_of_Z 1 /\ temperature = f32_of_Z 100
  | 1 => voltage = f32_of_Z 2 /\ temperature = f32_of_Z 60
  | _ => voltage = f32_of_Z 3 /\ temperature = f32_of_Z 40
  end.
Proof.
  intros Hr. cbv zeta.
  destruct (simulated_voltage_cases r Hr) as [[E M]|[[E M]|[E M]]];
    rewrite E, M; split; try reflexivity; vm_compute; reflexivity.
Qed.

Lemma simulated_sensor_values_witness :
  0 <= 7 /\
  simulated_voltage 7 = f32_of_Z 2 /\
  interpolateTemperature (simulated_voltage 7) = f32_of_Z 60.
Proof.
  split; [lia|]. exact (simulated_sensor_values 7 ltac:(lia)).
Defined.

Lemma simulated_temperature_bounds (r : Z) :
  0 <= r ->
  f_le (f32_of_Z 40) (interpolateTemperature (simulated_voltage r)) = true /\
  f_le (interpolateTemperature (simulated_voltage r)) (f32_of_Z 100) = true.
Proof.
  intros Hr.
  destruct (simulated_voltage_cases r Hr) as [[E _]|[[E _]|[E _]]]; rewrite E;
    split; vm_compute; reflexivity.
Qed.

Lemma clamp_nonpositive (x : f32) : nonpositive x -> is_zero (clamp_0_100 x) = true.
Proof.
  unfold clamp_0_100, f_lt, f_gt. rewrite f32_of_Z_0, f32_of_Z_100.
  destruct x as [s|s| |s m e]; cbn [nonpositive]; intros H; try contradiction;
    subst; reflexivity.
Qed.

Lemma clamp_valid (x : f32) : is_binary32 x -> is_binary32 (clamp_0_100 x).
Proof.
  intros V. unfold clamp_0_100.
  destruct (f_lt x (f32_of_Z 0)); [reflexivity|].
  destruct (f_gt x (f32_of_Z 100)); [reflexivity | exact V].
Qed.

(** X10.  The direction of the regulation.  The error is the setpoint minus
    the measurement, and negative outputs are clamped to zero: on the first
    regulating iteration, a measured temperature above the setpoint gives a
    pump command and a fan command of zero. *)
Theorem hot_coolant_zero_commands (cfg : Config) (t : f32) :
  is_binary32 (tempSetpoint cfg) -> is_binary32 t ->
  f_lt (tempSetpoint cfg) t = true ->
  exists p f rest,
    fst (tick_ON cfg on_vars t) = ControlPump p :: ControlFan f :: rest /\
    last (fst (tick_ON cfg on_vars t)) (Report Initializing) = CanControl p f /\
    is_zero p = true /\ is_zero f = true.
Proof.
  intros Vs Vt H.
  pose proof (f32_sub_nonpositive _ _ Vs Vt H) as E.
  exists (pump_command cfg (measuring on_vars t)), (fan_command cfg (measuring on_vars t)).
  rewrite tick_ON_unfold. cbv zeta.
  change (levelSwitch on_vars) with true. cbv iota.
  assert (P : is_zero (pump_command cfg (measuring on_vars t)) = true).
  { apply clamp_nonpositive.
    change (pumpPID (measuring on_vars t))
      with (PIDController_new (f32_dec 5 1) (f32_dec 1 1) (f32_dec 5 2)).
    replace (f32_dec 5 1) with (S754_finite false 8388608 (-24)) by (vm_compute; reflexivity).
    replace (f32_dec 1 1) with (S754_finite false 13421773 (-27)) by (vm_compute; reflexivity).
    replace (f32_dec 5 2) with (S754_finite false 13421773 (-28)) by (vm_compute; reflexivity).
    apply compute_nonpositive. exact E. }
  assert (F : is_zero (fan_command cfg (measuring on_vars t)) = true).
  { apply clamp_nonpositive.
    change (fanPID (measuring on_vars t))
      with (PIDController_new (f32_dec 4 1) (f32_dec 1 1) (f32_dec 3 2)).
    replace (f32_dec 4 1) with (S754_finite false 13421773 (-25)) by (vm_compute; reflexivity).
    replace (f32_dec 1 1) with (S754_finite false 13421773 (-27)) by (vm_compute; reflexivity).
    replace (f32_dec 3 2) with (S754_finite false 16106127 (-29)) by (vm_compute; reflexivity).
    apply compute_nonpositive. exact E. }
  destruct (f_gt t (safetyThreshold cfg)); cbn [fst];
    (eexists; split; [reflexivity | split; [reflexivity | split; assumption]]).
Qed.

Lemma hot_coolant_zero_commands_witness :
  exists p f rest,
    fst (tick_ON default_config on_vars (f32_of_Z 60)) =
      ControlPump p :: ControlFan f :: rest /\
    last (fst (tick_ON default_config on_vars (f32_of_Z 60))) (Report Initializing)
      = CanControl p f /\
    is_zero p = true /\ is_zero f = true.
Proof.
  apply (hot_coolant_zero_commands default_config (f32_of_Z 60));
    vm_compute; reflexivity.
Defined.

(** ** Runs of the loop *)

Section RunInvariant.

Variable cfg : Config.
Variable I : Vars -> Prop.
Variable P : event -> Prop.

Hypothesis step : forall v r,
  I v ->
  Forall P (fst (loop_body cfg v r)) /\
  (forall v', snd (loop_body cfg v r) = Some v' -> I v').

Lemma run_invariant (rands : list Z) (v : Vars) :
  I v ->
  Forall P (fst (run cfg v rands)) /\
  Forall I (trace cfg v rands) /\
  (forall v', snd (run cfg v rands) = Looping v' -> I v').
Proof.
  revert v. induction rands as [|r rest IH]; intros v Iv.
  - cbn. split; [constructor|]. split; [constructor|].
    intros v' E. injection E as <-. exact Iv.
  - cbn [run trace]. destruct (step v r Iv) as [E1 S1].
    destruct (loop_body cfg v r) as [ev [v1|]]; cbn [fst snd] in *.
    + destruct (IH v1 (S1 v1 eq_refl)) as (E2 & T2 & L2).
      destruct (run cfg v1 rest) as [ev' o]. cbn [fst snd] in *.
      split; [apply Forall_app; split; assumption|].
      split; [constructor; assumption | exact L2].
    + split; [exact E1|]. split; [constructor; [exact Iv | constructor]|].
      intros v' E. discriminate E.
Qed.

End RunInvariant.

Lemma run_cons (cfg : Config) (v : Vars) (r : Z) (rest : list Z) :
  run cfg v (r :: rest) =
  match snd (loop_body cfg v r) with
  | None => (fst (loop_body cfg v r), Returned 0)
  | Some v' =>
      (fst (loop_body cfg v r) ++ fst (run cfg v' rest), snd (run cfg v' rest))
  end.
Proof.
  cbn [run]. destruct (loop_body cfg v r) as [ev [v'|]]; cbn [fst snd].
  - destruct (run cfg v' rest). reflexivity.
  - reflexivity.
Qed.

Lemma run_app (cfg : Config) (a b : list Z) (v v' : Vars) :
  snd (run cfg v a) = Looping v' ->
  run cfg v (a ++ b) = (fst (run cfg v a) ++ fst (run cfg v' b), snd (run cfg v' b)).
Proof.
  revert v. induction a as [|r rest IH]; intros v H.
  - injection H as <-. cbn [app run fst]. destruct (run cfg v b). reflexivity.
  - cbn [app]. rewrite (run_cons cfg v r rest) in *. rewrite (run_cons cfg v r (rest ++ b)).
    destruct (snd (loop_body cfg v r)) as [v1|]; cbn [fst snd] in *; [|discriminate H].
    rewrite (IH v1 H). cbn [fst snd]. rewrite app_assoc. reflexivity.
Qed.

Lemma loop_body_frames (cfg : Config) (v : Vars) (r : Z) :
  frames (fst (loop_body cfg v r)) = if running v then 1%nat else 0%nat.
Proof.
  unfold running. destruct (loop_body_iteration cfg v r) as [S|S|S|S|S|S];
    rewrite S; reflexivity.
Qed.

Lemma loop_body_running (cfg : Config) (v : Vars) (r : Z) :
  running v = true -> exists v', snd (loop_body cfg v r) = Some v'.
Proof.
  unfold running. destruct (loop_body_iteration cfg v r) as [S|S|S|S|S|S];
    rewrite S; try discriminate; eexists; reflexivity.
Qed.

Lemma run_frames (cfg : Config) (rands : list Z) (v : Vars) :
  frames (fst (run cfg v rands)) = List.length (filter running (trace cfg v rands)).
Proof.
  revert v. induction rands as [|r rest IH]; intros v; [reflexivity|].
  rewrite run_cons. cbn [trace filter].
  pose proof (loop_body_frames cfg v r) as F.
  destruct (snd (loop_body cfg v r)) as [v'|] eqn:E; cbn [fst].
  - rewrite frames_app, F, IH. destruct (running v); reflexivity.
  - rewrite F. destruct (running v); reflexivity.
Qed.

Lemma run_looping (cfg : Config) (rands : list Z) (v v' : Vars) :
  snd (run cfg v rands) = Looping v' ->
  List.length (trace cfg v rands) = List.length rands /\
  forallb running (trace cfg v rands) = true.
Proof.
  revert v. induction rands as [|r rest IH]; intros v; [split; reflexivity|].
  rewrite run_cons. cbn [trace].
  pose proof (loop_body_iteration cfg v r) as It.
  destruct (snd (loop_body cfg v r)) as [v1|] eqn:E; cbn [snd]; [|discriminate].
  intros H. destruct (IH v1 H) as [L R]. cbn [List.length forallb]. rewrite L, R.
  split; [reflexivity|]. unfold running.
  inversion It;
    match goal with S : currentState v = _ |- _ => rewrite S end; reflexivity.
Qed.

(** X11.  Frames over a run.  A run emits one status frame for each iteration
    that starts in OFF or in ON and none for the one that starts in
    SAFETY_SHUTDOWN: while the loop is running there are as many frames as
    iterations, and a run that has returned emitted one frame fewer than it
    executed iterations. *)
Theorem frames_of_a_run (cfg : Config) (v : Vars) (rands : list Z) :
  frames (fst (run cfg v rands)) = List.length (filter running (trace cfg v rands)) /\
  (forall v', snd (run cfg v rands) = Looping v' ->
     frames (fst (run cfg v rands)) = List.length rands) /\
  (forall code, running v = true -> snd (run cfg v rands) = Returned code ->
     S (frames (fst (run cfg v rands))) = List.length (trace cfg v rands)).
Proof.
  split; [apply run_frames|]. split.
  - intros v' H. rewrite run_frames. destruct (run_looping cfg rands v v' H) as [L R].
    rewrite <- L. clear - R. induction (trace cfg v rands) as [|x l IH]; [reflexivity|].
    cbn [forallb] in R. apply andb_true_iff in R. destruct R as [Rx Rl].
    cbn [filter]. rewrite Rx. cbn [List.length]. rewrite IH by exact Rl. reflexivity.
  - intros code. rewrite run_frames. revert v.
    induction rands as [|r rest IH]; intros v Rv H; [discriminate H|].
    rewrite run_cons in H. cbn [trace filter]. rewrite Rv. cbn [List.length]. f_equal.
    destruct (loop_body_running cfg v r Rv) as [v1 E]. rewrite E in *. cbn [snd] in H.
    destruct (running v1) eqn:R1.
    + apply IH; assumption.
    + destruct rest as [|r' rest']; [discriminate H|].
      cbn [trace filter]. rewrite R1.
      unfold running in R1. destruct (currentState v1) eqn:S1; try discriminate R1.
      rewrite (loop_body_shutdown cfg v1 r' S1). reflexivity.
Qed.

(** X12.  The coolant-level input is initialised to [true] and never
    assigned: in every run of the loop from the initial variables it is
    [true] at every iteration, and the low-coolant fault is never reported. *)
Theorem coolant_fault_unreachable (cfg : Config) (rands : list Z) :
  Forall (fun v => levelSwitch v = true) (trace cfg initial_vars rands) /\
  ~ In (Report LowCoolant) (fst (run cfg initial_vars rands)).
Proof.
  destruct (run_invariant cfg (fun v => levelSwitch v = true)
              (fun e => e <> Report LowCoolant)) with (rands := rands) (v := initial_vars)
    as (E & T & _).
  - intros v r L. destruct (loop_body_iteration cfg v r); try congruence; split;
      try (intros v' [= <-]; exact L);
      repeat constructor; discriminate.
  - reflexivity.
  - split; [exact T|]. intros H. rewrite Forall_forall in E. exact (E _ H eq_refl).
Qed.

(** X13.  The ignition.  The first iteration of the loop finds the ignition
    off, switches it on and enters state ON, with an all-zero status frame;
    from then on the state is never OFF again, so the ignition is never
    switched off and "System remains OFF" is never printed. *)
Theorem ignition_switches_on_once (cfg : Config) (r : Z) (rands : list Z) :
  loop_body cfg initial_vars r =
    ([Report SystemOn; CanControl (f32_of_Z 0) (f32_of_Z 0)], Some on_vars) /\
  CANcontrol (f32_of_Z 0) (f32_of_Z 0) = Some (CANID, [0; 0; 0; 0; 0; 0; 0; 0]) /\
  Forall (fun v => currentState v <> OFF /\ ignitionSwitch v = true)
         (trace cfg on_vars rands) /\
  ~ In (Report RemainsOff) (fst (run cfg initial_vars (r :: rands))).
Proof.
  assert (B : loop_body cfg initial_vars r =
              ([Report SystemOn; CanControl (f32_of_Z 0) (f32_of_Z 0)], Some on_vars))
    by reflexivity.
  split; [exact B|]. split; [vm_compute; reflexivity|].
  destruct (run_invariant cfg (fun v => currentState v <> OFF /\ ignitionSwitch v = true)
              (fun e => e <> Report RemainsOff)) with (rands := rands) (v := on_vars)
    as (E & T & _).
  - intros v r' [S G]. destruct (loop_body_iteration cfg v r'); try congruence;
      (split; [repeat constructor; discriminate |]);
      try discriminate; intros v' [= <-]; fields;
      (split; [congruence | exact G]).
  - split; [discriminate | reflexivity].
  - split; [exact T|]. rewrite run_cons, B. cbn [fst snd app].
    intros [H|H]; [discriminate H|]. destruct H as [H|H]; [discriminate H|].
    rewrite Forall_forall in E. exact (E _ H eq_refl).
Qed.

Lemma loop_body_in_step (cfg : Config) (v : Vars) (r : Z) :
  in_step v -> forall v', snd (loop_body cfg v r) = Some v' -> in_step v'.
Proof.
  intros Iv v' E.
  destruct (loop_body_iteration cfg v r) as [? ?|? ?|? ?|? ? ?|? ? ?|?];
    try discriminate E;
    injection E as <-;
    unfold in_step in *; fields; unfold compute;
    cbn [Kp Ki Kd prevError integral snd];
    destruct Iv as (A & B & C & D & F & G & P & K);
    repeat split; try assumption; congruence.
Qed.

(** X14.  The two regulators run in step.  Both are called on every
    regulating iteration with the same setpoint and the same measurement,
    and nowhere else: at every iteration of every run they hold the gains
    [main] gave them (0.5, 0.1, 0.05 and 0.4, 0.1, 0.03) and the same
    previous error and the same accumulated error. *)
Theorem regulators_in_step (cfg : Config) (rands : list Z) :
  Forall in_step (trace cfg initial_vars rands) /\
  (forall v, snd (run cfg initial_vars rands) = Looping v -> in_step v).
Proof.
  destruct (run_invariant cfg in_step (fun _ => True)) with (rands := rands) (v := initial_vars)
    as (_ & T & L).
  - intros v r Iv. split; [|exact (loop_body_in_step cfg v r Iv)].
    apply Forall_forall. intros; exact Logic.I.
  - repeat split.
  - split; assumption.
Qed.

(** While the overtemperature test fails the loop stays in state ON. *)
Lemma run_cool (cfg : Config) (rands : list Z) (v : Vars) :
  currentState v = ON -> levelSwitch v = true -> cool cfg rands = true ->
  exists v', snd (run cfg v rands) = Looping v' /\
             currentState v' = ON /\ levelSwitch v' = true.
Proof.
  unfold cool. revert v. induction rands as [|r rest IH]; intros v S L C.
  - exists v. split; [reflexivity | split; assumption].
  - cbn [forallb] in C. apply andb_true_iff in C. destruct C as [Cr Crest].
    apply negb_true_iff in Cr. rewrite run_cons.
    pose proof (loop_body_iteration cfg v r) as It.
    inversion It as [S' G|S' G|S' L'|S' L' H|S' L' H|S']; try congruence.
    cbn [snd]. apply IH; [exact S | exact L | exact Crest].
Qed.

(** The iteration on which the test succeeds latches SAFETY_SHUTDOWN, and
    the next one returns. *)
Lemma run_overheated (cfg : Config) (v : Vars) (r : Z) :
  currentState v = ON -> levelSwitch v = true -> overtemperature cfg r = true ->
  (exists v', snd (run cfg v [r]) = Looping v' /\ currentState v' = SAFETY_SHUTDOWN) /\
  (forall r' rest, snd (run cfg v (r :: r' :: rest)) = Returned 0).
Proof.
  intros S L H.
  pose proof (loop_body_iteration cfg v r) as It.
  inversion It as [S' G|S' G|S' L'|S' L' H' Ev E|S' L' H'|S']; try congruence.
  split.
  - rewrite run_cons, <- E. cbn [run snd]. eexists. split; reflexivity.
  - intros r' rest. rewrite run_cons, <- E. cbn [snd].
    rewrite run_cons, loop_body_shutdown by reflexivity. reflexivity.
Qed.

(** X15.  When the loop ends.  In a run from the initial variables the first
    iteration switches the system on; the loop then stays in state ON as
    long as no measured temperature exceeds the safety threshold; the first
    iteration on which one does latches SAFETY_SHUTDOWN, and the iteration
    after it returns 0. *)
Theorem returns_after_first_overtemperature (cfg : Config) (r0 : Z) (pre : list Z) :
  cool cfg pre = true ->
  (exists v, snd (run cfg initial_vars (r0 :: pre)) = Looping v /\ currentState v = ON) /\
  (forall r, overtemperature cfg r = true ->
     (exists v, snd (run cfg initial_vars (r0 :: pre ++ [r])) = Looping v /\
                currentState v = SAFETY_SHUTDOWN) /\
     (forall r' post,
        snd (run cfg initial_vars (r0 :: pre ++ r :: r' :: post)) = Returned 0)).
Proof.
  intros C.
  assert (B : forall rest, run cfg initial_vars (r0 :: rest) =
                           ([Report SystemOn; CanControl (f32_of_Z 0) (f32_of_Z 0)]
                              ++ fst (run cfg on_vars rest), snd (run cfg on_vars rest)))
    by (intros rest; rewrite run_cons; reflexivity).
  destruct (run_cool cfg pre on_vars eq_refl eq_refl C) as (v & E & S & L).
  split.
  - exists v. rewrite B. split; assumption.
  - intros r H. destruct (run_overheated cfg v r S L H) as [(v' & E' & S') R]. split.
    + exists v'. rewrite B, (run_app cfg pre [r] on_vars v E). split; assumption.
    + intros r' post. rewrite B, (run_app cfg pre (r :: r' :: post) on_vars v E).
      apply R.
Qed.

Lemma returns_after_first_overtemperature_witness :
  cool default_config [1; 2] = true /\ overtemperature default_config 0 = true /\
  snd (run default_config initial_vars [0; 1; 2; 0; 0]) = Returned 0.
Proof.
  assert (C : cool default_config [1; 2] = true) by (vm_compute; reflexivity).
  assert (H : overtemperature default_config 0 = true) by (vm_compute; reflexivity).
  split; [exact C|]. split; [exact H|].
  exact (proj2 (proj2 (returns_after_first_overtemperature default_config 0 [1; 2] C) 0 H)
               0 []).
Defined.

Lemma overtemperature_nan (cfg : Config) (r : Z) :
  is_nan (safetyThreshold cfg) = true -> overtemperature cfg r = false.
Proof.
  unfold overtemperature, f_gt, SFltb. destruct (safetyThreshold cfg); try discriminate.
  reflexivity.
Qed.

Lemma cool_all (cfg : Config) (rands : list Z) :
  (forall r, In r rands -> overtemperature cfg r = false) -> cool cfg rands = true.
Proof.
  intros H. unfold cool. apply forallb_forall. intros r Hr. rewrite (H r Hr). reflexivity.
Qed.

(** X16.  A safety threshold that is not a number switches the protection
    off.  [std::stof] accepts the argument [nan]; the test
    [measuredTemperature > safetyThreshold] is then false for every
    temperature, so no run latches SAFETY_SHUTDOWN and [main] never
    returns. *)
Theorem nan_threshold_disables_shutdown :
  (forall cfg rands,
     is_nan (safetyThreshold cfg) = true ->
     exists v, snd (run cfg initial_vars rands) = Looping v /\ running v = true) /\
  stof "nan" = Some S754_nan /\
  (forall rands,
     exists v,
       snd (main ["CoolingLoopControl"; "50"; "nan"]%string rands) = Looping v /\
       running v = true).
Proof.
  assert (G : forall cfg rands,
     is_nan (safetyThreshold cfg) = true ->
     exists v, snd (run cfg initial_vars rands) = Looping v /\ running v = true).
  { intros cfg [|r0 rest] N.
    - exists initial_vars. split; reflexivity.
    - assert (C : cool cfg rest = true)
        by (apply cool_all; intros r _; apply overtemperature_nan; exact N).
      destruct (run_cool cfg rest on_vars eq_refl eq_refl C) as (v & E & S & _).
      exists v. rewrite run_cons. split; [exact E|]. unfold running. rewrite S. reflexivity. }
  split; [exact G|]. split; [vm_compute; reflexivity|].
  intros rands. unfold main.
  replace (parse_arguments ["CoolingLoopControl"; "50"; "nan"]%string)
    with (@nil event, @inl Config Z (mkConfig (f32_of_Z 50) S754_nan))
    by (vm_compute; reflexivity).
  destruct (G (mkConfig (f32_of_Z 50) S754_nan) rands eq_refl) as (v & E & R).
  exists v. destruct (run _ initial_vars rands) as [ev o]. cbn [snd] in *.
  split; assumption.
Qed.

(** X17.  The simulated transducer against the threshold.  The temperatures
    the loop measures lie between 40 and 100 degrees.  With a safety
    threshold that is not below 100 the overtemperature shutdown cannot
    trigger and [main] never returns; with a threshold below 40 it triggers
    on the first iteration in state ON, and [main] returns on its third
    iteration, whatever [rand()] gives. *)
Theorem threshold_against_simulated_sensor (cfg : Config) (r0 : Z) (rands : list Z) :
  Forall (fun r => 0 <= r) rands ->
  (f_lt (safetyThreshold cfg) (f32_of_Z 100) = false ->
   exists v, snd (run cfg initial_vars (r0 :: rands)) = Looping v /\ currentState v = ON) /\
  (f_lt (safetyThreshold cfg) (f32_of_Z 40) = true ->
   forall r1 r2, 0 <= r1 ->
     snd (run cfg initial_vars (r0 :: r1 :: r2 :: rands)) = Returned 0).
Proof.
  intros Hr. split.
  - intros H.
    assert (C : cool cfg rands = true).
    { apply cool_all. intros r Hin. rewrite Forall_forall in Hr.
      destruct (simulated_temperature_bounds r (Hr r Hin)) as [_ Hi].
      unfold overtemperature, f_gt.
      destruct (SFltb (safetyThreshold cfg) (interpolateTemperature _)) eqn:Hlt;
        [|reflexivity].
      unfold f_lt in H. rewrite (SFltb_leb_trans _ _ _ Hlt Hi) in H. discriminate H. }
    destruct (run_cool cfg rands on_vars eq_refl eq_refl C) as (v & E & S & _).
    exists v. rewrite run_cons. split; assumption.
  - intros H r1 r2 H1.
    destruct (simulated_temperature_bounds r1 H1) as [Lo _].
    assert (O : overtemperature cfg r1 = true)
      by (unfold overtemperature, f_gt; exact (SFltb_leb_trans _ _ _ H Lo)).
    rewrite run_cons. cbn [snd loop_body initial_vars currentState case_OFF].
    exact (proj2 (run_overheated cfg on_vars r1 eq_refl eq_refl O) r2 rands).
Qed.

Lemma threshold_against_simulated_sensor_witness :
  Forall (fun r => 0 <= r) [4; 5] /\
  f_lt (safetyThreshold (mkConfig (f32_of_Z 50) (f32_of_Z 100))) (f32_of_Z 100) = false /\
  f_lt (safetyThreshold (mkConfig (f32_of_Z 50) (f32_of_Z 30))) (f32_of_Z 40) = true /\
  (exists v, snd (run (mkConfig (f32_of_Z 50) (f32_of_Z 100)) initial_vars [0; 4; 5])
             = Looping v /\ currentState v = ON) /\
  snd (run (mkConfig (f32_of_Z 50) (f32_of_Z 30)) initial_vars [0; 1; 2; 4; 5])
  = Returned 0.
Proof.
  assert (F : Forall (fun r => 0 <= r) [4; 5]) by (repeat constructor; lia).
  assert (A : f_lt (safetyThreshold (mkConfig (f32_of_Z 50) (f32_of_Z 100)))
                   (f32_of_Z 100) = false) by (vm_compute; reflexivity).
  assert (B : f_lt (safetyThreshold (mkConfig (f32_of_Z 50) (f32_of_Z 30)))
                   (f32_of_Z 40) = true) by (vm_compute; reflexivity).
  split; [exact F|]. split; [exact A|]. split; [exact B|]. split.
  - exact (proj1 (threshold_against_simulated_sensor _ 0 [4; 5] F) A).
  - exact (proj2 (threshold_against_simulated_sensor _ 0 [4; 5] F) B 1 2 ltac:(lia)).
Defined.

(** X18.  A setpoint that is not a number reaches the actuators.  The two
    comparisons of the clamp are false on NaN, so with a NaN setpoint every
    regulating iteration hands NaN to the pump, to the fan and to the frame
    encoder, where the conversion of NaN to [unsigned char] is undefined.
    [std::stof] accepts the argument [nan], and the second iteration of
    [main] then commands the pump with NaN. *)
Theorem nan_setpoint_reaches_actuators :
  (forall cfg v t,
     is_nan (tempSetpoint cfg) = true -> levelSwitch v = true ->
     (exists rest,
        fst (tick_ON cfg v t) = ControlPump S754_nan :: ControlFan S754_nan :: rest) /\
     last (fst (tick_ON cfg v t)) (Report Initializing) = CanControl S754_nan S754_nan) /\
  (forall x, CANcontrol S754_nan x = None /\ CANcontrol x S754_nan = None) /\
  (forall r0 r1 rands,
     In (ControlPump S754_nan)
        (fst (main ["CoolingLoopControl"; "nan"]%string (r0 :: r1 :: rands)))).
Proof.
  split; [|split].
  - intros cfg v t N L. rewrite tick_ON_unfold. cbv zeta. rewrite L.
    destruct (commands_nan cfg (measuring v t) N) as [P F]. rewrite P, F.
    destruct (f_gt t (safetyThreshold cfg)); cbn [fst];
      (split; [eexists; reflexivity | reflexivity]).
  - intros x. split; [reflexivity|]. unfold CANcontrol.
    destruct (uchar_of_f32 _); reflexivity.
  - intros r0 r1 rands. unfold main.
    replace (parse_arguments ["CoolingLoopControl"; "nan"]%string)
      with (@nil event, @inl Config Z (mkConfig S754_nan (f32_of_Z 70)))
      by (vm_compute; reflexivity).
    set (cfg := mkConfig S754_nan (f32_of_Z 70)).
    assert (H : In (ControlPump S754_nan) (fst (run cfg initial_vars (r0 :: r1 :: rands)))).
    { rewrite run_cons.
      change (loop_body cfg initial_vars r0)
        with ([Report SystemOn; CanControl (f32_of_Z 0) (f32_of_Z 0)], Some on_vars).
      cbn [fst snd]. rewrite run_cons.
      destruct (commands_nan cfg (measured on_vars r1) eq_refl) as [P _].
      apply in_or_app. right.
      assert (K : In (ControlPump S754_nan) (fst (loop_body cfg on_vars r1))).
      { destruct (loop_body_iteration cfg on_vars r1)
          as [S G|S G|S L|S L H|S L H|S]; try discriminate;
          rewrite P; left; reflexivity. }
      destruct (snd (loop_body cfg on_vars r1)); cbn [fst];
        [apply in_or_app; left; exact K | exact K]. }
    destruct (run cfg initial_vars (r0 :: r1 :: rands)) as [ev o]. cbn [fst app] in *.
    right. exact H.
Qed.

Lemma initial_vars_valid : valid_vars initial_vars.
Proof. repeat split. Qed.

Lemma frame_in_range (p f : f32) (ev : list event) :
  forallb event_in_range ev = true -> In (CanControl p f) ev ->
  in_range p = true /\ in_range f = true.
Proof.
  intros R H. rewrite forallb_forall in R. specialize (R _ H).
  cbn [event_in_range] in R. apply andb_true_iff in R. exact R.
Qed.

(** One iteration keeps the variables binary32 data, and with regulators
    that are sound every command it hands over is one in [0, 100]. *)
Lemma loop_body_commands (cfg : Config) (v : Vars) (r : Z) :
  is_binary32 (tempSetpoint cfg) -> below 125 (tempSetpoint cfg) ->
  sound_vars v /\ valid_vars v ->
  Forall event_commands_ok (fst (loop_body cfg v r)) /\
  (forall v', snd (loop_body cfg v r) = Some v' -> sound_vars v' /\ valid_vars v').
Proof.
  intros Vs Bs [Sv Vv].
  destruct (loop_body_sound cfg v r Sv Bs) as [R S'].
  assert (Z0 : is_binary32 (f32_of_Z 0) /\ in_range (f32_of_Z 0) = true)
    by (split; reflexivity).
  assert (K : forall w, valid_vars w ->
              is_binary32 (measuredTemperature w) ->
              is_binary32 (pump_command cfg w) /\ is_binary32 (fan_command cfg w) /\
              valid_vars (regulated cfg w)).
  { intros w (Wp & Wf & _ & _) Mw. unfold pump_command, fan_command, regulated.
    destruct (compute_valid (pumpPID w) (tempSetpoint cfg) (measuredTemperature w) Wp Vs Mw)
      as [Op Cp].
    destruct (compute_valid (fanPID w) (tempSetpoint cfg) (measuredTemperature w) Wf Vs Mw)
      as [Of Cf].
    pose proof (clamp_valid _ Op). pose proof (clamp_valid _ Of).
    split; [assumption|]. split; [assumption|].
    unfold valid_vars. fields. split; [exact Cp|]. split; [exact Cf|]. split; assumption. }
  assert (Vm : valid_vars (measured v r)) by exact Vv.
  destruct (K (measured v r) Vm (interpolateTemperature_valid _)) as (Pp & Pf & Vr).
  destruct Vv as (Wp & Wf & Wps & Wfs). destruct Sv as (_ & _ & Rps & Rfs).
  pose proof (loop_body_iteration cfg v r) as It.
  inversion It as [S G Ev E|S G Ev E|S L Ev E|S L H Ev E|S L H Ev E|S Ev E];
    rewrite <- Ev in R.
  - split; [repeat constructor; assumption|].
    intros v' [= <-]. split; [apply S'; symmetry; exact E | exact Vm].
  - split; [repeat constructor; assumption|].
    intros v' [= <-]. split; [apply S'; symmetry; exact E | exact Vm].
  - split; [repeat constructor; assumption|].
    intros v' [= <-]. split; [apply S'; symmetry; exact E | exact Vm].
  - destruct (frame_in_range _ _ _ R ltac:(do 6 right; left; reflexivity)) as [Ip If].
    split; [repeat constructor; assumption|].
    intros v' [= <-]. split; [apply S'; symmetry; exact E | exact Vr].
  - destruct (frame_in_range _ _ _ R ltac:(do 3 right; left; reflexivity)) as [Ip If].
    split; [repeat constructor; assumption|].
    intros v' [= <-]. split; [apply S'; symmetry; exact E | exact Vr].
  - split; [repeat constructor | discriminate].
Qed.

Lemma commands_ok_frame (e : event) : event_commands_ok e -> frame_defined e.
Proof.
  destruct e as [s|s|p f|t p f|m]; cbn [event_commands_ok frame_defined]; auto.
  intros [[Vp Rp] [Vf Rf]].
  unfold in_range in Rp, Rf. apply andb_true_iff in Rp. apply andb_true_iff in Rf.
  destruct (scale_fits_byte p Vp (proj1 Rp) (proj2 Rp)) as (b2 & E2 & B2).
  destruct (scale_fits_byte f Vf (proj1 Rf) (proj2 Rf)) as (b6 & E6 & B6).
  exists b2, b6. unfold CANcontrol. rewrite E2, E6.
  split; [reflexivity | split; assumption].
Qed.

(** X19.  No frame is undefined.  In every run of the loop from the initial
    variables with a setpoint that is a finite binary32 number of magnitude
    at most 2^125, every command handed to an actuator or to the frame
    encoder is a binary32 number in [0, 100], and every call of the frame
    encoder produces its frame: neither conversion to [unsigned char] is
    out of range.  This holds for [main] without arguments. *)
Theorem frames_defined_along_run :
  (forall cfg rands,
     is_binary32 (tempSetpoint cfg) -> below 125 (tempSetpoint cfg) ->
     Forall event_commands_ok (fst (run cfg initial_vars rands)) /\
     Forall frame_defined (fst (run cfg initial_vars rands))) /\
  (forall rands, Forall frame_defined (fst (main ["CoolingLoopControl"]%string rands))).
Proof.
  assert (G : forall cfg rands,
     is_binary32 (tempSetpoint cfg) -> below 125 (tempSetpoint cfg) ->
     Forall event_commands_ok (fst (run cfg initial_vars rands)) /\
     Forall frame_defined (fst (run cfg initial_vars rands))).
  { intros cfg rands Vs Bs.
    destruct (run_invariant cfg (fun v => sound_vars v /\ valid_vars v) event_commands_ok)
      with (rands := rands) (v := initial_vars) as (E & _ & _).
    - intros v r. apply loop_body_commands; assumption.
    - split; [exact initial_vars_sound | exact initial_vars_valid].
    - split; [exact E|]. eapply Forall_impl; [|exact E]. exact commands_ok_frame. }
  split; [exact G|].
  intros rands. unfold main.
  change (parse_arguments ["CoolingLoopControl"]%string)
    with (@nil event, @inl Config Z default_config).
  assert (B : below 125 (tempSetpoint default_config)) by (vm_compute; split; discriminate).
  destruct (G default_config rands eq_refl B) as [_ F].
  destruct (run default_config initial_vars rands) as [ev o]. cbn [fst app] in *.
  constructor; [exact I | exact F].
Qed.

Lemma frames_defined_along_run_witness :
  is_binary32 (tempSetpoint default_config) /\ below 125 (tempSetpoint default_config) /\
  Forall frame_defined (fst (run default_config initial_vars [0; 2; 1; 0])).
Proof.
  assert (B : below 125 (tempSetpoint default_config)) by (vm_compute; split; discriminate).
  split; [reflexivity|]. split; [exact B|].
  exact (proj2 (proj1 frames_defined_along_run default_config [0; 2; 1; 0] eq_refl B)).
Defined.

(** ** The end of main *)

(** An iteration that latches SAFETY_SHUTDOWN ends with the actuators
    commanded to zero, the notice and the frame. *)
Lemma loop_body_latch (cfg : Config) (v v' : Vars) (r : Z) :
  running v = true ->
  snd (loop_body cfg v r) = Some v' -> running v' = false ->
  exists pre p f,
    fst (loop_body cfg v r) =
    pre ++ [ControlPump (f32_of_Z 0); ControlFan (f32_of_Z 0); Report EnteringShutdown;
            CanControl p f].
Proof.
  unfold running. intros Rv E R'.
  destruct (loop_body_iteration cfg v r) as [S G|S G|S L|S L H|S L H|S];
    try (rewrite S in Rv; discriminate Rv);
    injection E as <-; revert R'; fields; try rewrite S; try discriminate; intros _.
  - exists [Report LowCoolant]. do 2 eexists. reflexivity.
  - eexists [_; _; _]. do 2 eexists. reflexivity.
Qed.

Lemma run_returned (cfg : Config) (rands : list Z) (v : Vars) (code : Z) :
  running v = true ->
  snd (run cfg v rands) = Returned code ->
  code = 0 /\
  exists pre p f, fst (run cfg v rands) = pre ++ shutdown_epilogue p f.
Proof.
  revert v. induction rands as [|r rest IH]; intros v Rv H; [discriminate H|].
  rewrite run_cons in *.
  destruct (loop_body_running cfg v r Rv) as [v1 E]. rewrite E in *. cbn [fst snd] in *.
  destruct (running v1) eqn:R1.
  - destruct (IH v1 R1 H) as (C & pre & p & f & Ev). split; [exact C|].
    exists (fst (loop_body cfg v r) ++ pre), p, f. rewrite Ev. apply app_assoc.
  - destruct (loop_body_latch cfg v v1 r Rv E R1) as (pre & p & f & Ev).
    destruct rest as [|r' rest']; [discriminate H|].
    unfold running in R1. destruct (currentState v1) eqn:S1; try discriminate R1.
    rewrite run_cons, (loop_body_shutdown cfg v1 r' S1) in *. cbn [fst snd] in *.
    injection H as <-. split; [reflexivity|].
    exists pre, p, f. rewrite Ev, <- app_assoc. reflexivity.
Qed.

(** X20.  How [main] ends.  [main] returns 1 or 0.  When it returns 0 the
    last things it did were: command the pump to zero, command the fan to
    zero, announce the safety shutdown, emit one frame, and print the
    shutdown notice. *)
Theorem main_returns_after_zeroing (argv : list string) (rands : list Z) (code : Z) :
  snd (main argv rands) = Returned code ->
  (code = 1 /\ fst (main argv rands) = [Report ParseError]) \/
  (code = 0 /\
   exists pre p f, fst (main argv rands) = pre ++ shutdown_epilogue p f).
Proof.
  unfold main, parse_arguments.
  set (d1 := f32_of_f64 (f64_dec 500 1)). set (d2 := f32_of_f64 (f64_dec 700 1)).
  assert (K : forall cfg,
    snd (let '(ev', o) := run cfg initial_vars rands in
         ([] ++ [Report Initializing] ++ ev', o)) = Returned code ->
    code = 0 /\
    exists pre p f,
      fst (let '(ev', o) := run cfg initial_vars rands in
           ([] ++ [Report Initializing] ++ ev', o)) = pre ++ shutdown_epilogue p f).
  { intros cfg. pose proof (run_returned cfg rands initial_vars code eq_refl) as R.
    destruct (run cfg initial_vars rands) as [ev o]. cbn [fst snd app] in *.
    intros H. destruct (R H) as (C & pre & p & f & Ev). split; [exact C|].
    exists (Report Initializing :: pre), p, f. rewrite Ev. reflexivity. }
  destruct (1 <? List.length argv)%nat; [|intros H; right; exact (K _ H)].
  destruct (stof (nth 1 argv EmptyString)) as [s|].
  - destruct (2 <? List.length argv)%nat; [|intros H; right; exact (K _ H)].
    destruct (stof (nth 2 argv EmptyString)) as [t|].
    + intros H; right; exact (K _ H).
    + cbn [fst snd]. intros [= <-]. left. split; reflexivity.
  - cbn [fst snd]. intros [= <-]. left. split; reflexivity.
Qed.

Lemma main_returns_after_zeroing_witness :
  snd (main ["CoolingLoopControl"]%string [0; 0; 0]) = Returned 0 /\
  exists pre p f,
    fst (main ["CoolingLoopControl"]%string [0; 0; 0]) = pre ++ shutdown_epilogue p f.
Proof.
  assert (H : snd (main ["CoolingLoopControl"]%string [0; 0; 0]) = Returned 0)
    by (vm_compute; reflexivity).
  split; [exact H|].
  destruct (main_returns_after_zeroing _ _ _ H) as [[C _]|[_ E]]; [discriminate C | exact E].
Defined.

(** X21.  Arguments that [std::stof] rejects.  When the conversion of the
    setpoint argument throws, or that of the threshold argument when there
    is one, [main] reports the error and returns 1: the loop is not entered,
    no actuator is commanded and no frame is emitted, whatever the other
    argument is. *)
Theorem main_rejects_unparsable (argv : list string) (rands : list Z) :
  (1 < List.length argv)%nat ->
  stof (nth 1 argv EmptyString) = None \/
  ((2 < List.length argv)%nat /\ stof (nth 2 argv EmptyString) = None) ->
  main argv rands = ([Report ParseError], Returned 1) /\
  filter is_actuation (fst (main argv rands)) = [].
Proof.
  intros H1 H. rewrite (main_rejects_thrown argv rands H1 H). split; reflexivity.
Qed.

Lemma main_rejects_unparsable_witness :
  main ["CoolingLoopControl"; "50"; "seventy"]%string [0; 0; 0] =
  ([Report ParseError], Returned 1).
Proof.
  apply (main_rejects_unparsable ["CoolingLoopControl"; "50"; "seventy"]%string [0; 0; 0]).
  - cbn. lia.
  - right. split; [cbn; lia | vm_compute; reflexivity].
Defined.
